(** * The auction bidding engine of the IPL auction platform

    A shallow embedding of [src/lib/db.ts] (the in-memory entity store, the
    bidding engine and the auction lifecycle) together with the record types
    of [src/lib/types.ts], and the properties of the specification that are
    about them.

    Modelling decisions, all of them visible in the definitions below:

    - A JavaScript [number] that holds money (purses, prices, bids) is an
      exact rational [Q] in the main development; the engine only subtracts
      and compares these values.  Floating-point rounding, [NaN] and the
      infinities are outside that model.  The module [Doubles] repeats the
      store over IEEE 754 doubles ([float], with the operations of the
      hardware); purse conservation, which depends on how a subtraction
      rounds, is settled there.  Timestamps ([Date.now()]) are integers [Z].
    - The collections [teams], [players], [auctions] and [bidLocks] are
      JavaScript [Map]s keyed by strings: [gmap string _].
    - Player objects are shared: the object stored in [players] is the very
      object an auction embeds as [auction.player] and the one pushed on a
      team's roster, and [updatePlayerStatus] mutates it in place.  The
      [players] map is written only by [initializeDatabase], so a player
      object is identified with the key it is stored under: a [PlayerRef] is
      that key, and reading through a reference reads the [players] map.
    - [Date.now()] is an input of every operation.  An operation reads the
      clock at most four times; a [Clock] carries these readings in program
      order.
    - [placeBid] is an [async] function without an [await]: a call runs to
      completion before the next one starts, so a call is one step of the
      store.  The lock map [bidLocks] is part of the store all the same. *)

From Stdlib Require Import QArith Qround Qminmax Lqa.
From Stdlib Require Floats.
From stdpp Require Import gmap strings list fin_maps pretty.

Local Open Scope Q_scope.

(** ** Data model ([src/lib/types.ts]) *)

Inductive PlayerRole := Batsman | Bowler | AllRounder | WicketKeeper.
Inductive PlayerStatus := Unsold | Live | Sold.
Inductive AuctionStatus := upcoming | live | completed.

(** The [type] of an activity; in a module of its own because [bid] is also
    the name of the record [placeBid] builds. *)
Module ActivityType.
Inductive t := bid | win | auction_start | auction_end.
End ActivityType.

#[global] Instance PlayerRole_eq_dec : EqDecision PlayerRole.
Proof. solve_decision. Defined.
#[global] Instance PlayerStatus_eq_dec : EqDecision PlayerStatus.
Proof. solve_decision. Defined.
#[global] Instance AuctionStatus_eq_dec : EqDecision AuctionStatus.
Proof. solve_decision. Defined.
#[global] Instance ActivityType_eq_dec : EqDecision ActivityType.t.
Proof. solve_decision. Defined.

(** A reference to a player object: the key of the object in [players]. *)
Abbreviation PlayerRef := string.

(** A template literal before it is rendered: its string pieces and the
    numbers interpolated into it. *)
Inductive MsgPart :=
| Lit (s : string)
| Num (q : Q).

Module Player.
Record t := mk {
  id : string;
  name : string;
  role : PlayerRole;
  basePrice : Q;
  status : PlayerStatus;
  soldPrice : option Q;
  teamId : option string;
  nationality : string;
  age : Z;
  avatar : string
}.
End Player.

Module Team.
Record t := mk {
  id : string;
  name : string;
  shortName : string;
  logo : string;
  totalPurse : Q;
  remainingPurse : Q;
  maxPlayers : Z;
  players : list PlayerRef
}.
End Team.

Module Bid.
Record t := mk {
  id : string;
  auctionId : string;
  playerId : string;
  teamId : string;
  teamName : string;
  amount : Q;
  timestamp : Z
}.
End Bid.

Module Auction.
Record t := mk {
  id : string;
  playerId : string;
  player : PlayerRef;
  currentBid : Q;
  currentBidder : option string;
  bids : list Bid.t;
  status : AuctionStatus;
  startTime : Z;
  endTime : option Z;
  timerDuration : Q
}.
End Auction.

Module Activity.
Record t := mk {
  id : string;
  type : ActivityType.t;
  message : list MsgPart;
  timestamp : Z;
  teamId : option string;
  playerId : option string;
  amount : option Q
}.
End Activity.

(** ** The store ([globalForDb] and the module-level [bidLocks]) *)

Record Db := mkDb {
  teams : gmap string Team.t;
  players : gmap string Player.t;
  auctions : gmap string Auction.t;
  activities : list Activity.t;
  isDbInitialized : bool;
  bidLocks : gmap string bool
}.

Definition with_teams (f : gmap string Team.t → gmap string Team.t) (db : Db) : Db :=
  mkDb (f (teams db)) (players db) (auctions db) (activities db)
       (isDbInitialized db) (bidLocks db).

Definition with_players (f : gmap string Player.t → gmap string Player.t) (db : Db) : Db :=
  mkDb (teams db) (f (players db)) (auctions db) (activities db)
       (isDbInitialized db) (bidLocks db).

Definition with_auctions (f : gmap string Auction.t → gmap string Auction.t) (db : Db) : Db :=
  mkDb (teams db) (players db) (f (auctions db)) (activities db)
       (isDbInitialized db) (bidLocks db).

Definition with_activities (f : list Activity.t → list Activity.t) (db : Db) : Db :=
  mkDb (teams db) (players db) (auctions db) (f (activities db))
       (isDbInitialized db) (bidLocks db).

Definition with_bidLocks (f : gmap string bool → gmap string bool) (db : Db) : Db :=
  mkDb (teams db) (players db) (auctions db) (activities db)
       (isDbInitialized db) (f (bidLocks db)).

(** The four readings of [Date.now()] an operation may take, in program
    order. *)
Record Clock := mkClock { now0 : Z; now1 : Z; now2 : Z; now3 : Z }.

(** ** JavaScript helpers *)

(** [x <= y] and [x > y] on numbers. *)
Definition num_le (x y : Q) : bool := Qle_bool x y.
Definition num_gt (x y : Q) : bool := negb (Qle_bool x y).

(** A string-valued optional field used as a condition: [undefined] and the
    empty string are falsy. *)
Definition truthy (o : option string) : option string :=
  match o with
  | Some s => if decide (s = "") then None else Some s
  | None => None
  end.

(** [Math.round]: the nearest integer, ties towards plus infinity. *)
Definition math_round (x : Q) : Z := Qfloor (x + (1 # 2)).

(** [s.padStart(n, pad)]: [pad] repeated and cut to the missing length, in
    front of [s]. *)
Definition padStart (n : nat) (pad : string) (s : string) : string :=
  let missing := (n - String.length s)%nat in
  String.substring 0 missing (String.concat "" (replicate missing pad)) +:+ s.

Definition is_space (c : Ascii.ascii) : bool :=
  bool_decide (Ascii.nat_of_ascii c ∈ [32; 9; 10; 11; 12; 13]%nat).

(** [s.replace(/\s/g, '')] on ASCII text. *)
Fixpoint strip_spaces (s : string) : string :=
  match s with
  | EmptyString => EmptyString
  | String c s' => if is_space c then strip_spaces s' else String c (strip_spaces s')
  end.

(** [l[i % l.length]] *)
Definition cyclic {A} (d : A) (l : list A) (i : nat) : A :=
  nth (i mod length l) l d.

(** ** Seed data *)

(** [seedTeams]; the roster, absent from the seed records, is the empty one
    [initializeDatabase] gives every team. *)
Definition seedTeams : list Team.t :=
  [ Team.mk "MI" "Mumbai Indians" "MI"
      "https://api.dicebear.com/7.x/identicon/svg?seed=MI"
      100 100 25 [];
    Team.mk "CSK" "Chennai Super Kings" "CSK"
      "https://api.dicebear.com/7.x/identicon/svg?seed=CSK"
      100 100 25 [];
    Team.mk "RCB" "Royal Challengers Bangalore" "RCB"
      "https://api.dicebear.com/7.x/identicon/svg?seed=RCB"
      100 100 25 [];
    Team.mk "KKR" "Kolkata Knight Riders" "KKR"
      "https://api.dicebear.com/7.x/identicon/svg?seed=KKR"
      100 100 25 [];
    Team.mk "DC" "Delhi Capitals" "DC"
      "https://api.dicebear.com/7.x/identicon/svg?seed=DC"
      100 100 25 [];
    Team.mk "SRH" "Sunrisers Hyderabad" "SRH"
      "https://api.dicebear.com/7.x/identicon/svg?seed=SRH"
      100 100 25 [];
    Team.mk "PBKS" "Punjab Kings" "PBKS"
      "https://api.dicebear.com/7.x/identicon/svg?seed=PBKS"
      100 100 25 [];
    Team.mk "RR" "Rajasthan Royals" "RR"
      "https://api.dicebear.com/7.x/identicon/svg?seed=RR"
      100 100 25 [];
    Team.mk "GT" "Gujarat Titans" "GT"
      "https://api.dicebear.com/7.x/identicon/svg?seed=GT"
      100 100 25 [];
    Team.mk "LSG" "Lucknow Super Giants" "LSG"
      "https://api.dicebear.com/7.x/identicon/svg?seed=LSG"
      100 100 25 [] ].

Definition playerNames : list string :=
  [ "Virat Kohli"; "Rohit Sharma"; "MS Dhoni"; "Jasprit Bumrah"; "Ravindra Jadeja";
    "KL Rahul"; "Hardik Pandya"; "Rishabh Pant"; "Shikhar Dhawan"; "Mohammed Shami";
    "Yuzvendra Chahal"; "Shreyas Iyer"; "Suryakumar Yadav"; "Ishan Kishan"; "Washington Sundar";
    "Axar Patel"; "Deepak Chahar"; "Shardul Thakur"; "Prithvi Shaw"; "Shubman Gill";
    "Ruturaj Gaikwad"; "Devdutt Padikkal"; "Mayank Agarwal"; "Sanju Samson"; "Jos Buttler";
    "David Warner"; "Glenn Maxwell"; "Rashid Khan"; "Kagiso Rabada"; "Trent Boult";
    "Mitchell Starc"; "Pat Cummins"; "Kane Williamson"; "Ben Stokes"; "Chris Gayle";
    "AB de Villiers"; "Quinton de Kock"; "Faf du Plessis"; "Andre Russell"; "Sunil Narine";
    "Moeen Ali"; "Sam Curran"; "Liam Livingstone"; "Jonny Bairstow"; "Jason Roy";
    "Marcus Stoinis"; "Glenn Phillips"; "Tim David"; "Wanindu Hasaranga"; "Maheesh Theekshana";
    "Ajinkya Rahane"; "Cheteshwar Pujara"; "Dinesh Karthik"; "Robin Uthappa"; "Ambati Rayudu";
    "Manish Pandey"; "Kedar Jadhav"; "Krunal Pandya"; "Ravichandran Ashwin"; "Kuldeep Yadav";
    "Mohammed Siraj"; "Umesh Yadav"; "Navdeep Saini"; "Khaleel Ahmed"; "T Natarajan";
    "Arshdeep Singh"; "Harshal Patel"; "Avesh Khan"; "Prasidh Krishna"; "Mukesh Choudhary";
    "Tushar Deshpande"; "Mohsin Khan"; "Umran Malik"; "Yash Dayal"; "Kartik Tyagi";
    "Rahul Tewatia"; "Rahul Tripathi"; "Nitish Rana"; "Venkatesh Iyer"; "Tilak Varma";
    "Abhishek Sharma"; "Yashasvi Jaiswal"; "Sarfaraz Khan"; "Rinku Singh"; "Ramandeep Singh";
    "Shahrukh Khan"; "Ravi Bishnoi"; "Arshad Khan"; "Harpreet Brar"; "Lalit Yadav";
    "Riyan Parag"; "Dhruv Jurel"; "Jitesh Sharma"; "Suyash Prabhudessai"; "Atharva Taide";
    "Nehal Wadhera"; "Vivrant Sharma"; "Kumar Kushagra"; "Shashank Singh"; "Anmolpreet Singh" ].

Definition roles : list PlayerRole := [Batsman; Bowler; AllRounder; WicketKeeper].

Definition nationalities : list string :=
  ["India"; "Australia"; "England"; "South Africa"; "New Zealand"; "West Indies";
   "Sri Lanka"].

(** [generatePlayers]. [random k] is the value of the [k]-th call of
    [Math.random()]; player [index] draws its base price with call
    [2 * index] and its age with call [2 * index + 1]. *)
Definition generatePlayer (random : nat → Q) (index : nat) (name : string) : Player.t :=
  Player.mk
    ("P" +:+ padStart 3 "0" (pretty (index + 1)%nat))
    name
    (cyclic Batsman roles index)
    (Qmax (1 # 2)
          (inject_Z (math_round ((random (2 * index)%nat * 15 + (1 # 2)) * 10)) / 10))
    Unsold
    None
    None
    (cyclic "" nationalities index)
    (Qfloor (random (2 * index + 1)%nat * 15) + 20)%Z
    ("https://api.dicebear.com/7.x/avataaars/svg?seed=" +:+ strip_spaces name).

Definition generatePlayers (random : nat → Q) : list Player.t :=
  imap (generatePlayer random) playerNames.

(** ** Entity store *)

(** The store before the module is first loaded: [globalForDb] holds
    nothing, so every collection is a fresh empty one. *)
Definition emptyDb : Db := mkDb ∅ ∅ ∅ [] false ∅.

Definition initializeDatabase (random : nat → Q) (db : Db) : Db :=
  if isDbInitialized db then db
  else
    mkDb (foldl (λ m team, <[Team.id team := team]> m) ∅ seedTeams)
         (foldl (λ m player, <[Player.id player := player]> m) ∅ (generatePlayers random))
         ∅
         []
         true
         (bidLocks db).

Definition getTeamById (id : string) (db : Db) : option Team.t := teams db !! id.

Definition setRemainingPurse (newPurse : Q) (team : Team.t) : Team.t :=
  Team.mk (Team.id team) (Team.name team) (Team.shortName team) (Team.logo team)
          (Team.totalPurse team) newPurse (Team.maxPlayers team) (Team.players team).

Definition pushPlayer (player : PlayerRef) (team : Team.t) : Team.t :=
  Team.mk (Team.id team) (Team.name team) (Team.shortName team) (Team.logo team)
          (Team.totalPurse team) (Team.remainingPurse team) (Team.maxPlayers team)
          (Team.players team ++ [player]).

Definition updateTeamPurse (teamId : string) (newPurse : Q) (db : Db) : Db :=
  match teams db !! teamId with
  | Some team => with_teams <[teamId := setRemainingPurse newPurse team]> db
  | None => db
  end.

Definition addPlayerToTeam (teamId : string) (player : PlayerRef) (db : Db) : Db :=
  match teams db !! teamId with
  | Some team => with_teams <[teamId := pushPlayer player team]> db
  | None => db
  end.

Definition getPlayerById (id : string) (db : Db) : option Player.t := players db !! id.

Definition setStatus (status : PlayerStatus) (teamId : option string)
    (soldPrice : option Q) (player : Player.t) : Player.t :=
  Player.mk (Player.id player) (Player.name player) (Player.role player)
            (Player.basePrice player) status soldPrice teamId
            (Player.nationality player) (Player.age player) (Player.avatar player).

Definition updatePlayerStatus (playerId : string) (status : PlayerStatus)
    (teamId : option string) (soldPrice : option Q) (db : Db) : Db :=
  match players db !! playerId with
  | Some player => with_players <[playerId := setStatus status teamId soldPrice player]> db
  | None => db
  end.

(** [activities.unshift(activity)], then [pop] once the log holds more than
    100 entries. *)
Definition addActivity (activity : Activity.t) (db : Db) : Db :=
  with_activities
    (λ acts, let acts' := activity :: acts in
             if (100 <? length acts')%nat then removelast acts' else acts')
    db.

Arguments addActivity : simpl never.

Definition getAuctionById (id : string) (db : Db) : option Auction.t := auctions db !! id.

(** Reading [player.name] through a reference.  Every reference the
    operations create points into [players], which never loses a key; the
    empty string stands for a read through a reference that points nowhere. *)
Definition nameOf (db : Db) (player : PlayerRef) : string :=
  from_option Player.name "" (players db !! player).

(** ** Auction lifecycle: creation *)

(** [createAuction(playerId, timerDuration = 60)].  Clock readings: the
    auction id, [startTime], the activity id, the activity timestamp. *)
Definition createAuction (clock : Clock) (playerId : string) (timerDuration : option Q)
    (db : Db) : Db * option Auction.t :=
  match players db !! playerId with
  | None => (db, None)
  | Some player =>
      if decide (Player.status player ≠ Unsold) then (db, None)
      else
        let auctionId := "AUC-" +:+ pretty (now0 clock) in
        let auction :=
          Auction.mk auctionId playerId playerId (Player.basePrice player) None []
                     live (now1 clock) None (default 60 timerDuration) in
        let db1 := with_auctions <[auctionId := auction]> db in
        let db2 := updatePlayerStatus playerId Live None None db1 in
        let db3 :=
          addActivity
            (Activity.mk ("ACT-" +:+ pretty (now2 clock)) ActivityType.auction_start
                         [Lit "Auction started for "; Lit (nameOf db2 playerId)]
                         (now3 clock) None (Some playerId) None)
            db2 in
        (db3, Some auction)
  end.

(** ** Bidding engine *)

(** The object [placeBid] resolves to. *)
Record BidResult := mkBidResult {
  success : bool;
  error : option string;
  auction : option Auction.t
}.

Definition rejected (msg : string) : BidResult := mkBidResult false (Some msg) None.

Definition recordBid (b : Bid.t) (a : Auction.t) : Auction.t :=
  Auction.mk (Auction.id a) (Auction.playerId a) (Auction.player a)
             (Bid.amount b) (Some (Bid.teamId b)) (Auction.bids a ++ [b])
             (Auction.status a) (Auction.startTime a) (Auction.endTime a)
             (Auction.timerDuration a).

(** The body of the [try] block of [placeBid].  Clock readings: the bid id,
    the bid timestamp, the activity id, the activity timestamp. *)
Definition placeBid_try (clock : Clock) (auctionId teamId : string) (amount : Q)
    (db : Db) : Db * BidResult :=
  match auctions db !! auctionId with
  | None => (db, rejected "Auction not found")
  | Some auction =>
      if decide (Auction.status auction ≠ live) then (db, rejected "Auction is not active")
      else
        match teams db !! teamId with
        | None => (db, rejected "Team not found")
        | Some team =>
            if num_le amount (Auction.currentBid auction)
            then (db, rejected "Bid must be higher than current bid")
            else if num_gt amount (Team.remainingPurse team)
            then (db, rejected "Insufficient purse remaining")
            else
              let bid :=
                Bid.mk ("BID-" +:+ pretty (now0 clock)) auctionId
                       (Auction.playerId auction) teamId (Team.name team) amount
                       (now1 clock) in
              let auction' := recordBid bid auction in
              let db1 := with_auctions <[auctionId := auction']> db in
              let db2 :=
                addActivity
                  (Activity.mk ("ACT-" +:+ pretty (now2 clock)) ActivityType.bid
                               [Lit (Team.shortName team); Lit " bid ₹"; Num amount;
                                Lit "Cr for "; Lit (nameOf db1 (Auction.player auction'))]
                               (now3 clock) (Some teamId)
                               (Some (Auction.playerId auction')) (Some amount))
                  db1 in
              (db2, mkBidResult true None (Some auction'))
        end
  end.

(** [placeBid]: the per-auction lock is tested, taken, and released by the
    [finally] clause on every path through the [try] block. *)
Definition placeBid (clock : Clock) (auctionId teamId : string) (amount : Q)
    (db : Db) : Db * BidResult :=
  if default false (bidLocks db !! auctionId)
  then (db, rejected "Another bid is being processed. Please try again.")
  else
    let db1 := with_bidLocks <[auctionId := true]> db in
    let '(db2, result) := placeBid_try clock auctionId teamId amount db1 in
    (with_bidLocks (delete auctionId) db2, result).

(** ** Auction lifecycle: settlement *)

Definition complete (endTime : Z) (a : Auction.t) : Auction.t :=
  Auction.mk (Auction.id a) (Auction.playerId a) (Auction.player a)
             (Auction.currentBid a) (Auction.currentBidder a) (Auction.bids a)
             completed (Auction.startTime a) (Some endTime)
             (Auction.timerDuration a).

(** [completeAuction(auctionId)].  Clock readings: [endTime], the activity
    id, the activity timestamp. *)
Definition completeAuction (clock : Clock) (auctionId : string) (db : Db)
    : Db * option Auction.t :=
  match auctions db !! auctionId with
  | None => (db, None)
  | Some auction0 =>
      if decide (Auction.status auction0 ≠ live) then (db, None)
      else
        let auction := complete (now0 clock) auction0 in
        let db1 := with_auctions <[auctionId := auction]> db in
        match truthy (Auction.currentBidder auction) with
        | Some currentBidder =>
            let db2 :=
              updatePlayerStatus (Auction.playerId auction) Sold (Some currentBidder)
                                 (Some (Auction.currentBid auction)) db1 in
            match teams db2 !! currentBidder with
            | Some team =>
                let db3 :=
                  updateTeamPurse currentBidder
                    (Team.remainingPurse team - Auction.currentBid auction) db2 in
                let db4 := addPlayerToTeam currentBidder (Auction.player auction) db3 in
                let db5 :=
                  addActivity
                    (Activity.mk ("ACT-" +:+ pretty (now1 clock)) ActivityType.win
                                 [Lit (Team.shortName team); Lit " won ";
                                  Lit (nameOf db4 (Auction.player auction)); Lit " for ₹";
                                  Num (Auction.currentBid auction); Lit "Cr"]
                                 (now2 clock) (Some currentBidder)
                                 (Some (Auction.playerId auction))
                                 (Some (Auction.currentBid auction)))
                    db4 in
                (db5, Some auction)
            | None => (db2, Some auction)
            end
        | None =>
            let db2 := updatePlayerStatus (Auction.playerId auction) Unsold None None db1 in
            let db3 :=
              addActivity
                (Activity.mk ("ACT-" +:+ pretty (now1 clock)) ActivityType.auction_end
                             [Lit (nameOf db2 (Auction.player auction)); Lit " went unsold"]
                             (now2 clock) None (Some (Auction.playerId auction)) None)
                db2 in
            (db3, Some auction)
        end
  end.

(** ** Runs of the engine *)

(** The mutation surface: one call of [createAuction], [placeBid] or
    [completeAuction] (settlement). *)
Inductive Call :=
| CreateAuction (playerId : string) (timerDuration : option Q)
| PlaceBid (auctionId teamId : string) (amount : Q)
| SettleAuction (auctionId : string).

Definition step (db : Db) (ev : Clock * Call) : Db :=
  match ev with
  | (clock, CreateAuction playerId timerDuration) =>
      (createAuction clock playerId timerDuration db).1
  | (clock, PlaceBid auctionId teamId amount) =>
      (placeBid clock auctionId teamId amount db).1
  | (clock, SettleAuction auctionId) =>
      (completeAuction clock auctionId db).1
  end.

Definition run (trace : list (Clock * Call)) (db : Db) : Db := foldl step db trace.

(** The store after module load: [initializeDatabase] on the fresh store,
    for some outcome of the random draws. *)
Definition seeded (random : nat → Q) : Db := initializeDatabase random emptyDb.

Definition reachable (db : Db) : Prop :=
  ∃ random trace, db = run trace (seeded random).

(** The clock never runs backwards along a trace that starts at time [t]. *)
Fixpoint chronological (t : Z) (trace : list (Clock * Call)) : Prop :=
  match trace with
  | [] => True
  | (clock, _) :: trace' =>
      (t ≤ now0 clock ∧ now0 clock ≤ now1 clock ∧ now1 clock ≤ now2 clock
       ∧ now2 clock ≤ now3 clock)%Z
      ∧ chronological (now3 clock) trace'
  end.

(** ** The specification's view of bid validation *)

(** The bid errors the specification names. *)
Inductive BidError :=
| AuctionNotFound
| AuctionNotActive
| TeamNotFound
| BidTooLow
| InsufficientFunds.

(** The message the code reports for each of them. *)
Definition errorMessage (e : BidError) : string :=
  match e with
  | AuctionNotFound => "Auction not found"
  | AuctionNotActive => "Auction is not active"
  | TeamNotFound => "Team not found"
  | BidTooLow => "Bid must be higher than current bid"
  | InsufficientFunds => "Insufficient purse remaining"
  end.

(** The preconditions of [placeBid] as the specification lists them, checked
    in its order; the result is the first one that fails. *)
Definition firstFailure (db : Db) (auctionId teamId : string) (amount : Q)
    : option BidError :=
  match auctions db !! auctionId with
  | None => Some AuctionNotFound
  | Some a =>
      if decide (Auction.status a = live) then
        match teams db !! teamId with
        | None => Some TeamNotFound
        | Some team =>
            if Qlt_le_dec (Auction.currentBid a) amount then
              if Qlt_le_dec (Team.remainingPurse team) amount
              then Some InsufficientFunds
              else None
            else Some BidTooLow
        end
      else Some AuctionNotActive
  end.

(** The entities of the store: everything but the locks. *)
Definition same_entities (db db' : Db) : Prop :=
  teams db' = teams db ∧ players db' = players db ∧ auctions db' = auctions db
  ∧ activities db' = activities db.

(** ** Purse accounting and consistency of a store *)

(** [player.soldPrice] read through a roster entry, [players] being the
    player collection. *)
Definition soldPriceOf (players : gmap string Player.t) (player : PlayerRef) : option Q :=
  players !! player ≫= Player.soldPrice.

(** The sum of [soldPrice] over a roster; there is none when an entry has no
    sold price. *)
Fixpoint rosterSpend (players : gmap string Player.t) (roster : list PlayerRef)
    : option Q :=
  match roster with
  | [] => Some 0
  | player :: rest =>
      match soldPriceOf players player, rosterSpend players rest with
      | Some price, Some total => Some (price + total)
      | _, _ => None
      end
  end.

(** What one call can do to the teams, players and auctions of the store.
    [Transition clock db db'] lists the shapes of [db'] against [db]. *)
Inductive Transition (clock : Clock) (db db' : Db) : Prop :=
| T_same :
    teams db' = teams db → players db' = players db → auctions db' = auctions db →
    Transition clock db db'
| T_created playerId timerDuration P :
    players db !! playerId = Some P →
    Player.status P = Unsold →
    teams db' = teams db →
    players db' = <[playerId := setStatus Live None None P]> (players db) →
    auctions db'
    = <["AUC-" +:+ pretty (now0 clock) :=
          Auction.mk ("AUC-" +:+ pretty (now0 clock)) playerId playerId
                     (Player.basePrice P) None [] live (now1 clock) None
                     (default 60 timerDuration)]> (auctions db) →
    Transition clock db db'
| T_bid auctionId teamId amount a team :
    auctions db !! auctionId = Some a →
    Auction.status a = live →
    teams db !! teamId = Some team →
    Auction.currentBid a < amount →
    amount <= Team.remainingPurse team →
    teams db' = teams db →
    players db' = players db →
    auctions db'
    = <[auctionId :=
          recordBid (Bid.mk ("BID-" +:+ pretty (now0 clock)) auctionId
                            (Auction.playerId a) teamId (Team.name team) amount
                            (now1 clock)) a]> (auctions db) →
    Transition clock db db'
| T_settled auctionId a status teamId soldPrice :
    auctions db !! auctionId = Some a →
    Auction.status a = live →
    teams db' = teams db →
    players db'
    = match players db !! Auction.playerId a with
      | Some p => <[Auction.playerId a := setStatus status teamId soldPrice p]> (players db)
      | None => players db
      end →
    auctions db' = <[auctionId := complete (now0 clock) a]> (auctions db) →
    Transition clock db db'
| T_sold auctionId a bidder team :
    auctions db !! auctionId = Some a →
    Auction.status a = live →
    truthy (Auction.currentBidder a) = Some bidder →
    teams db !! bidder = Some team →
    teams db'
    = <[bidder :=
          pushPlayer (Auction.player a)
            (setRemainingPurse (Team.remainingPurse team - Auction.currentBid a) team)]>
        (teams db) →
    players db'
    = match players db !! Auction.playerId a with
      | Some p =>
          <[Auction.playerId a :=
              setStatus Sold (Some bidder) (Some (Auction.currentBid a)) p]> (players db)
      | None => players db
      end →
    auctions db' = <[auctionId := complete (now0 clock) a]> (auctions db) →
    Transition clock db db'.

(** The facts about a store that every call preserves. *)
Record Consistent (db : Db) : Prop := mkConsistent {
  (** an auction embeds the player object stored under its [playerId], and
      the player of a live auction is [Live] *)
  auction_player : ∀ auctionId a,
    auctions db !! auctionId = Some a →
    Auction.player a = Auction.playerId a
    ∧ ∃ p, players db !! Auction.playerId a = Some p
           ∧ (Auction.status a = live → Player.status p = Live);
  (** no two live auctions are for the same player *)
  live_unique : ∀ id1 id2 a1 a2,
    auctions db !! id1 = Some a1 → auctions db !! id2 = Some a2 →
    Auction.status a1 = live → Auction.status a2 = live →
    Auction.playerId a1 = Auction.playerId a2 → id1 = id2;
  (** every roster entry is a sold player *)
  roster_sold : ∀ teamId team player,
    teams db !! teamId = Some team → player ∈ Team.players team →
    ∃ p price, players db !! player = Some p ∧ Player.status p = Sold
               ∧ Player.soldPrice p = Some price;
  (** the purse of a team is what its roster has not cost *)
  purse_conserved : ∀ teamId team,
    teams db !! teamId = Some team →
    ∃ spent, rosterSpend (players db) (Team.players team) = Some spent
             ∧ Team.remainingPurse team == Team.totalPurse team - spent;
  (** the leader and the current bid are those of the last bid *)
  leader_last : ∀ auctionId a,
    auctions db !! auctionId = Some a →
    Auction.currentBidder a = Bid.teamId <$> last (Auction.bids a)
    ∧ ∃ p, players db !! Auction.player a = Some p
           ∧ Auction.currentBid a
             = from_option Bid.amount (Player.basePrice p) (last (Auction.bids a));
  (** bids rise, and none is above the current bid *)
  bids_rising : ∀ auctionId a,
    auctions db !! auctionId = Some a →
    (∀ b, b ∈ Auction.bids a → Bid.amount b <= Auction.currentBid a)
    ∧ ∀ i j bi bj, (i < j)%nat →
        Auction.bids a !! i = Some bi → Auction.bids a !! j = Some bj →
        Bid.amount bi < Bid.amount bj
}.

(** Bids in time: every bid of the store was placed by time [t], and within
    an auction the bids are in the order of their timestamps. *)
Definition bids_by (t : Z) (db : Db) : Prop :=
  ∀ auctionId a,
    auctions db !! auctionId = Some a →
    (∀ b, b ∈ Auction.bids a → (Bid.timestamp b ≤ t)%Z)
    ∧ ∀ i j bi bj, (i < j)%nat →
        Auction.bids a !! i = Some bi → Auction.bids a !! j = Some bj →
        (Bid.timestamp bi ≤ Bid.timestamp bj)%Z.

(** ** Sample inputs *)

(** Every random draw is 0: every base price is 0.5, every age 20. *)
Definition lowDraws : nat → Q := λ _, 0.

(** A clock that reads [t] throughout a call. *)
Definition at_time (t : Z) : Clock := mkClock t t t t.

(** Two auctions are opened, the team MI bids 60 in each (both bids are
    within its purse of 100 when placed), and both are settled. *)
Definition doubleLeader : list (Clock * Call) :=
  [ (at_time 1000, CreateAuction "P001" None);
    (at_time 2000, CreateAuction "P002" None);
    (at_time 3000, PlaceBid "AUC-1000" "MI" 60);
    (at_time 3001, PlaceBid "AUC-2000" "MI" 60);
    (at_time 4000, SettleAuction "AUC-1000");
    (at_time 4001, SettleAuction "AUC-2000") ].

(** One auction is opened and MI bids 10, then CSK bids 12 in the same
    millisecond. *)
Definition twoBids : list (Clock * Call) :=
  [ (at_time 1000, CreateAuction "P001" None);
    (at_time 2000, PlaceBid "AUC-1000" "MI" 10);
    (at_time 2000, PlaceBid "AUC-1000" "CSK" 12) ].

(** One auction is opened for P001 and MI bids 10: the store in which the
    sample bids and settlements below are made. *)
Definition biddingDb : Db :=
  run [ (at_time 1000, CreateAuction "P001" None);
        (at_time 2000, PlaceBid "AUC-1000" "MI" 10) ]
      (seeded lowDraws).

Definition bidMI : Bid.t :=
  Bid.mk "BID-2000" "AUC-1000" "P001" "MI" "Mumbai Indians" 10 2000.

Definition bidCSK : Bid.t :=
  Bid.mk "BID-2000" "AUC-1000" "P001" "CSK" "Chennai Super Kings" 12 2000.

(** The auction of [biddingDb], and the same auction after [twoBids]. *)
Definition auctionMI : Auction.t :=
  Auction.mk "AUC-1000" "P001" "P001" 10 (Some "MI") [bidMI] live 1000 None 60.

Definition auctionCSK : Auction.t :=
  Auction.mk "AUC-1000" "P001" "P001" 12 (Some "CSK") [bidMI; bidCSK] live 1000 None 60.

(** The team MI as seeded, and after [doubleLeader]. *)
Definition teamMI : Team.t :=
  Team.mk "MI" "Mumbai Indians" "MI"
    "https://api.dicebear.com/7.x/identicon/svg?seed=MI" 100 100 25 [].

Definition teamMI_overdrawn : Team.t :=
  Team.mk "MI" "Mumbai Indians" "MI"
    "https://api.dicebear.com/7.x/identicon/svg?seed=MI" 100 (-20) 25 ["P001"; "P002"].

(** The player P001 under [lowDraws]. *)
Definition playerP001 (status : PlayerStatus) : Player.t :=
  Player.mk "P001" "Virat Kohli" Batsman (1 # 2) status None None "India" 20
    "https://api.dicebear.com/7.x/avataaars/svg?seed=ViratKohli".

(** ** Queries of the store *)

(** [Array.from(map.values())].  The values come in the order of the model's
    map, which is not the insertion order of a JavaScript [Map]; only facts
    that do not depend on the order are stated about these lists. *)
Definition values {A} (m : gmap string A) : list A := (map_to_list m).*2.

Definition getAllTeams (db : Db) : list Team.t := values (teams db).

Definition getAllPlayers (db : Db) : list Player.t := values (players db).

Definition getPlayersByStatus (status : PlayerStatus) (db : Db) : list Player.t :=
  filter (λ p, Player.status p = status) (values (players db)).

Definition getAllAuctions (db : Db) : list Auction.t := values (auctions db).

Definition getLiveAuctions (db : Db) : list Auction.t :=
  filter (λ a, Auction.status a = live) (values (auctions db)).

(** [array.slice(0, end)] for an integer [end]: a negative [end] counts from
    the end of the array. *)
Definition slice_to {A} (end_ : Z) (l : list A) : list A :=
  let len := Z.of_nat (length l) in
  let final := if (end_ <? 0)%Z then Z.max (len + end_) 0 else Z.min end_ len in
  take (Z.to_nat final) l.

(** [getRecentActivities(limit = 20)] *)
Definition getRecentActivities (limit : option Z) (db : Db) : list Activity.t :=
  slice_to (default 20%Z limit) (activities db).

Record DashboardMetrics := mkDashboardMetrics {
  totalTeams : nat;
  totalPlayers : nat;
  liveAuctionsCount : nat;
  highestBidToday : Q;
  soldPlayersCount : nat;
  unsoldPlayersCount : nat
}.

(** The loop of [getDashboardMetrics] over the auctions. *)
Definition highestBid (l : list Auction.t) : Q :=
  foldl (λ highest a,
           if num_gt (Auction.currentBid a) highest then Auction.currentBid a else highest)
        0 l.

Definition getDashboardMetrics (db : Db) : DashboardMetrics :=
  let allPlayers := getAllPlayers db in
  let liveAuctions := getLiveAuctions db in
  mkDashboardMetrics
    (size (teams db))
    (length allPlayers)
    (length liveAuctions)
    (highestBid (values (auctions db)))
    (length (filter (λ p, Player.status p = Sold) allPlayers))
    (length (filter (λ p, Player.status p = Unsold) allPlayers)).

(** ** Server actions ([src/app/auction/[auctionId]/actions.ts]) *)

(** [a || b] on optional strings: [undefined] and the empty string give [b]. *)
Definition or_else (a : option string) (b : string) : string :=
  match truthy a with
  | Some s => s
  | None => b
  end.

Module ActionResponse.
Record t := mk {
  success : bool;
  message : option string;
  data : option Auction.t;
  error : option string
}.
End ActionResponse.

(** [placeBidAction].  The store is threaded together with the list of paths
    handed to [revalidatePath], oldest first.  [zodMessage amount] is the
    message of the error [placeBidSchema.parse] throws for an [amount] that
    is not positive; the ids are strings already, which is all the schema
    asks of them. *)
Definition placeBidAction (zodMessage : Q → string) (clock : Clock)
    (auctionId teamId : string) (amount : Q) (db : Db)
    : Db * list string * ActionResponse.t :=
  if num_gt amount 0 then
    let '(db', result) := placeBid clock auctionId teamId amount db in
    if negb (success result) then
      (db', [],
       ActionResponse.mk false None None
         (Some (or_else (error result) "Failed to place bid")))
    else
      (db', ["/dashboard"; "/auction/" +:+ auctionId; "/teams"],
       ActionResponse.mk true (Some "Bid placed successfully") (auction result) None)
  else
    (db, [], ActionResponse.mk false None None (Some (zodMessage amount))).

(** [completeAuctionAction] *)
Definition completeAuctionAction (clock : Clock) (auctionId : string) (db : Db)
    : Db * list string * ActionResponse.t :=
  match completeAuction clock auctionId db with
  | (db', None) =>
      (db', [],
       ActionResponse.mk false None None (Some "Auction not found or already completed"))
  | (db', Some a) =>
      (db', ["/dashboard"; "/auction/" +:+ auctionId; "/teams"; "/players"],
       ActionResponse.mk true
         (Some (if truthy (Auction.currentBidder a) is Some _
                then "Player sold successfully" else "Player marked as unsold"))
         (Some a) None)
  end.

(** [getAuctionAction] *)
Definition getAuctionAction (auctionId : string) (db : Db) : ActionResponse.t :=
  match getAuctionById auctionId db with
  | None => ActionResponse.mk false None None (Some "Auction not found")
  | Some a => ActionResponse.mk true None (Some a) None
  end.

(** ** The creation route ([src/app/api/auction/create/route.ts]) *)

Module CreateResponse.
Record t := mk {
  status : Z;
  success : bool;
  error : option string;
  auctionId : option string;
  message : option string
}.
End CreateResponse.

(** [POST]: [body] is [None] when [request.json()] or the reading of the
    field [playerId] from its result throws, and otherwise holds that field,
    taken to be a string when present. *)
Definition POST (clock : Clock) (body : option (option string)) (db : Db)
    : Db * CreateResponse.t :=
  match body with
  | None => (db, CreateResponse.mk 500 false (Some "Internal server error") None None)
  | Some field =>
      match truthy field with
      | None =>
          (db, CreateResponse.mk 400 false (Some "Player ID is required") None None)
      | Some playerId =>
          match createAuction clock playerId (Some 60) db with
          | (db', None) =>
              (db', CreateResponse.mk 400 false
                      (Some "Failed to create auction. Player may already be in auction.")
                      None None)
          | (db', Some a) =>
              (db', CreateResponse.mk 200 true None (Some (Auction.id a))
                      (Some "Auction created successfully"))
          end
      end
  end.

(** ** Utilities ([src/lib/utils.ts]) *)

(** [formatRelativeTime(timestamp)], [now] being the reading of
    [Date.now()]. *)
Definition formatRelativeTime (now timestamp : Z) : string :=
  let seconds := ((now - timestamp) / 1000)%Z in
  if (seconds <? 60)%Z then "just now"
  else if (seconds <? 3600)%Z then pretty (seconds / 60)%Z +:+ "m ago"
  else if (seconds <? 86400)%Z then pretty (seconds / 3600)%Z +:+ "h ago"
  else pretty (seconds / 86400)%Z +:+ "d ago".

(** The delay [randomDelay(min = 100, max = 500)] waits for, in
    milliseconds; [random] is the value of [Math.random()]. *)
Definition randomDelay (random : Q) (min max : option Z) : Z :=
  let min := default 100%Z min in
  let max := default 500%Z max in
  (Qfloor (random * inject_Z (max - min + 1)) + min)%Z.

(** ** Further facts every call preserves *)

(** Prices are at least the smallest base price the seed can give, 0.5. *)
Record Priced (db : Db) : Prop := mkPriced {
  base_price_floor : ∀ playerId p,
    players db !! playerId = Some p → (1 # 2) <= Player.basePrice p;
  sold_price_floor : ∀ playerId p price,
    players db !! playerId = Some p → Player.soldPrice p = Some price → (1 # 2) <= price;
  current_bid_floor : ∀ auctionId a,
    auctions db !! auctionId = Some a → (1 # 2) <= Auction.currentBid a
}.

(** Leaders are teams: no team is stored under the empty id, and the current
    bidder of every auction is the id of a team. *)
Definition Led (db : Db) : Prop :=
  teams db !! "" = None
  ∧ ∀ auctionId a teamId,
      auctions db !! auctionId = Some a → Auction.currentBidder a = Some teamId →
      is_Some (teams db !! teamId).

(** ** More sample inputs *)

(** The store with one open auction for P001 and no bid, and that auction. *)
Definition openDb : Db :=
  run [ (at_time 1000, CreateAuction "P001" None) ] (seeded lowDraws).

Definition auctionOpen : Auction.t :=
  Auction.mk "AUC-1000" "P001" "P001" (1 # 2) None [] live 1000 None 60.

(** The store after [doubleLeader], its first auction and its player. *)
Definition soldDb : Db := run doubleLeader (seeded lowDraws).

Definition auctionSold : Auction.t :=
  Auction.mk "AUC-1000" "P001" "P001" 60 (Some "MI")
    [Bid.mk "BID-3000" "AUC-1000" "P001" "MI" "Mumbai Indians" 60 3000]
    completed 1000 (Some 4000%Z) 60.

Definition soldP001 : Player.t :=
  Player.mk "P001" "Virat Kohli" Batsman (1 # 2) Sold (Some 60) (Some "MI") "India" 20
    "https://api.dicebear.com/7.x/avataaars/svg?seed=ViratKohli".

Definition sampleActivity : Activity.t :=
  Activity.mk "ACT-5000" ActivityType.bid [Lit "sample"] 5000 None None None.

(** A stand-in for the message of a validation error. *)
Definition sampleZodMessage : Q → string := λ _, "Number must be greater than 0".

(** ** The store in double arithmetic

    The same store with a JavaScript [number] that holds money as the IEEE
    754 double it is: [Doubles] repeats the data model, the seed and the
    three operations above with [float] for [Q], the comparisons and the
    subtraction of [placeBid] and [completeAuction] being those of doubles.
    It is what decides a property that depends on how [a - b] rounds. *)

Module Doubles.
Import Floats.
Local Open Scope float_scope.

(** A template literal before it is rendered: its string pieces and the
    numbers interpolated into it. *)
Inductive MsgPart :=
| Lit (s : string)
| Num (q : float).

Module Player.
Record t := mk {
  id : string;
  name : string;
  role : PlayerRole;
  basePrice : float;
  status : PlayerStatus;
  soldPrice : option float;
  teamId : option string;
  nationality : string;
  age : float;
  avatar : string
}.
End Player.

Module Team.
Record t := mk {
  id : string;
  name : string;
  shortName : string;
  logo : string;
  totalPurse : float;
  remainingPurse : float;
  maxPlayers : Z;
  players : list PlayerRef
}.
End Team.

Module Bid.
Record t := mk {
  id : string;
  auctionId : string;
  playerId : string;
  teamId : string;
  teamName : string;
  amount : float;
  timestamp : Z
}.
End Bid.

Module Auction.
Record t := mk {
  id : string;
  playerId : string;
  player : PlayerRef;
  currentBid : float;
  currentBidder : option string;
  bids : list Bid.t;
  status : AuctionStatus;
  startTime : Z;
  endTime : option Z;
  timerDuration : float
}.
End Auction.

Module Activity.
Record t := mk {
  id : string;
  type : ActivityType.t;
  message : list MsgPart;
  timestamp : Z;
  teamId : option string;
  playerId : option string;
  amount : option float
}.
End Activity.


Record Db := mkDb {
  teams : gmap string Team.t;
  players : gmap string Player.t;
  auctions : gmap string Auction.t;
  activities : list Activity.t;
  isDbInitialized : bool;
  bidLocks : gmap string bool
}.

Definition with_teams (f : gmap string Team.t → gmap string Team.t) (db : Db) : Db :=
  mkDb (f (teams db)) (players db) (auctions db) (activities db)
       (isDbInitialized db) (bidLocks db).

Definition with_players (f : gmap string Player.t → gmap string Player.t) (db : Db) : Db :=
  mkDb (teams db) (f (players db)) (auctions db) (activities db)
       (isDbInitialized db) (bidLocks db).

Definition with_auctions (f : gmap string Auction.t → gmap string Auction.t) (db : Db) : Db :=
  mkDb (teams db) (players db) (f (auctions db)) (activities db)
       (isDbInitialized db) (bidLocks db).

Definition with_activities (f : list Activity.t → list Activity.t) (db : Db) : Db :=
  mkDb (teams db) (players db) (auctions db) (f (activities db))
       (isDbInitialized db) (bidLocks db).

Definition with_bidLocks (f : gmap string bool → gmap string bool) (db : Db) : Db :=
  mkDb (teams db) (players db) (auctions db) (activities db)
       (isDbInitialized db) (f (bidLocks db)).


(** [seedTeams]; the roster, absent from the seed records, is the empty one
    [initializeDatabase] gives every team. *)
Definition seedTeams : list Team.t :=
  [ Team.mk "MI" "Mumbai Indians" "MI"
      "https://api.dicebear.com/7.x/identicon/svg?seed=MI"
      100 100 25 [];
    Team.mk "CSK" "Chennai Super Kings" "CSK"
      "https://api.dicebear.com/7.x/identicon/svg?seed=CSK"
      100 100 25 [];
    Team.mk "RCB" "Royal Challengers Bangalore" "RCB"
      "https://api.dicebear.com/7.x/identicon/svg?seed=RCB"
      100 100 25 [];
    Team.mk "KKR" "Kolkata Knight Riders" "KKR"
      "https://api.dicebear.com/7.x/identicon/svg?seed=KKR"
      100 100 25 [];
    Team.mk "DC" "Delhi Capitals" "DC"
      "https://api.dicebear.com/7.x/identicon/svg?seed=DC"
      100 100 25 [];
    Team.mk "SRH" "Sunrisers Hyderabad" "SRH"
      "https://api.dicebear.com/7.x/identicon/svg?seed=SRH"
      100 100 25 [];
    Team.mk "PBKS" "Punjab Kings" "PBKS"
      "https://api.dicebear.com/7.x/identicon/svg?seed=PBKS"
      100 100 25 [];
    Team.mk "RR" "Rajasthan Royals" "RR"
      "https://api.dicebear.com/7.x/identicon/svg?seed=RR"
      100 100 25 [];
    Team.mk "GT" "Gujarat Titans" "GT"
      "https://api.dicebear.com/7.x/identicon/svg?seed=GT"
      100 100 25 [];
    Team.mk "LSG" "Lucknow Super Giants" "LSG"
      "https://api.dicebear.com/7.x/identicon/svg?seed=LSG"
      100 100 25 [] ].


(** [Math.floor] and [Math.round] are exact on a double: a finite double
    [m * 2^e] with [e >= 0] is an integer already, and otherwise its value is
    a rational below [2^53] whose floor is a double.  A zero result keeps
    the sign of the argument, and zeros, infinities and [NaN] are returned
    as they are. *)
Definition value (s : bool) (m : positive) (e : Z) : Q :=
  (if s then - inject_Z (Zpos m) else inject_Z (Zpos m))%Q * Qpower 2 e.

Definition integer (s : bool) (z : Z) : float :=
  if (z =? 0)%Z then (if s then neg_zero else zero)
  else if (z <? 0)%Z then - of_uint63 (Uint63.of_Z (- z))
  else of_uint63 (Uint63.of_Z z).

Definition integral (rounding : Q → Z) (x : float) : float :=
  match Prim2SF x with
  | S754_finite s m e => if (0 <=? e)%Z then x else integer s (rounding (value s m e))
  | _ => x
  end.

Definition math_floor (x : float) : float := integral Qfloor x.

(** Ties go towards plus infinity. *)
Definition math_round (x : float) : float := integral (λ q, Qfloor (q + (1 # 2))%Q) x.

(** [Math.max(a, b)]: [NaN] if either is, and [+0] rather than [-0]. *)
Definition math_max (a b : float) : float :=
  if is_nan a || is_nan b then nan
  else if a <? b then b
  else if b <? a then a
  else if get_sign a then b else a.

(** [generatePlayers]. [random k] is the value of the [k]-th call of
    [Math.random()]; player [index] draws its base price with call
    [2 * index] and its age with call [2 * index + 1]. *)
Definition generatePlayer (random : nat → float) (index : nat) (name : string)
    : Player.t :=
  Player.mk
    ("P" +:+ padStart 3 "0" (pretty (index + 1)%nat))
    name
    (cyclic Batsman roles index)
    (math_max 0.5 (math_round ((random (2 * index)%nat * 15 + 0.5) * 10) / 10))
    Unsold
    None
    None
    (cyclic "" nationalities index)
    (math_floor (random (2 * index + 1)%nat * 15) + 20)
    ("https://api.dicebear.com/7.x/avataaars/svg?seed=" +:+ strip_spaces name).

Definition generatePlayers (random : nat → float) : list Player.t :=
  imap (generatePlayer random) playerNames.


(** *** Entity store *)

(** The store before the module is first loaded: [globalForDb] holds
    nothing, so every collection is a fresh empty one. *)
Definition emptyDb : Db := mkDb ∅ ∅ ∅ [] false ∅.

Definition initializeDatabase (random : nat → float) (db : Db) : Db :=
  if isDbInitialized db then db
  else
    mkDb (foldl (λ m team, <[Team.id team := team]> m) ∅ seedTeams)
         (foldl (λ m player, <[Player.id player := player]> m) ∅ (generatePlayers random))
         ∅
         []
         true
         (bidLocks db).

Definition getTeamById (id : string) (db : Db) : option Team.t := teams db !! id.

Definition setRemainingPurse (newPurse : float) (team : Team.t) : Team.t :=
  Team.mk (Team.id team) (Team.name team) (Team.shortName team) (Team.logo team)
          (Team.totalPurse team) newPurse (Team.maxPlayers team) (Team.players team).

Definition pushPlayer (player : PlayerRef) (team : Team.t) : Team.t :=
  Team.mk (Team.id team) (Team.name team) (Team.shortName team) (Team.logo team)
          (Team.totalPurse team) (Team.remainingPurse team) (Team.maxPlayers team)
          (Team.players team ++ [player]).

Definition updateTeamPurse (teamId : string) (newPurse : float) (db : Db) : Db :=
  match teams db !! teamId with
  | Some team => with_teams <[teamId := setRemainingPurse newPurse team]> db
  | None => db
  end.

Definition addPlayerToTeam (teamId : string) (player : PlayerRef) (db : Db) : Db :=
  match teams db !! teamId with
  | Some team => with_teams <[teamId := pushPlayer player team]> db
  | None => db
  end.

Definition getPlayerById (id : string) (db : Db) : option Player.t := players db !! id.

Definition setStatus (status : PlayerStatus) (teamId : option string)
    (soldPrice : option float) (player : Player.t) : Player.t :=
  Player.mk (Player.id player) (Player.name player) (Player.role player)
            (Player.basePrice player) status soldPrice teamId
            (Player.nationality player) (Player.age player) (Player.avatar player).

Definition updatePlayerStatus (playerId : string) (status : PlayerStatus)
    (teamId : option string) (soldPrice : option float) (db : Db) : Db :=
  match players db !! playerId with
  | Some player => with_players <[playerId := setStatus status teamId soldPrice player]> db
  | None => db
  end.

(** [activities.unshift(activity)], then [pop] once the log holds more than
    100 entries. *)
Definition addActivity (activity : Activity.t) (db : Db) : Db :=
  with_activities
    (λ acts, let acts' := activity :: acts in
             if (100 <? length acts')%nat then removelast acts' else acts')
    db.

Arguments addActivity : simpl never.

Definition getAuctionById (id : string) (db : Db) : option Auction.t := auctions db !! id.

(** Reading [player.name] through a reference.  Every reference the
    operations create points into [players], which never loses a key; the
    empty string stands for a read through a reference that points nowhere. *)
Definition nameOf (db : Db) (player : PlayerRef) : string :=
  from_option Player.name "" (players db !! player).

(** *** Auction lifecycle: creation *)

(** [createAuction(playerId, timerDuration = 60)].  Clock readings: the
    auction id, [startTime], the activity id, the activity timestamp. *)
Definition createAuction (clock : Clock) (playerId : string) (timerDuration : option float)
    (db : Db) : Db * option Auction.t :=
  match players db !! playerId with
  | None => (db, None)
  | Some player =>
      if decide (Player.status player ≠ Unsold) then (db, None)
      else
        let auctionId := "AUC-" +:+ pretty (now0 clock) in
        let auction :=
          Auction.mk auctionId playerId playerId (Player.basePrice player) None []
                     live (now1 clock) None (default 60 timerDuration) in
        let db1 := with_auctions <[auctionId := auction]> db in
        let db2 := updatePlayerStatus playerId Live None None db1 in
        let db3 :=
          addActivity
            (Activity.mk ("ACT-" +:+ pretty (now2 clock)) ActivityType.auction_start
                         [Lit "Auction started for "; Lit (nameOf db2 playerId)]
                         (now3 clock) None (Some playerId) None)
            db2 in
        (db3, Some auction)
  end.

(** *** Bidding engine *)

(** The object [placeBid] resolves to. *)
Record BidResult := mkBidResult {
  success : bool;
  error : option string;
  auction : option Auction.t
}.

Definition rejected (msg : string) : BidResult := mkBidResult false (Some msg) None.

Definition recordBid (b : Bid.t) (a : Auction.t) : Auction.t :=
  Auction.mk (Auction.id a) (Auction.playerId a) (Auction.player a)
             (Bid.amount b) (Some (Bid.teamId b)) (Auction.bids a ++ [b])
             (Auction.status a) (Auction.startTime a) (Auction.endTime a)
             (Auction.timerDuration a).

(** The body of the [try] block of [placeBid].  Clock readings: the bid id,
    the bid timestamp, the activity id, the activity timestamp.  The two
    tests are those of doubles, [amount > team.remainingPurse] being written
    [Team.remainingPurse team <? amount]; both are false on a [NaN]. *)
Definition placeBid_try (clock : Clock) (auctionId teamId : string) (amount : float)
    (db : Db) : Db * BidResult :=
  match auctions db !! auctionId with
  | None => (db, rejected "Auction not found")
  | Some auction =>
      if decide (Auction.status auction ≠ live) then (db, rejected "Auction is not active")
      else
        match teams db !! teamId with
        | None => (db, rejected "Team not found")
        | Some team =>
            if amount <=? Auction.currentBid auction
            then (db, rejected "Bid must be higher than current bid")
            else if Team.remainingPurse team <? amount
            then (db, rejected "Insufficient purse remaining")
            else
              let bid :=
                Bid.mk ("BID-" +:+ pretty (now0 clock)) auctionId
                       (Auction.playerId auction) teamId (Team.name team) amount
                       (now1 clock) in
              let auction' := recordBid bid auction in
              let db1 := with_auctions <[auctionId := auction']> db in
              let db2 :=
                addActivity
                  (Activity.mk ("ACT-" +:+ pretty (now2 clock)) ActivityType.bid
                               [Lit (Team.shortName team); Lit " bid ₹"; Num amount;
                                Lit "Cr for "; Lit (nameOf db1 (Auction.player auction'))]
                               (now3 clock) (Some teamId)
                               (Some (Auction.playerId auction')) (Some amount))
                  db1 in
              (db2, mkBidResult true None (Some auction'))
        end
  end.

(** [placeBid]: the per-auction lock is tested, taken, and released by the
    [finally] clause on every path through the [try] block. *)
Definition placeBid (clock : Clock) (auctionId teamId : string) (amount : float)
    (db : Db) : Db * BidResult :=
  if default false (bidLocks db !! auctionId)
  then (db, rejected "Another bid is being processed. Please try again.")
  else
    let db1 := with_bidLocks <[auctionId := true]> db in
    let '(db2, result) := placeBid_try clock auctionId teamId amount db1 in
    (with_bidLocks (delete auctionId) db2, result).

(** *** Auction lifecycle: settlement *)

Definition complete (endTime : Z) (a : Auction.t) : Auction.t :=
  Auction.mk (Auction.id a) (Auction.playerId a) (Auction.player a)
             (Auction.currentBid a) (Auction.currentBidder a) (Auction.bids a)
             completed (Auction.startTime a) (Some endTime)
             (Auction.timerDuration a).

(** [completeAuction(auctionId)].  Clock readings: [endTime], the activity
    id, the activity timestamp. *)
Definition completeAuction (clock : Clock) (auctionId : string) (db : Db)
    : Db * option Auction.t :=
  match auctions db !! auctionId with
  | None => (db, None)
  | Some auction0 =>
      if decide (Auction.status auction0 ≠ live) then (db, None)
      else
        let auction := complete (now0 clock) auction0 in
        let db1 := with_auctions <[auctionId := auction]> db in
        match truthy (Auction.currentBidder auction) with
        | Some currentBidder =>
            let db2 :=
              updatePlayerStatus (Auction.playerId auction) Sold (Some currentBidder)
                                 (Some (Auction.currentBid auction)) db1 in
            match teams db2 !! currentBidder with
            | Some team =>
                let db3 :=
                  updateTeamPurse currentBidder
                    (Team.remainingPurse team - Auction.currentBid auction) db2 in
                let db4 := addPlayerToTeam currentBidder (Auction.player auction) db3 in
                let db5 :=
                  addActivity
                    (Activity.mk ("ACT-" +:+ pretty (now1 clock)) ActivityType.win
                                 [Lit (Team.shortName team); Lit " won ";
                                  Lit (nameOf db4 (Auction.player auction)); Lit " for ₹";
                                  Num (Auction.currentBid auction); Lit "Cr"]
                                 (now2 clock) (Some currentBidder)
                                 (Some (Auction.playerId auction))
                                 (Some (Auction.currentBid auction)))
                    db4 in
                (db5, Some auction)
            | None => (db2, Some auction)
            end
        | None =>
            let db2 := updatePlayerStatus (Auction.playerId auction) Unsold None None db1 in
            let db3 :=
              addActivity
                (Activity.mk ("ACT-" +:+ pretty (now1 clock)) ActivityType.auction_end
                             [Lit (nameOf db2 (Auction.player auction)); Lit " went unsold"]
                             (now2 clock) None (Some (Auction.playerId auction)) None)
                db2 in
            (db3, Some auction)
        end
  end.

(** *** Runs of the engine *)

(** The mutation surface: one call of [createAuction], [placeBid] or
    [completeAuction] (settlement). *)
Inductive Call :=
| CreateAuction (playerId : string) (timerDuration : option float)
| PlaceBid (auctionId teamId : string) (amount : float)
| SettleAuction (auctionId : string).

Definition step (db : Db) (ev : Clock * Call) : Db :=
  match ev with
  | (clock, CreateAuction playerId timerDuration) =>
      fst (createAuction clock playerId timerDuration db)
  | (clock, PlaceBid auctionId teamId amount) =>
      fst (placeBid clock auctionId teamId amount db)
  | (clock, SettleAuction auctionId) =>
      fst (completeAuction clock auctionId db)
  end.

Definition run (trace : list (Clock * Call)) (db : Db) : Db := foldl step db trace.

(** The store after module load: [initializeDatabase] on the fresh store,
    for some outcome of the random draws. *)
Definition seeded (random : nat → float) : Db := initializeDatabase random emptyDb.

Definition reachable (db : Db) : Prop :=
  ∃ random trace, db = run trace (seeded random).

(** *** Purse accounting *)

(** [player.soldPrice] read through a roster entry. *)
Definition soldPriceOf (players : gmap string Player.t) (player : PlayerRef)
    : option float :=
  players !! player ≫= Player.soldPrice.

(** The sold prices of a roster, in roster order; there is none when an
    entry has no sold price. *)
Fixpoint rosterPrices (players : gmap string Player.t) (roster : list PlayerRef)
    : option (list float) :=
  match roster with
  | [] => Some []
  | player :: rest =>
      match soldPriceOf players player, rosterPrices players rest with
      | Some price, Some prices => Some (price :: prices)
      | _, _ => None
      end
  end.

(** The sum of the sold prices, added up from 0 in roster order. *)
Definition total (prices : list float) : float := foldl add 0 prices.

(** The purse left after the prices are taken off one after the other. *)
Definition ledger (purse : float) (prices : list float) : float := foldl sub purse prices.

(** *** Consistency

    What one call can do to the teams, players and auctions of the store.
    [Transition clock db db'] lists the shapes of [db'] against [db]. *)
Inductive Transition (clock : Clock) (db db' : Db) : Prop :=
| T_same :
    teams db' = teams db → players db' = players db → auctions db' = auctions db →
    Transition clock db db'
| T_created playerId timerDuration P :
    players db !! playerId = Some P →
    Player.status P = Unsold →
    teams db' = teams db →
    players db' = <[playerId := setStatus Live None None P]> (players db) →
    auctions db'
    = <["AUC-" +:+ pretty (now0 clock) :=
          Auction.mk ("AUC-" +:+ pretty (now0 clock)) playerId playerId
                     (Player.basePrice P) None [] live (now1 clock) None
                     (default 60 timerDuration)]> (auctions db) →
    Transition clock db db'
| T_bid auctionId teamId amount a team :
    auctions db !! auctionId = Some a →
    Auction.status a = live →
    teams db !! teamId = Some team →
    (amount <=? Auction.currentBid a) = false →
    (Team.remainingPurse team <? amount) = false →
    teams db' = teams db →
    players db' = players db →
    auctions db'
    = <[auctionId :=
          recordBid (Bid.mk ("BID-" +:+ pretty (now0 clock)) auctionId
                            (Auction.playerId a) teamId (Team.name team) amount
                            (now1 clock)) a]> (auctions db) →
    Transition clock db db'
| T_settled auctionId a status teamId soldPrice :
    auctions db !! auctionId = Some a →
    Auction.status a = live →
    teams db' = teams db →
    players db'
    = match players db !! Auction.playerId a with
      | Some p => <[Auction.playerId a := setStatus status teamId soldPrice p]> (players db)
      | None => players db
      end →
    auctions db' = <[auctionId := complete (now0 clock) a]> (auctions db) →
    Transition clock db db'
| T_sold auctionId a bidder team :
    auctions db !! auctionId = Some a →
    Auction.status a = live →
    truthy (Auction.currentBidder a) = Some bidder →
    teams db !! bidder = Some team →
    teams db'
    = <[bidder :=
          pushPlayer (Auction.player a)
            (setRemainingPurse (Team.remainingPurse team - Auction.currentBid a) team)]>
        (teams db) →
    players db'
    = match players db !! Auction.playerId a with
      | Some p =>
          <[Auction.playerId a :=
              setStatus Sold (Some bidder) (Some (Auction.currentBid a)) p]> (players db)
      | None => players db
      end →
    auctions db' = <[auctionId := complete (now0 clock) a]> (auctions db) →
    Transition clock db db'.

(** The facts about a store that every call preserves. *)
Record Consistent (db : Db) : Prop := mkConsistent {
  (** an auction embeds the player object stored under its [playerId], and
      the player of a live auction is [Live] *)
  auction_player : ∀ auctionId a,
    auctions db !! auctionId = Some a →
    Auction.player a = Auction.playerId a
    ∧ ∃ p, players db !! Auction.playerId a = Some p
           ∧ (Auction.status a = live → Player.status p = Live);
  (** no two live auctions are for the same player *)
  live_unique : ∀ id1 id2 a1 a2,
    auctions db !! id1 = Some a1 → auctions db !! id2 = Some a2 →
    Auction.status a1 = live → Auction.status a2 = live →
    Auction.playerId a1 = Auction.playerId a2 → id1 = id2;
  (** every roster entry is a sold player *)
  roster_sold : ∀ teamId team player,
    teams db !! teamId = Some team → player ∈ Team.players team →
    ∃ p price, players db !! player = Some p ∧ Player.status p = Sold
               ∧ Player.soldPrice p = Some price;
  (** the purse of a team is its total purse with the sold prices of its
      roster taken off one after the other, in roster order *)
  purse_ledger : ∀ teamId team,
    teams db !! teamId = Some team →
    ∃ prices, rosterPrices (players db) (Team.players team) = Some prices
              ∧ Team.remainingPurse team = ledger (Team.totalPurse team) prices
}.

(** *** Exact values *)

(** The rational a finite double stands for; an infinity or [NaN] has none. *)
Definition exact (x : float) : option Q :=
  match Prim2SF x with
  | S754_zero _ => Some 0%Q
  | S754_finite s m e => Some (value s m e)
  | _ => None
  end.

(** The sum of a list of doubles, without rounding. *)
Definition exactTotal (prices : list float) : option Q :=
  foldr (λ price acc, q ← exact price; sum ← acc; Some (q + sum)%Q) (Some 0%Q) prices.

(** No subtraction of the ledger rounds: the purse and every price are
    finite, and each difference the ledger takes is the exact one. *)
Fixpoint unrounded (purse : float) (prices : list float) : bool :=
  match prices with
  | [] => bool_decide (is_Some (exact purse))
  | price :: rest =>
      match exact purse, exact price, exact (purse - price) with
      | Some p, Some c, Some d => Qeq_bool d (p - c)%Q && unrounded (purse - price) rest
      | _, _, _ => false
      end
  end.

(** *** Sample inputs *)

Definition zeroDraws : nat → float := λ _, 0.

(** Two auctions, for P001 and P002; MI bids 1.5 on the first and 2.5 on the
    second, and both are settled. *)
Definition dyadicSales : list (Clock * Call) :=
  [ (at_time 1000, CreateAuction "P001" None);
    (at_time 2000, CreateAuction "P002" None);
    (at_time 3000, PlaceBid "AUC-1000" "MI" 1.5);
    (at_time 3001, PlaceBid "AUC-2000" "MI" 2.5);
    (at_time 4000, SettleAuction "AUC-1000");
    (at_time 4001, SettleAuction "AUC-2000") ].

Definition dyadicSalesDb : Db := run dyadicSales (seeded zeroDraws).

(** The two sold prices. *)
Definition dyadicPrices : list float := [1.5; 2.5].

(** MI in [dyadicSalesDb]. *)
Definition teamMI_dyadic : Team.t :=
  Team.mk "MI" "Mumbai Indians" "MI"
    "https://api.dicebear.com/7.x/identicon/svg?seed=MI"
    100 96 25 ["P001"; "P002"].

(** Two auctions, for P001 and P002; MI bids 0.7 on the first and 0.9 on the
    second, and both are settled. *)
#[warnings="-inexact-float"]
Definition decimalSales : list (Clock * Call) :=
  [ (at_time 1000, CreateAuction "P001" None);
    (at_time 2000, CreateAuction "P002" None);
    (at_time 3000, PlaceBid "AUC-1000" "MI" 0.7);
    (at_time 3001, PlaceBid "AUC-2000" "MI" 0.9);
    (at_time 4000, SettleAuction "AUC-1000");
    (at_time 4001, SettleAuction "AUC-2000") ].

Definition decimalSalesDb : Db := run decimalSales (seeded zeroDraws).

(** The two sold prices. *)
#[warnings="-inexact-float"]
Definition decimalPrices : list float := [0.7; 0.9].

(** MI in [decimalSalesDb]. *)
#[warnings="-inexact-float"]
Definition teamMI_decimal : Team.t :=
  Team.mk "MI" "Mumbai Indians" "MI"
    "https://api.dicebear.com/7.x/identicon/svg?seed=MI"
    100 98.39999999999999 25 ["P001"; "P002"].

End Doubles.

(** ** Basic facts about the store primitives *)

Lemma num_le_true x y : num_le x y = true ↔ x <= y.
Proof. apply Qle_bool_iff. Qed.

Lemma num_le_false x y : num_le x y = false ↔ y < x.
Proof.
  unfold num_le. rewrite <- Bool.not_true_iff_false, Qle_bool_iff.
  split; [apply Qnot_le_lt | apply Qlt_not_le].
Qed.

Lemma num_gt_true x y : num_gt x y = true ↔ y < x.
Proof. unfold num_gt. rewrite Bool.negb_true_iff. apply num_le_false. Qed.

Lemma num_gt_false x y : num_gt x y = false ↔ x <= y.
Proof. unfold num_gt. rewrite Bool.negb_false_iff. apply num_le_true. Qed.

Lemma truthy_Some o s : truthy o = Some s ↔ o = Some s ∧ s ≠ "".
Proof.
  unfold truthy. destruct o as [s'|]; [|split; [done | by intros [? _]]].
  destruct (decide (s' = "")) as [->|Hne].
  - split; [done | intros [[= <-] Hs]; by destruct Hs].
  - split; [by intros [= <-] | by intros [[= <-] _]].
Qed.

Lemma addActivity_head act db : head (activities (addActivity act db)) = Some act.
Proof.
  unfold addActivity. simpl.
  destruct (activities db) as [|a l]; simpl; [done|].
  destruct (100 <? S (S (length l)))%nat; done.
Qed.

(** Unfold the record updates and reduce the projections they meet. *)
Ltac db_unfold :=
  unfold addActivity, with_teams, with_players, with_auctions, with_activities,
    with_bidLocks in *;
  cbn [teams players auctions activities isDbInitialized bidLocks fst snd] in *.

(** ** Bid validation *)

Lemma placeBid_try_rejected_same clock auctionId teamId amount db :
  success (placeBid_try clock auctionId teamId amount db).2 = false →
  (placeBid_try clock auctionId teamId amount db).1 = db.
Proof.
  unfold placeBid_try.
  destruct (auctions db !! auctionId) as [a|]; [|done].
  destruct (decide (Auction.status a ≠ live)); [done|].
  destruct (teams db !! teamId) as [team|]; [|done].
  destruct (num_le amount (Auction.currentBid a)); [done|].
  destruct (num_gt amount (Team.remainingPurse team)); [done|].
  simpl. discriminate.
Qed.

Lemma placeBid_try_first_failure clock auctionId teamId amount db :
  match firstFailure db auctionId teamId amount with
  | Some e => (placeBid_try clock auctionId teamId amount db).2 = rejected (errorMessage e)
  | None => success (placeBid_try clock auctionId teamId amount db).2 = true
  end.
Proof.
  unfold placeBid_try, firstFailure.
  destruct (auctions db !! auctionId) as [a|]; [|done].
  destruct (decide (Auction.status a = live)) as [Hlive|Hlive].
  2: { destruct (decide (Auction.status a ≠ live)); done. }
  destruct (decide (Auction.status a ≠ live)); [done|].
  destruct (teams db !! teamId) as [team|]; [|done].
  destruct (Qlt_le_dec (Auction.currentBid a) amount) as [Hhigh|Hlow].
  - apply num_le_false in Hhigh. rewrite Hhigh.
    destruct (Qlt_le_dec (Team.remainingPurse team) amount) as [Hpoor|Hrich].
    + apply num_gt_true in Hpoor. by rewrite Hpoor.
    + apply num_gt_false in Hrich. by rewrite Hrich.
  - apply num_le_true in Hlow. by rewrite Hlow.
Qed.

Lemma placeBid_unlocked clock auctionId teamId amount db :
  default false (bidLocks db !! auctionId) = false →
  placeBid clock auctionId teamId amount db
  = let out := placeBid_try clock auctionId teamId amount
                 (with_bidLocks <[auctionId := true]> db) in
    (with_bidLocks (delete auctionId) out.1, out.2).
Proof.
  intros Hfree. unfold placeBid. rewrite Hfree.
  by destruct (placeBid_try _ _ _ _ _).
Qed.

Lemma placeBid_rejected clock auctionId teamId amount db :
  success (placeBid clock auctionId teamId amount db).2 = false →
  same_entities db (placeBid clock auctionId teamId amount db).1.
Proof.
  destruct (default false (bidLocks db !! auctionId)) eqn:Hlock.
  - unfold placeBid. rewrite Hlock. by intros _.
  - rewrite placeBid_unlocked by done. simpl. intros Hfail.
    apply placeBid_try_rejected_same in Hfail. rewrite Hfail. by unfold same_entities.
Qed.

(** C1.  [placeBid] checks the preconditions in the order auction exists,
    auction is live, team exists, amount above the current bid, amount within
    the team's remaining purse, and reports the first one that fails; and
    whenever it reports a failure (of a precondition, or because the
    auction's lock is held) no team, player, auction or activity has
    changed. *)
Theorem placeBid_first_failure_wins clock auctionId teamId amount db :
  (success (placeBid clock auctionId teamId amount db).2 = false →
   same_entities db (placeBid clock auctionId teamId amount db).1)
  ∧ (default false (bidLocks db !! auctionId) = false →
     match firstFailure db auctionId teamId amount with
     | Some e =>
         (placeBid clock auctionId teamId amount db).2 = rejected (errorMessage e)
     | None => success (placeBid clock auctionId teamId amount db).2 = true
     end).
Proof.
  split.
  - apply placeBid_rejected.
  - intros Hfree. rewrite placeBid_unlocked by done. simpl.
    apply (placeBid_try_first_failure clock auctionId teamId amount
             (with_bidLocks <[auctionId := true]> db)).
Qed.

(** ** Creation *)

Lemma createAuction_rejects_missing clock playerId timerDuration db :
  players db !! playerId = None →
  createAuction clock playerId timerDuration db = (db, None).
Proof. intros Hnone. unfold createAuction. by rewrite Hnone. Qed.

(** C10.  [createAuction] on a [playerId] that is not in the player
    collection returns [null] and leaves the whole store as it was: no
    auction inserted, no player changed, no activity logged. *)
Theorem createAuction_unknown_player clock playerId timerDuration db :
  players db !! playerId = None →
  (createAuction clock playerId timerDuration db).2 = None
  ∧ (createAuction clock playerId timerDuration db).1 = db.
Proof.
  intros Hnone. by rewrite (createAuction_rejects_missing _ _ _ _ Hnone).
Qed.

Lemma createAuction_not_unsold clock playerId timerDuration db player :
  players db !! playerId = Some player →
  Player.status player ≠ Unsold →
  createAuction clock playerId timerDuration db = (db, None).
Proof.
  intros Hp Hst. unfold createAuction. rewrite Hp.
  by destruct (decide (Player.status player ≠ Unsold)).
Qed.

Lemma createAuction_unsold clock playerId timerDuration db player :
  players db !! playerId = Some player →
  Player.status player = Unsold →
  let a := Auction.mk ("AUC-" +:+ pretty (now0 clock)) playerId playerId
                      (Player.basePrice player) None [] live (now1 clock) None
                      (default 60 timerDuration) in
  let act := Activity.mk ("ACT-" +:+ pretty (now2 clock)) ActivityType.auction_start
                         [Lit "Auction started for "; Lit (Player.name player)]
                         (now3 clock) None (Some playerId) None in
  createAuction clock playerId timerDuration db
  = (mkDb (teams db)
          (<[playerId := setStatus Live None None player]> (players db))
          (<[Auction.id a := a]> (auctions db))
          (activities (addActivity act db))
          (isDbInitialized db) (bidLocks db),
     Some a).
Proof.
  intros Hp Hst. simpl. unfold createAuction. rewrite Hp.
  destruct (decide (Player.status player ≠ Unsold)); [done|].
  unfold updatePlayerStatus, nameOf. simpl. rewrite Hp. simpl.
  by rewrite lookup_insert_eq.
Qed.

(** ** Settlement *)

Lemma completeAuction_rejects_missing clock auctionId db :
  auctions db !! auctionId = None →
  completeAuction clock auctionId db = (db, None).
Proof. intros Hnone. unfold completeAuction. by rewrite Hnone. Qed.

Lemma completeAuction_rejects_not_live clock auctionId db a :
  auctions db !! auctionId = Some a →
  Auction.status a ≠ live →
  completeAuction clock auctionId db = (db, None).
Proof.
  intros Ha Hst. unfold completeAuction. rewrite Ha.
  by destruct (decide (Auction.status a ≠ live)).
Qed.

(** Settlement of a live auction nobody leads. *)
Lemma completeAuction_unsold clock auctionId db a :
  auctions db !! auctionId = Some a →
  Auction.status a = live →
  truthy (Auction.currentBidder a) = None →
  let a' := complete (now0 clock) a in
  let players' :=
    match players db !! Auction.playerId a with
    | Some p => <[Auction.playerId a := setStatus Unsold None None p]> (players db)
    | None => players db
    end in
  let act := Activity.mk ("ACT-" +:+ pretty (now1 clock)) ActivityType.auction_end
                         [Lit (from_option Player.name "" (players' !! Auction.player a));
                          Lit " went unsold"]
                         (now2 clock) None (Some (Auction.playerId a)) None in
  completeAuction clock auctionId db
  = (mkDb (teams db) players' (<[auctionId := a']> (auctions db))
          (activities (addActivity act db)) (isDbInitialized db) (bidLocks db),
     Some a').
Proof.
  intros Ha Hst Hno. simpl. unfold completeAuction. rewrite Ha.
  destruct (decide (Auction.status a ≠ live)); [done|].
  simpl. rewrite Hno. unfold updatePlayerStatus, nameOf. simpl.
  by destruct (players db !! Auction.playerId a).
Qed.

(** Settlement of a live auction led by an existing team. *)
Lemma completeAuction_sold clock auctionId db a bidder team :
  auctions db !! auctionId = Some a →
  Auction.status a = live →
  truthy (Auction.currentBidder a) = Some bidder →
  teams db !! bidder = Some team →
  let a' := complete (now0 clock) a in
  let players' :=
    match players db !! Auction.playerId a with
    | Some p =>
        <[Auction.playerId a :=
            setStatus Sold (Some bidder) (Some (Auction.currentBid a)) p]> (players db)
    | None => players db
    end in
  let team' :=
    pushPlayer (Auction.player a)
      (setRemainingPurse (Team.remainingPurse team - Auction.currentBid a) team) in
  let act := Activity.mk ("ACT-" +:+ pretty (now1 clock)) ActivityType.win
                         [Lit (Team.shortName team); Lit " won ";
                          Lit (from_option Player.name "" (players' !! Auction.player a));
                          Lit " for ₹"; Num (Auction.currentBid a); Lit "Cr"]
                         (now2 clock) (Some bidder) (Some (Auction.playerId a))
                         (Some (Auction.currentBid a)) in
  completeAuction clock auctionId db
  = (mkDb (<[bidder := team']> (teams db)) players' (<[auctionId := a']> (auctions db))
          (activities (addActivity act db)) (isDbInitialized db) (bidLocks db),
     Some a').
Proof.
  intros Ha Hst Hlead Ht. simpl. unfold completeAuction. rewrite Ha.
  destruct (decide (Auction.status a ≠ live)); [done|].
  simpl. rewrite Hlead.
  unfold updatePlayerStatus, updateTeamPurse, addPlayerToTeam, nameOf. simpl.
  destruct (players db !! Auction.playerId a); simpl; rewrite Ht; simpl;
    rewrite lookup_insert_eq; db_unfold; by rewrite insert_insert_eq.
Qed.

(** Settlement of a live auction whose leader is not a team of the store:
    the player is marked sold, no team changes, nothing is logged. *)
Lemma completeAuction_sold_no_team clock auctionId db a bidder :
  auctions db !! auctionId = Some a →
  Auction.status a = live →
  truthy (Auction.currentBidder a) = Some bidder →
  teams db !! bidder = None →
  completeAuction clock auctionId db
  = (updatePlayerStatus (Auction.playerId a) Sold (Some bidder)
       (Some (Auction.currentBid a))
       (with_auctions <[auctionId := complete (now0 clock) a]> db),
     Some (complete (now0 clock) a)).
Proof.
  intros Ha Hst Hlead Ht. unfold completeAuction. rewrite Ha.
  destruct (decide (Auction.status a ≠ live)); [done|].
  simpl. rewrite Hlead.
  replace (teams (updatePlayerStatus _ _ _ _ _) !! bidder) with (@None Team.t); [done|].
  unfold updatePlayerStatus. simpl.
  by destruct (players db !! Auction.playerId a).
Qed.

(** ** Accepted bids *)

(** The bid record and the log entry an accepted bid produces. *)
Lemma placeBid_accepted clock auctionId teamId amount db :
  success (placeBid clock auctionId teamId amount db).2 = true →
  ∃ a team,
    auctions db !! auctionId = Some a
    ∧ Auction.status a = live
    ∧ teams db !! teamId = Some team
    ∧ Auction.currentBid a < amount
    ∧ amount <= Team.remainingPurse team
    ∧ let b := Bid.mk ("BID-" +:+ pretty (now0 clock)) auctionId (Auction.playerId a)
                      teamId (Team.name team) amount (now1 clock) in
      let act := Activity.mk ("ACT-" +:+ pretty (now2 clock)) ActivityType.bid
                   [Lit (Team.shortName team); Lit " bid ₹"; Num amount; Lit "Cr for ";
                    Lit (nameOf db (Auction.player a))]
                   (now3 clock) (Some teamId) (Some (Auction.playerId a)) (Some amount) in
      placeBid clock auctionId teamId amount db
      = (mkDb (teams db) (players db) (<[auctionId := recordBid b a]> (auctions db))
              (activities (addActivity act db)) (isDbInitialized db)
              (delete auctionId (<[auctionId := true]> (bidLocks db))),
         mkBidResult true None (Some (recordBid b a))).
Proof.
  unfold placeBid.
  destruct (default false (bidLocks db !! auctionId)); [done|].
  unfold placeBid_try. db_unfold.
  destruct (auctions db !! auctionId) as [a|]; [|done].
  destruct (decide (Auction.status a ≠ live)) as [|Hlive]; [done|].
  destruct (teams db !! teamId) as [team|]; [|done].
  destruct (num_le amount (Auction.currentBid a)) eqn:Hhigh; [done|].
  destruct (num_gt amount (Team.remainingPurse team)) eqn:Hrich; [done|].
  intros _. exists a, team.
  apply num_le_false in Hhigh. apply num_gt_false in Hrich.
  repeat split; try done.
  by destruct (decide (Auction.status a = live)).
Qed.

(** C8.  An accepted [placeBid(auctionId, teamId, amount)] appends exactly
    one new bid of that amount and team to the auction, makes [amount] the
    current bid and [teamId] the current bidder, logs one activity of type
    [bid], and returns the updated auction; no team (purse, roster) and no
    player record changes, and no other auction does. *)
Theorem placeBid_frame clock auctionId teamId amount db :
  success (placeBid clock auctionId teamId amount db).2 = true →
  let db' := (placeBid clock auctionId teamId amount db).1 in
  ∃ a a' b act,
    auctions db !! auctionId = Some a
    ∧ auctions db' = <[auctionId := a']> (auctions db)
    ∧ auction (placeBid clock auctionId teamId amount db).2 = Some a'
    ∧ Auction.bids a' = Auction.bids a ++ [b]
    ∧ Bid.amount b = amount ∧ Bid.teamId b = teamId ∧ Bid.auctionId b = auctionId
    ∧ Auction.currentBid a' = amount
    ∧ Auction.currentBidder a' = Some teamId
    ∧ Auction.status a' = Auction.status a
    ∧ Auction.playerId a' = Auction.playerId a
    ∧ Auction.player a' = Auction.player a
    ∧ Activity.type act = ActivityType.bid
    ∧ activities db' = activities (addActivity act db)
    ∧ head (activities db') = Some act
    ∧ teams db' = teams db
    ∧ players db' = players db.
Proof.
  intros Hok. destruct (placeBid_accepted _ _ _ _ _ Hok)
    as (a & team & Ha & _ & _ & _ & _ & Heq).
  simpl in Heq. rewrite Heq. cbn [fst snd auction teams players auctions activities].
  eexists a, _, _, _. split_and!; try reflexivity; try done.
  apply addActivity_head.
Qed.

(** ** Settlement with a leading bidder *)


(** ** Settlement is guarded *)

Lemma updatePlayerStatus_frame playerId status teamId soldPrice db :
  teams (updatePlayerStatus playerId status teamId soldPrice db) = teams db
  ∧ auctions (updatePlayerStatus playerId status teamId soldPrice db) = auctions db
  ∧ activities (updatePlayerStatus playerId status teamId soldPrice db) = activities db.
Proof. unfold updatePlayerStatus. by destruct (players db !! playerId). Qed.

(** What settlement of a live auction does to the auction collection,
    whoever leads. *)
Lemma completeAuction_live clock auctionId db a :
  auctions db !! auctionId = Some a →
  Auction.status a = live →
  (completeAuction clock auctionId db).2 = Some (complete (now0 clock) a)
  ∧ auctions (completeAuction clock auctionId db).1
    = <[auctionId := complete (now0 clock) a]> (auctions db).
Proof.
  intros Ha Hlive.
  destruct (truthy (Auction.currentBidder a)) as [bidder|] eqn:Hlead.
  - destruct (teams db !! bidder) as [team|] eqn:Ht.
    + pose proof (completeAuction_sold clock _ _ _ _ _ Ha Hlive Hlead Ht) as Heq.
      simpl in Heq. by rewrite Heq.
    + rewrite (completeAuction_sold_no_team clock _ _ _ _ Ha Hlive Hlead Ht).
      split; [done|]. cbn [fst].
      by rewrite (proj1 (proj2 (updatePlayerStatus_frame _ _ _ _ _))).
  - pose proof (completeAuction_unsold clock _ _ _ Ha Hlive Hlead) as Heq.
    simpl in Heq. by rewrite Heq.
Qed.

(** C5.  Two settlements of the same auction, the first on a live auction:
    the first completes it, the second is rejected and changes nothing at
    all, so the purse of the winning team is reduced once and its roster
    gains the player once. *)
Theorem completeAuction_twice clock1 clock2 auctionId db a :
  auctions db !! auctionId = Some a →
  Auction.status a = live →
  let first := completeAuction clock1 auctionId db in
  let second := completeAuction clock2 auctionId first.1 in
  (∃ a1, first.2 = Some a1 ∧ Auction.status a1 = completed
         ∧ auctions first.1 !! auctionId = Some a1)
  ∧ second = (first.1, None).
Proof.
  intros Ha Hlive first second.
  destruct (completeAuction_live clock1 _ _ _ Ha Hlive) as [Hret Hauc].
  assert (auctions first.1 !! auctionId = Some (complete (now0 clock1) a)) as Hdone.
  { unfold first. rewrite Hauc. apply lookup_insert_eq. }
  split.
  - by exists (complete (now0 clock1) a).
  - unfold second. by apply (completeAuction_rejects_not_live _ _ _ _ Hdone).
Qed.

(** ** Creation followed by settlement *)

(** C9.  Creating an auction for an [Unsold] player [P] yields a live
    auction at [P]'s base price with no bids; settling it right away puts
    [P] back to [Unsold], leaves every team (purse and roster) as it was
    before the creation, and logs one activity of type [auction_end]. *)
Theorem create_then_settle clock1 clock2 playerId timerDuration db P :
  players db !! playerId = Some P →
  Player.status P = Unsold →
  let created := createAuction clock1 playerId timerDuration db in
  ∃ a,
    created.2 = Some a
    ∧ auctions created.1 !! Auction.id a = Some a
    ∧ Auction.playerId a = playerId
    ∧ Auction.status a = live
    ∧ Auction.currentBid a = Player.basePrice P
    ∧ Auction.bids a = []
    ∧ let settled := completeAuction clock2 (Auction.id a) created.1 in
      ∃ a' P' act,
        settled.2 = Some a'
        ∧ Auction.status a' = completed
        ∧ players settled.1 !! playerId = Some P'
        ∧ Player.status P' = Unsold
        ∧ Player.basePrice P' = Player.basePrice P
        ∧ teams settled.1 = teams db
        ∧ Activity.type act = ActivityType.auction_end
        ∧ activities settled.1 = activities (addActivity act created.1)
        ∧ head (activities settled.1) = Some act.
Proof.
  intros HP Hunsold created.
  pose proof (createAuction_unsold clock1 _ timerDuration _ _ HP Hunsold) as Hc.
  cbv zeta in Hc. unfold created. rewrite Hc. clear Hc created.
  cbn [fst snd auctions Auction.id].
  eexists. split; [reflexivity|].
  split; [by rewrite lookup_insert_eq|].
  do 4 (split; [reflexivity|]).
  cbv zeta. cbn [Auction.id].
  erewrite completeAuction_unsold;
    [ | cbn [auctions]; apply lookup_insert_eq | reflexivity | reflexivity ].
  cbn [fst snd teams players activities Auction.playerId].
  rewrite lookup_insert_eq.
  eexists _, (setStatus Unsold None None (setStatus Live None None P)), _.
  split_and!; [reflexivity | reflexivity | by rewrite lookup_insert_eq | reflexivity
              | reflexivity | reflexivity | | reflexivity | apply addActivity_head].
  reflexivity.
Qed.

(** ** Every call is a transition *)

Lemma step_transition clock call db : Transition clock db (step db (clock, call)).
Proof.
  destruct call as [playerId timerDuration | auctionId teamId amount | auctionId];
    cbn [step].
  - destruct (players db !! playerId) as [P|] eqn:HP.
    + destruct (decide (Player.status P = Unsold)) as [Hunsold|Hnot].
      * pose proof (createAuction_unsold clock _ timerDuration _ _ HP Hunsold) as Heq.
        cbv zeta in Heq. rewrite Heq.
        by eapply (T_created _ _ _ playerId timerDuration P).
      * rewrite (createAuction_not_unsold _ _ _ _ _ HP Hnot). by apply T_same.
    + rewrite (createAuction_rejects_missing _ _ _ _ HP). by apply T_same.
  - destruct (success (placeBid clock auctionId teamId amount db).2) eqn:Hok.
    + destruct (placeBid_accepted _ _ _ _ _ Hok)
        as (a & team & Ha & Hlive & Ht & Hhigh & Hrich & Heq).
      cbv zeta in Heq. rewrite Heq.
      by eapply (T_bid _ _ _ auctionId teamId amount a team).
    + destruct (placeBid_rejected _ _ _ _ _ Hok) as (? & ? & ? & ?). by apply T_same.
  - destruct (auctions db !! auctionId) as [a|] eqn:Ha.
    2: { rewrite (completeAuction_rejects_missing _ _ _ Ha). by apply T_same. }
    destruct (decide (Auction.status a = live)) as [Hlive|Hnot].
    2: { rewrite (completeAuction_rejects_not_live _ _ _ _ Ha Hnot). by apply T_same. }
    destruct (truthy (Auction.currentBidder a)) as [bidder|] eqn:Hlead.
    + destruct (teams db !! bidder) as [team|] eqn:Ht.
      * pose proof (completeAuction_sold clock _ _ _ _ _ Ha Hlive Hlead Ht) as Heq.
        cbv zeta in Heq. rewrite Heq.
        by eapply (T_sold _ _ _ auctionId a bidder team).
      * rewrite (completeAuction_sold_no_team clock _ _ _ _ Ha Hlive Hlead Ht).
        eapply (T_settled _ _ _ auctionId a Sold (Some bidder)
                  (Some (Auction.currentBid a))); try done;
          cbn [fst]; unfold updatePlayerStatus; db_unfold;
          by destruct (players db !! Auction.playerId a).
    + pose proof (completeAuction_unsold clock _ _ _ Ha Hlive Hlead) as Heq.
      cbv zeta in Heq. rewrite Heq.
      by eapply (T_settled _ _ _ auctionId a Unsold None None).
Qed.

(** ** Purse accounting *)

Lemma rosterSpend_ext (P P' : gmap string Player.t) (roster : list PlayerRef) :
  (∀ player, player ∈ roster → P' !! player = P !! player) →
  rosterSpend P' roster = rosterSpend P roster.
Proof.
  induction roster as [|player rest IH]; intros Hsame; [done|].
  cbn [rosterSpend]. unfold soldPriceOf.
  rewrite (Hsame player) by apply list_elem_of_here.
  rewrite IH; [done|]. intros q Hq. apply Hsame. by apply list_elem_of_further.
Qed.

Lemma rosterSpend_snoc (P : gmap string Player.t) (roster : list PlayerRef) player spent price :
  rosterSpend P roster = Some spent →
  soldPriceOf P player = Some price →
  ∃ spent', rosterSpend P (roster ++ [player]) = Some spent' ∧ spent' == spent + price.
Proof.
  revert spent. induction roster as [|q rest IH]; intros spent Hspent Hprice.
  - injection Hspent as <-. cbn [app rosterSpend]. rewrite Hprice.
    eexists. split; [done|]. lra.
  - cbn [rosterSpend] in Hspent. cbn [app rosterSpend].
    destruct (soldPriceOf P q) as [c|]; [|done].
    destruct (rosterSpend P rest) as [total|]; [|done].
    injection Hspent as <-.
    destruct (IH total eq_refl Hprice) as (total' & -> & Htotal).
    eexists. split; [done|]. lra.
Qed.

(** ** The consistency facts are preserved *)

(** Replacing a stored auction by one for the same player that is live only
    if the old one was keeps live auctions on distinct players. *)
Lemma live_unique_update (A : gmap string Auction.t) k a a' :
  A !! k = Some a →
  Auction.playerId a' = Auction.playerId a →
  (Auction.status a' = live → Auction.status a = live) →
  (∀ id1 id2 a1 a2, A !! id1 = Some a1 → A !! id2 = Some a2 →
     Auction.status a1 = live → Auction.status a2 = live →
     Auction.playerId a1 = Auction.playerId a2 → id1 = id2) →
  ∀ id1 id2 a1 a2, <[k := a']> A !! id1 = Some a1 → <[k := a']> A !! id2 = Some a2 →
     Auction.status a1 = live → Auction.status a2 = live →
     Auction.playerId a1 = Auction.playerId a2 → id1 = id2.
Proof.
  intros Hk Hpid Hst IH id1 id2 a1 a2 H1 H2 L1 L2 Heq.
  destruct (decide (id1 = k)) as [->|N1]; destruct (decide (id2 = k)) as [->|N2];
    simplify_map_eq; try done.
  - apply (IH k id2 a a2); auto. congruence.
  - apply (IH id1 k a1 a); auto. congruence.
  - by apply (IH id1 id2 a1 a2).
Qed.

(** A status change of one player keeps every player in place and every
    base price. *)
Lemma players_update_lookup (P : gmap string Player.t) pid status teamId soldPrice p0 ref p :
  P !! pid = Some p0 →
  P !! ref = Some p →
  ∃ p', <[pid := setStatus status teamId soldPrice p0]> P !! ref = Some p'
        ∧ Player.basePrice p' = Player.basePrice p
        ∧ (ref ≠ pid → p' = p)
        ∧ (ref = pid → p' = setStatus status teamId soldPrice p0).
Proof.
  intros H0 Href. destruct (decide (ref = pid)) as [->|Hne]; simplify_map_eq.
  - by eexists.
  - by eexists.
Qed.

Lemma consistent_same db db' :
  Consistent db →
  teams db' = teams db → players db' = players db → auctions db' = auctions db →
  Consistent db'.
Proof.
  intros [Hap Hlu Hrs Hpc Hll Hbr] HT HP HA.
  split; rewrite ?HT, ?HP, ?HA; done.
Qed.

Lemma consistent_created clock db db' playerId timerDuration P :
  Consistent db →
  players db !! playerId = Some P →
  Player.status P = Unsold →
  teams db' = teams db →
  players db' = <[playerId := setStatus Live None None P]> (players db) →
  auctions db'
  = <["AUC-" +:+ pretty (now0 clock) :=
        Auction.mk ("AUC-" +:+ pretty (now0 clock)) playerId playerId
                   (Player.basePrice P) None [] live (now1 clock) None
                   (default 60 timerDuration)]> (auctions db) →
  Consistent db'.
Proof.
  intros [Hap Hlu Hrs Hpc Hll Hbr] HP Hunsold HT HP' HA.
  set (k := "AUC-" +:+ pretty (now0 clock)) in *.
  assert (Hroster : ∀ teamId team player,
             teams db !! teamId = Some team → player ∈ Team.players team →
             player ≠ playerId).
  { intros teamId team player Ht Hin ->.
    destruct (Hrs _ _ _ Ht Hin) as (p & price & Hp & Hsold & _). congruence. }
  split; rewrite ?HT, ?HP', ?HA.
  - intros x a Hx. destruct (decide (x = k)) as [->|Hne]; simplify_map_eq.
    + eauto.
    + destruct (Hap _ _ Hx) as (Hsame & p & Hp & Hlive). split; [done|].
      destruct (decide (Auction.playerId a = playerId)) as [Heq|Hother].
      * rewrite Heq. simplify_map_eq. eauto.
      * exists p. by rewrite lookup_insert_ne.
  - intros id1 id2 a1 a2 H1 H2 L1 L2 Heq.
    assert (Hfresh : ∀ x a, auctions db !! x = Some a → Auction.status a = live →
                            Auction.playerId a ≠ playerId).
    { intros x a Hx Hl Hpid. destruct (Hap _ _ Hx) as (_ & p & Hp & Hlive).
      specialize (Hlive Hl). congruence. }
    destruct (decide (id1 = k)) as [->|N1]; destruct (decide (id2 = k)) as [->|N2];
      simplify_map_eq; try done.
    + by destruct (Hfresh _ _ H2 L2).
    + by destruct (Hfresh _ _ H1 L1).
    + by apply (Hlu id1 id2 a1 a2).
  - intros teamId team player Ht Hin.
    destruct (Hrs _ _ _ Ht Hin) as (p & price & Hp & Hsold & Hprice).
    exists p, price. rewrite lookup_insert_ne; [done|].
    intros <-. by apply (Hroster _ _ _ Ht Hin).
  - intros teamId team Ht. destruct (Hpc _ _ Ht) as (spent & Hspent & Hpurse).
    exists spent. split; [|done]. rewrite <- Hspent. apply rosterSpend_ext.
    intros player Hin. rewrite lookup_insert_ne; [done|].
    intros <-. by apply (Hroster _ _ _ Ht Hin).
  - intros x a Hx. destruct (decide (x = k)) as [->|Hne]; simplify_map_eq.
    + eauto.
    + destruct (Hll _ _ Hx) as (Hlead & p & Hp & Hbid). split; [done|].
      destruct (players_update_lookup _ playerId Live None None _ _ _ HP Hp)
        as (p' & Hp' & Hbase & _).
      exists p'. split; [done|]. by rewrite Hbase.
  - intros x a Hx. destruct (decide (x = k)) as [->|Hne]; simplify_map_eq.
    + split; [intros b Hb; by apply elem_of_nil in Hb|].
      intros i j bi bj _ Hi. by rewrite lookup_nil in Hi.
    + by apply (Hbr x).
Qed.

Lemma consistent_bid clock db db' auctionId teamId amount a team :
  Consistent db →
  auctions db !! auctionId = Some a →
  Auction.currentBid a < amount →
  teams db' = teams db →
  players db' = players db →
  auctions db'
  = <[auctionId :=
        recordBid (Bid.mk ("BID-" +:+ pretty (now0 clock)) auctionId
                          (Auction.playerId a) teamId (Team.name team) amount
                          (now1 clock)) a]> (auctions db) →
  Consistent db'.
Proof.
  intros [Hap Hlu Hrs Hpc Hll Hbr] Ha Hhigh HT HP HA.
  split; rewrite ?HT, ?HP, ?HA; try done.
  - intros x a' Hx. destruct (decide (x = auctionId)) as [->|Hne]; simplify_map_eq.
    + by apply (Hap auctionId).
    + by apply (Hap x).
  - by apply (live_unique_update _ _ a).
  - intros x a' Hx. destruct (decide (x = auctionId)) as [->|Hne]; simplify_map_eq.
    + destruct (Hll _ _ Ha) as (_ & p & Hp & _).
      cbn [recordBid Auction.currentBidder Auction.bids Auction.player
           Auction.currentBid Bid.teamId Bid.amount].
      rewrite last_snoc. split; [done|]. by exists p.
    + by apply (Hll x).
  - intros x a' Hx. destruct (decide (x = auctionId)) as [->|Hne]; simplify_map_eq.
    + destruct (Hbr _ _ Ha) as (Hmax & Hrise).
      cbn [recordBid Auction.bids Auction.currentBid].
      split.
      * intros b [Hb | ->%list_elem_of_singleton]%elem_of_app.
        -- apply Qlt_le_weak. eapply Qle_lt_trans; [by apply Hmax | done].
        -- apply Qle_refl.
      * intros i j bi bj Hij Hi Hj.
        assert (Hjlen : (j < length (Auction.bids a ++ [_]))%nat)
          by (eapply lookup_lt_Some; exact Hj).
        rewrite length_app in Hjlen. cbn [length] in Hjlen.
        rewrite lookup_app_l in Hi by lia.
        destruct (decide (j < length (Auction.bids a))%nat) as [Hold|Hnew].
        -- rewrite lookup_app_l in Hj by done. by apply (Hrise i j).
        -- rewrite lookup_app_r in Hj by lia.
           replace (j - length (Auction.bids a))%nat with 0%nat in Hj by lia.
           injection Hj as <-. cbn [Bid.amount].
           eapply Qle_lt_trans; [|exact Hhigh].
           apply Hmax. by eapply list_elem_of_lookup_2.
    + by apply (Hbr x).
Qed.

Lemma consistent_settled clock db db' auctionId a status teamId soldPrice :
  Consistent db →
  auctions db !! auctionId = Some a →
  Auction.status a = live →
  teams db' = teams db →
  players db'
  = match players db !! Auction.playerId a with
    | Some p => <[Auction.playerId a := setStatus status teamId soldPrice p]> (players db)
    | None => players db
    end →
  auctions db' = <[auctionId := complete (now0 clock) a]> (auctions db) →
  Consistent db'.
Proof.
  intros [Hap Hlu Hrs Hpc Hll Hbr] Ha Hlive HT HP HA.
  destruct (Hap _ _ Ha) as (Hsame & p0 & Hp0 & Hst0). specialize (Hst0 Hlive).
  rewrite Hp0 in HP.
  assert (Hroster : ∀ teamId team player,
             teams db !! teamId = Some team → player ∈ Team.players team →
             player ≠ Auction.playerId a).
  { intros tid team player Ht Hin ->.
    destruct (Hrs _ _ _ Ht Hin) as (p & price & Hp & Hsold & _). congruence. }
  split; rewrite ?HT, ?HP, ?HA.
  - intros x a' Hx. destruct (decide (x = auctionId)) as [->|Hne]; simplify_map_eq.
    + cbn [complete Auction.player Auction.playerId Auction.status].
      split; [done|]. simplify_map_eq. eexists. split; [done|]. done.
    + destruct (Hap _ _ Hx) as (Hsame' & p & Hp & Hst). split; [done|].
      destruct (decide (Auction.playerId a' = Auction.playerId a)) as [Heq|Hother].
      * rewrite Heq. simplify_map_eq. eexists. split; [done|].
        intros Hl. destruct Hne. by apply (Hlu x auctionId a' a).
      * exists p. by rewrite lookup_insert_ne.
  - by apply (live_unique_update _ _ a).
  - intros tid team player Ht Hin.
    destruct (Hrs _ _ _ Ht Hin) as (p & price & Hp & Hsold & Hprice).
    exists p, price. rewrite lookup_insert_ne; [done|].
    intros Heq. by apply (Hroster _ _ _ Ht Hin).
  - intros tid team Ht. destruct (Hpc _ _ Ht) as (spent & Hspent & Hpurse).
    exists spent. split; [|done]. rewrite <- Hspent. apply rosterSpend_ext.
    intros player Hin. rewrite lookup_insert_ne; [done|].
    intros Heq. by apply (Hroster _ _ _ Ht Hin).
  - intros x a' Hx.
    assert (∃ a0, auctions db !! x = Some a0
                  ∧ Auction.currentBidder a' = Auction.currentBidder a0
                  ∧ Auction.bids a' = Auction.bids a0
                  ∧ Auction.player a' = Auction.player a0
                  ∧ Auction.currentBid a' = Auction.currentBid a0)
      as (a0 & Hx0 & -> & -> & -> & ->).
    { destruct (decide (x = auctionId)) as [->|Hne]; simplify_map_eq; eauto 10. }
    destruct (Hll _ _ Hx0) as (Hlead & p & Hp & Hbid). split; [done|].
    destruct (players_update_lookup _ (Auction.playerId a) status teamId soldPrice
                _ _ _ Hp0 Hp) as (p' & Hp' & Hbase & _).
    exists p'. split; [done|]. by rewrite Hbase.
  - intros x a' Hx. destruct (decide (x = auctionId)) as [->|Hne]; simplify_map_eq.
    + by apply (Hbr auctionId).
    + by apply (Hbr x).
Qed.

Lemma consistent_team_gain db db' bidder team player p price :
  Consistent db →
  teams db !! bidder = Some team →
  players db !! player = Some p →
  Player.status p = Sold →
  Player.soldPrice p = Some price →
  teams db'
  = <[bidder := pushPlayer player
                  (setRemainingPurse (Team.remainingPurse team - price) team)]> (teams db) →
  players db' = players db →
  auctions db' = auctions db →
  Consistent db'.
Proof.
  intros [Hap Hlu Hrs Hpc Hll Hbr] Ht Hp Hsold Hprice HT HP HA.
  split; rewrite ?HT, ?HP, ?HA; try done.
  - intros tid team' q Ht' Hin.
    destruct (decide (tid = bidder)) as [->|Hne]; simplify_map_eq.
    + cbn [pushPlayer Team.players] in Hin.
      apply elem_of_app in Hin as [Hin | ->%list_elem_of_singleton].
      * by apply (Hrs bidder team).
      * by exists p, price.
    + by apply (Hrs tid team').
  - intros tid team' Ht'.
    destruct (decide (tid = bidder)) as [->|Hne]; simplify_map_eq.
    + destruct (Hpc _ _ Ht) as (spent & Hspent & Hpurse).
      destruct (rosterSpend_snoc (players db) (Team.players team) player spent price)
        as (spent' & Hspent' & Hsum); [done | |].
      { unfold soldPriceOf. by rewrite Hp. }
      exists spent'. split; [done|].
      cbn [pushPlayer setRemainingPurse Team.remainingPurse Team.totalPurse].
      lra.
    + by apply (Hpc tid team').
Qed.

Lemma transition_consistent clock db db' :
  Consistent db → Transition clock db db' → Consistent db'.
Proof.
  intros Hdb [HT HP HA
             | playerId timerDuration P HP0 Hunsold HT HP HA
             | auctionId teamId amount a team Ha Hlive Ht Hhigh Hrich HT HP HA
             | auctionId a status teamId soldPrice Ha Hlive HT HP HA
             | auctionId a bidder team Ha Hlive Hlead Ht HT HP HA].
  - by apply (consistent_same db).
  - by apply (consistent_created clock db db' playerId timerDuration P).
  - by apply (consistent_bid clock db db' auctionId teamId amount a team).
  - by apply (consistent_settled clock db db' auctionId a status teamId soldPrice).
  - destruct (auction_player db Hdb _ _ Ha) as (Hsame & p0 & Hp0 & _).
    set (mid := mkDb (teams db) (players db') (auctions db') (activities db')
                     (isDbInitialized db') (bidLocks db')).
    assert (Consistent mid) as Hmid.
    { by apply (consistent_settled clock db mid auctionId a Sold (Some bidder)
                  (Some (Auction.currentBid a))). }
    apply (consistent_team_gain mid db' bidder team (Auction.player a)
             (setStatus Sold (Some bidder) (Some (Auction.currentBid a)) p0)
             (Auction.currentBid a)); try done.
    cbn [mid players]. rewrite HP, Hp0, Hsame. apply lookup_insert_eq.
Qed.

(** ** The seeded store *)

Lemma foldl_insert_lookup {A} (key : A → string) (l : list A) (m : gmap string A) k v :
  foldl (λ m x, <[key x := x]> m) m l !! k = Some v → v ∈ l ∨ m !! k = Some v.
Proof.
  revert m. induction l as [|x l IH]; intros m Hk; [by right|].
  cbn [foldl] in Hk. destruct (IH _ Hk) as [Hin | Hm].
  - left. by apply list_elem_of_further.
  - destruct (decide (key x = k)) as [<-|Hne]; simplify_map_eq.
    + left. apply list_elem_of_here.
    + by right.
Qed.

Lemma seedTeams_untouched team :
  team ∈ seedTeams →
  Team.players team = [] ∧ Team.remainingPurse team = Team.totalPurse team.
Proof.
  unfold seedTeams. rewrite !elem_of_cons, elem_of_nil.
  intros H. repeat (destruct H as [-> | H]; [done|]). done.
Qed.

Lemma seeded_teams random teamId team :
  teams (seeded random) !! teamId = Some team → team ∈ seedTeams.
Proof.
  unfold seeded, initializeDatabase. cbn [isDbInitialized emptyDb teams].
  intros H. apply foldl_insert_lookup in H as [H|H]; [done|].
  by rewrite lookup_empty in H.
Qed.

Lemma seeded_auctions random : auctions (seeded random) = ∅.
Proof. done. Qed.

Lemma seeded_consistent random : Consistent (seeded random).
Proof.
  split; try (intros ? ?; rewrite seeded_auctions, lookup_empty; done).
  - intros teamId team player Ht%seeded_teams%seedTeams_untouched Hin.
    destruct Ht as [Hempty _]. rewrite Hempty in Hin. by apply elem_of_nil in Hin.
  - intros teamId team Ht%seeded_teams%seedTeams_untouched.
    destruct Ht as [-> ->]. exists 0. split; [done|]. lra.
Qed.

(** ** Reachable stores are consistent *)

Lemma run_consistent trace db : Consistent db → Consistent (run trace db).
Proof.
  revert db. induction trace as [|[clock call] trace IH]; intros db Hdb; [done|].
  apply IH. eapply transition_consistent; [exact Hdb | apply step_transition].
Qed.

Lemma reachable_consistent db : reachable db → Consistent db.
Proof.
  intros (random & trace & ->). apply run_consistent, seeded_consistent.
Qed.

(** The lock of an auction is held only while [placeBid] runs: between
    calls no lock is held. *)
Lemma step_unlocked db ev : bidLocks db = ∅ → bidLocks (step db ev) = ∅.
Proof.
  intros Hnone. destruct ev as [clock [playerId timerDuration | auctionId teamId amount
                                       | auctionId]]; cbn [step].
  - unfold createAuction, updatePlayerStatus.
    destruct (players db !! playerId) as [P|] eqn:HP; [|done].
    destruct (decide (Player.status P ≠ Unsold)); [done|].
    db_unfold. by rewrite HP.
  - unfold placeBid. rewrite Hnone, lookup_empty. cbn [default].
    destruct (placeBid_try _ _ _ _ _) as [db2 result] eqn:Htry. db_unfold.
    assert (bidLocks db2 = <[auctionId := true]> ∅) as ->.
    { unfold placeBid_try in Htry. db_unfold. rewrite Hnone in Htry.
      repeat match type of Htry with
             | match ?x with _ => _ end = _ => destruct x
             end; by injection Htry as <- _. }
    by rewrite delete_insert_eq, delete_empty.
  - unfold completeAuction, updatePlayerStatus, updateTeamPurse, addPlayerToTeam;
      repeat (match goal with
              | |- context [match ?x with _ => _ end] => destruct x
              | |- context [if ?x then _ else _] => destruct x
              end; db_unfold; try done).
Qed.

Lemma reachable_unlocked db auctionId :
  reachable db → default false (bidLocks db !! auctionId) = false.
Proof.
  intros (random & trace & ->).
  assert (bidLocks (run trace (seeded random)) = ∅) as ->; [|done].
  assert (bidLocks (seeded random) = ∅) as Hseed by done.
  revert Hseed. generalize (seeded random).
  induction trace as [|ev trace IH]; intros db Hdb; [done|].
  apply IH. by apply step_unlocked.
Qed.

(** ** Bids in time *)

Lemma bids_by_mono t t' db db' :
  (t ≤ t')%Z → auctions db' = auctions db → bids_by t db → bids_by t' db'.
Proof.
  intros Hle HA Hby auctionId a. rewrite HA. intros Ha.
  destruct (Hby _ _ Ha) as [Hmax Hord]. split; [|done].
  intros b Hb. specialize (Hmax b Hb). lia.
Qed.

Lemma bids_by_replace t t' db db' auctionId a a' :
  (t ≤ t')%Z →
  auctions db !! auctionId = Some a →
  Auction.bids a' = Auction.bids a →
  auctions db' = <[auctionId := a']> (auctions db) →
  bids_by t db → bids_by t' db'.
Proof.
  intros Hle Ha Hbids HA Hby x ax. rewrite HA. intros Hx.
  assert (∃ a0, auctions db !! x = Some a0 ∧ Auction.bids ax = Auction.bids a0)
    as (a0 & Hx0 & ->).
  { destruct (decide (x = auctionId)) as [->|Hne]; simplify_map_eq; eauto. }
  destruct (Hby _ _ Hx0) as [Hmax Hord]. split; [|done].
  intros b Hb. specialize (Hmax b Hb). lia.
Qed.

Lemma transition_bids_by t clock db db' :
  (t ≤ now0 clock ∧ now0 clock ≤ now1 clock ∧ now1 clock ≤ now2 clock
   ∧ now2 clock ≤ now3 clock)%Z →
  Transition clock db db' → bids_by t db → bids_by (now3 clock) db'.
Proof.
  intros Hclock [HT HP HA
                | playerId timerDuration P HP0 Hunsold HT HP HA
                | auctionId teamId amount a team Ha Hlive Ht Hhigh Hrich HT HP HA
                | auctionId a status teamId soldPrice Ha Hlive HT HP HA
                | auctionId a bidder team Ha Hlive Hlead Ht HT HP HA] Hby.
  - apply (bids_by_mono t _ db); [lia | done | done].
  - intros x ax. rewrite HA. intros Hx.
    destruct (decide (x = "AUC-" +:+ pretty (now0 clock))) as [->|Hne];
      simplify_map_eq.
    + split; [intros b Hb; by apply elem_of_nil in Hb|].
      intros i j bi bj _ Hi. by rewrite lookup_nil in Hi.
    + destruct (Hby _ _ Hx) as [Hmax Hord]. split; [|done].
      intros b Hb. specialize (Hmax b Hb). lia.
  - intros x ax. rewrite HA. intros Hx.
    destruct (decide (x = auctionId)) as [->|Hne]; simplify_map_eq.
    + destruct (Hby _ _ Ha) as [Hmax Hord].
      cbn [recordBid Auction.bids]. split.
      * intros b [Hb | ->%list_elem_of_singleton]%elem_of_app.
        -- specialize (Hmax b Hb). lia.
        -- cbn [Bid.timestamp]. lia.
      * intros i j bi bj Hij Hi Hj.
        assert (Hjlen : (j < length (Auction.bids a ++ [_]))%nat)
          by (eapply lookup_lt_Some; exact Hj).
        rewrite length_app in Hjlen. cbn [length] in Hjlen.
        rewrite lookup_app_l in Hi by lia.
        destruct (decide (j < length (Auction.bids a))%nat) as [Hold|Hnew].
        -- rewrite lookup_app_l in Hj by done. by apply (Hord i j).
        -- rewrite lookup_app_r in Hj by lia.
           replace (j - length (Auction.bids a))%nat with 0%nat in Hj by lia.
           injection Hj as <-. cbn [Bid.timestamp].
           assert (Bid.timestamp bi ≤ t)%Z
             by (apply Hmax; by eapply list_elem_of_lookup_2).
           lia.
    + destruct (Hby _ _ Hx) as [Hmax Hord]. split; [|done].
      intros b Hb. specialize (Hmax b Hb). lia.
  - apply (bids_by_replace t _ db db' auctionId a (complete (now0 clock) a));
      [lia | done | done | done | done].
  - apply (bids_by_replace t _ db db' auctionId a (complete (now0 clock) a));
      [lia | done | done | done | done].
Qed.

Lemma run_bids_by trace t db :
  chronological t trace → bids_by t db → ∃ t', bids_by t' (run trace db).
Proof.
  revert t db. induction trace as [|[clock call] trace IH]; intros t db Htr Hby.
  - by exists t.
  - destruct Htr as [Hclock Hrest].
    apply (IH (now3 clock) (step db (clock, call))); [done|].
    apply (transition_bids_by t clock db); [done | apply step_transition | done].
Qed.

Lemma seeded_bids_by t random : bids_by t (seeded random).
Proof. intros auctionId a. by rewrite seeded_auctions, lookup_empty. Qed.

(** ** Invariants of reachable stores *)

(** C6.  Monotonic bids: in every auction of every reachable store a later
    bid has a strictly larger amount than an earlier one, and, the clock
    never running backwards along the calls, a timestamp that is not
    smaller. *)
Theorem bids_monotonic random trace auctionId a i j bi bj :
  auctions (run trace (seeded random)) !! auctionId = Some a →
  (i < j)%nat →
  Auction.bids a !! i = Some bi →
  Auction.bids a !! j = Some bj →
  Bid.amount bi < Bid.amount bj
  ∧ ∀ t0, chronological t0 trace → (Bid.timestamp bi ≤ Bid.timestamp bj)%Z.
Proof.
  intros Ha Hij Hi Hj. split.
  - assert (Consistent (run trace (seeded random))) as Hdb
      by apply run_consistent, seeded_consistent.
    destruct (bids_rising _ Hdb _ _ Ha) as [_ Hrise]. by apply (Hrise i j).
  - intros t0 Htrace.
    destruct (run_bids_by trace t0 (seeded random) Htrace (seeded_bids_by t0 random))
      as (t' & Hby).
    destruct (Hby _ _ Ha) as [_ Hord]. by apply (Hord i j).
Qed.

(** Timestamps need not rise strictly: two bids accepted in the same
    millisecond carry the same timestamp. *)
Example bids_same_millisecond :
  chronological 0 twoBids
  ∧ auctions (run twoBids (seeded lowDraws)) !! "AUC-1000" = Some auctionCSK
  ∧ Bid.timestamp bidMI = Bid.timestamp bidCSK.
Proof. split; [cbn; lia|]. split; [vm_compute; reflexivity | reflexivity]. Qed.

(** C7.  Single leader: in every auction of every reachable store the
    current bidder is defined exactly when the bid list is not empty, and is
    then the team of the last bid; the current bid is the amount of the last
    bid, or the base price of the auction's player when there is no bid. *)
Theorem single_leader db auctionId a :
  reachable db →
  auctions db !! auctionId = Some a →
  (is_Some (Auction.currentBidder a) ↔ Auction.bids a ≠ [])
  ∧ Auction.currentBidder a = Bid.teamId <$> last (Auction.bids a)
  ∧ ∃ p, players db !! Auction.player a = Some p
         ∧ Auction.currentBid a
           = from_option Bid.amount (Player.basePrice p) (last (Auction.bids a)).
Proof.
  intros Hdb%reachable_consistent Ha.
  destruct (leader_last db Hdb _ _ Ha) as (Hlead & Hbid).
  split; [|done]. rewrite Hlead, fmap_is_Some.
  rewrite <- not_eq_None_Some, last_None. done.
Qed.

(** C4.  The purse bound [0 ≤ remainingPurse] fails in a reachable store: MI
    leads two live auctions with a bid of 60 in each, each bid within its
    purse of 100 when placed, and the two settlements leave it at -20. *)
Theorem purse_overdrawn :
  reachable (run doubleLeader (seeded lowDraws))
  ∧ teams (seeded lowDraws) !! "MI" = Some teamMI
  ∧ teams (run doubleLeader (seeded lowDraws)) !! "MI" = Some teamMI_overdrawn
  ∧ Team.remainingPurse teamMI_overdrawn < 0.
Proof.
  split; [by exists lowDraws, doubleLeader|].
  split; [vm_compute; reflexivity|].
  split; [vm_compute; reflexivity|]. reflexivity.
Qed.

(** ** Worked instances *)

(** CSK bids 8 against MI's 10: the bid is too low and nothing changes. *)
Lemma placeBid_first_failure_wins_witness :
  success (placeBid (at_time 3000) "AUC-1000" "CSK" 8 biddingDb).2 = false
  ∧ default false (bidLocks biddingDb !! "AUC-1000") = false
  ∧ same_entities biddingDb (placeBid (at_time 3000) "AUC-1000" "CSK" 8 biddingDb).1
  ∧ (placeBid (at_time 3000) "AUC-1000" "CSK" 8 biddingDb).2
    = rejected (errorMessage BidTooLow).
Proof.
  assert (success (placeBid (at_time 3000) "AUC-1000" "CSK" 8 biddingDb).2 = false)
    as Hfail by (vm_compute; reflexivity).
  assert (default false (bidLocks biddingDb !! "AUC-1000") = false)
    as Hfree by (vm_compute; reflexivity).
  assert (firstFailure biddingDb "AUC-1000" "CSK" 8 = Some BidTooLow)
    as Hfirst by (vm_compute; reflexivity).
  destruct (placeBid_first_failure_wins (at_time 3000) "AUC-1000" "CSK" 8 biddingDb)
    as [Hsame Herr].
  specialize (Hsame Hfail). specialize (Herr Hfree). rewrite Hfirst in Herr.
  split; [exact Hfail|]. split; [exact Hfree|]. split; [exact Hsame | exact Herr].
Defined.


(** Settling the auction MI leads, twice. *)
Lemma completeAuction_twice_witness :
  auctions biddingDb !! "AUC-1000" = Some auctionMI
  ∧ Auction.status auctionMI = live
  ∧ completeAuction (at_time 4000) "AUC-1000"
      (completeAuction (at_time 3000) "AUC-1000" biddingDb).1
    = ((completeAuction (at_time 3000) "AUC-1000" biddingDb).1, None).
Proof.
  assert (auctions biddingDb !! "AUC-1000" = Some auctionMI)
    as Ha by (vm_compute; reflexivity).
  split; [exact Ha|]. split; [reflexivity|].
  exact (proj2 (completeAuction_twice (at_time 3000) (at_time 4000) "AUC-1000"
                  biddingDb auctionMI Ha eq_refl)).
Defined.

(** The two bids of [twoBids]. *)
Lemma bids_monotonic_witness :
  auctions (run twoBids (seeded lowDraws)) !! "AUC-1000" = Some auctionCSK
  ∧ (0 < 1)%nat
  ∧ Auction.bids auctionCSK !! 0%nat = Some bidMI
  ∧ Auction.bids auctionCSK !! 1%nat = Some bidCSK
  ∧ chronological 0 twoBids
  ∧ Bid.amount bidMI < Bid.amount bidCSK
  ∧ (Bid.timestamp bidMI ≤ Bid.timestamp bidCSK)%Z.
Proof.
  assert (auctions (run twoBids (seeded lowDraws)) !! "AUC-1000" = Some auctionCSK)
    as Ha by (vm_compute; reflexivity).
  assert (0 < 1)%nat as Hlt by lia.
  assert (chronological 0 twoBids) as Hclock by (cbn; lia).
  destruct (bids_monotonic lowDraws twoBids "AUC-1000" auctionCSK 0 1 bidMI bidCSK
              Ha Hlt eq_refl eq_refl) as [Hamount Htime].
  split; [exact Ha|]. split; [exact Hlt|]. do 2 (split; [reflexivity|]).
  split; [exact Hclock|]. split; [exact Hamount | exact (Htime 0%Z Hclock)].
Defined.

(** The leader of the auction MI has bid 10 in. *)
Lemma single_leader_witness :
  reachable biddingDb
  ∧ auctions biddingDb !! "AUC-1000" = Some auctionMI
  ∧ Auction.currentBidder auctionMI = Bid.teamId <$> last (Auction.bids auctionMI)
  ∧ ∃ p, players biddingDb !! Auction.player auctionMI = Some p
         ∧ Auction.currentBid auctionMI
           = from_option Bid.amount (Player.basePrice p) (last (Auction.bids auctionMI)).
Proof.
  assert (reachable biddingDb) as Hdb.
  { exists lowDraws. eexists. reflexivity. }
  assert (auctions biddingDb !! "AUC-1000" = Some auctionMI)
    as Ha by (vm_compute; reflexivity).
  split; [exact Hdb|]. split; [exact Ha|].
  exact (proj2 (single_leader biddingDb "AUC-1000" auctionMI Hdb Ha)).
Defined.

(** CSK outbids MI with 12. *)
Lemma placeBid_frame_witness :
  success (placeBid (at_time 3000) "AUC-1000" "CSK" 12 biddingDb).2 = true
  ∧ teams (placeBid (at_time 3000) "AUC-1000" "CSK" 12 biddingDb).1 = teams biddingDb
  ∧ players (placeBid (at_time 3000) "AUC-1000" "CSK" 12 biddingDb).1
    = players biddingDb.
Proof.
  assert (success (placeBid (at_time 3000) "AUC-1000" "CSK" 12 biddingDb).2 = true)
    as Hok by (vm_compute; reflexivity).
  split; [exact Hok|].
  destruct (placeBid_frame (at_time 3000) "AUC-1000" "CSK" 12 biddingDb Hok)
    as (a & a' & b & act & _ & _ & _ & _ & _ & _ & _ & _ & _ & _ & _ & _ & _ & _ & _
        & Hteams & Hplayers).
  split; [exact Hteams | exact Hplayers].
Defined.

(** An auction for P001 opened on the seeded store and settled at once. *)
Lemma create_then_settle_witness :
  players (seeded lowDraws) !! "P001" = Some (playerP001 Unsold)
  ∧ Player.status (playerP001 Unsold) = Unsold
  ∧ ∃ a, (createAuction (at_time 1000) "P001" None (seeded lowDraws)).2 = Some a
         ∧ Auction.currentBid a = Player.basePrice (playerP001 Unsold)
         ∧ Auction.bids a = []
         ∧ teams (completeAuction (at_time 2000) (Auction.id a)
                    (createAuction (at_time 1000) "P001" None (seeded lowDraws)).1).1
           = teams (seeded lowDraws).
Proof.
  assert (players (seeded lowDraws) !! "P001" = Some (playerP001 Unsold))
    as Hp by (vm_compute; reflexivity).
  split; [exact Hp|]. split; [reflexivity|].
  destruct (create_then_settle (at_time 1000) (at_time 2000) "P001" None
              (seeded lowDraws) (playerP001 Unsold) Hp eq_refl)
    as (a & Hret & _ & _ & _ & Hbid & Hbids & a' & P' & act & _ & _ & _ & _ & _
        & Hteams & _).
  exists a. split; [exact Hret|]. split; [exact Hbid|].
  split; [exact Hbids | exact Hteams].
Defined.

(** No player has the id P999. *)
Lemma createAuction_unknown_player_witness :
  players (seeded lowDraws) !! "P999" = None
  ∧ (createAuction (at_time 1000) "P999" None (seeded lowDraws)).2 = None
  ∧ (createAuction (at_time 1000) "P999" None (seeded lowDraws)).1 = seeded lowDraws.
Proof.
  assert (players (seeded lowDraws) !! "P999" = None) as Hp by (vm_compute; reflexivity).
  split; [exact Hp|].
  exact (createAuction_unknown_player (at_time 1000) "P999" None (seeded lowDraws) Hp).
Defined.

(** ** The activity log *)

Lemma addActivity_take act db :
  (length (activities db) ≤ 100)%nat →
  activities (addActivity act db) = take 100 (act :: activities db).
Proof.
  intros Hlen. unfold addActivity. cbn [with_activities activities].
  destruct (100 <? length (act :: activities db))%nat eqn:Hfull.
  - apply Nat.ltb_lt in Hfull. cbn [length] in Hfull.
    rewrite removelast_firstn_len. cbn [length Nat.pred].
    by replace (length (activities db)) with 100%nat by lia.
  - apply Nat.ltb_ge in Hfull. by rewrite take_ge.
Qed.

(** What a call does to the log: nothing, or one [addActivity]. *)
Lemma step_activities db ev :
  activities (step db ev) = activities db
  ∨ ∃ act, activities (step db ev) = activities (addActivity act db).
Proof.
  destruct ev as [clock [playerId timerDuration | auctionId teamId amount | auctionId]];
    cbn [step].
  - destruct (players db !! playerId) as [P|] eqn:HP.
    + destruct (decide (Player.status P = Unsold)) as [Hunsold|Hnot].
      * pose proof (createAuction_unsold clock _ timerDuration _ _ HP Hunsold) as Heq.
        cbv zeta in Heq. rewrite Heq. right. by eexists.
      * rewrite (createAuction_not_unsold _ _ _ _ _ HP Hnot). by left.
    + rewrite (createAuction_rejects_missing _ _ _ _ HP). by left.
  - destruct (success (placeBid clock auctionId teamId amount db).2) eqn:Hok.
    + destruct (placeBid_accepted _ _ _ _ _ Hok) as (a & team & _ & _ & _ & _ & _ & Heq).
      cbv zeta in Heq. rewrite Heq. right. by eexists.
    + destruct (placeBid_rejected _ _ _ _ _ Hok) as (_ & _ & _ & ->). by left.
  - destruct (auctions db !! auctionId) as [a|] eqn:Ha.
    2: { rewrite (completeAuction_rejects_missing _ _ _ Ha). by left. }
    destruct (decide (Auction.status a = live)) as [Hlive|Hnot].
    2: { rewrite (completeAuction_rejects_not_live _ _ _ _ Ha Hnot). by left. }
    destruct (truthy (Auction.currentBidder a)) as [bidder|] eqn:Hlead.
    + destruct (teams db !! bidder) as [team|] eqn:Ht.
      * pose proof (completeAuction_sold clock _ _ _ _ _ Ha Hlive Hlead Ht) as Heq.
        cbv zeta in Heq. rewrite Heq. right. by eexists.
      * rewrite (completeAuction_sold_no_team clock _ _ _ _ Ha Hlive Hlead Ht).
        left. cbn [fst].
        by rewrite (proj2 (proj2 (updatePlayerStatus_frame _ _ _ _ _))).
    + pose proof (completeAuction_unsold clock _ _ _ Ha Hlive Hlead) as Heq.
      cbv zeta in Heq. rewrite Heq. right. by eexists.
Qed.

(** X1.  The activity log is bounded: in every reachable store it holds at
    most 100 entries. *)
Theorem activities_bounded db :
  reachable db → (length (activities db) ≤ 100)%nat.
Proof.
  intros (random & trace & ->).
  assert (length (activities (seeded random)) ≤ 100)%nat as Hseed by (cbn; lia).
  revert Hseed. generalize (seeded random).
  induction trace as [|ev trace IH]; intros db Hdb; [done|].
  apply IH. destruct (step_activities db ev) as [-> | (act & ->)]; [done|].
  rewrite addActivity_take by done. rewrite length_take. lia.
Qed.

(** X2.  On a log within its capacity, [addActivity] puts the new entry
    first, keeps the others in their order, and drops the oldest entry
    exactly when the log was full. *)
Theorem addActivity_ring act db :
  (length (activities db) ≤ 100)%nat →
  activities (addActivity act db)
  = act :: (if decide (length (activities db) = 100)%nat
            then removelast (activities db) else activities db).
Proof.
  intros Hlen. rewrite addActivity_take by done.
  destruct (decide (length (activities db) = 100)%nat) as [Hfull|Hroom].
  - change (take 100 (act :: activities db)) with (act :: take 99 (activities db)).
    rewrite removelast_firstn_len, Hfull. done.
  - change (take 100 (act :: activities db)) with (act :: take 99 (activities db)).
    by rewrite take_ge by lia.
Qed.

Lemma slice_to_prefix {A} (end_ : Z) (l : list A) : slice_to end_ l `prefix_of` l.
Proof. unfold slice_to. apply prefix_take. Qed.

(** X3.  [getRecentActivities] returns a prefix of the log (the newest
    entries), of [limit] entries or the whole log if that is shorter when
    [limit] is not negative; a negative [limit] does not give an empty list
    but cuts that many entries off the end of the log. *)
Theorem getRecentActivities_prefix limit db :
  getRecentActivities limit db `prefix_of` activities db
  ∧ ((0 ≤ default 20 limit)%Z →
     length (getRecentActivities limit db)
     = Nat.min (Z.to_nat (default 20%Z limit)) (length (activities db)))
  ∧ ((default 20 limit < 0)%Z →
     length (getRecentActivities limit db)
     = (length (activities db) - Z.to_nat (- default 20%Z limit))%nat).
Proof.
  unfold getRecentActivities. split; [apply slice_to_prefix|].
  unfold slice_to. split; intros Hlimit; rewrite length_take.
  - destruct (Z.ltb_spec (default 20%Z limit) 0); lia.
  - destruct (Z.ltb_spec (default 20%Z limit) 0); lia.
Qed.

(** X4.  The feed shows the latest event first: after an entry is logged,
    [getRecentActivities] with a positive limit starts with it. *)
Theorem getRecentActivities_latest act limit db :
  (0 < default 20 limit)%Z →
  head (getRecentActivities limit (addActivity act db)) = Some act.
Proof.
  intros Hpos. unfold getRecentActivities, slice_to.
  pose proof (addActivity_head act db) as Hhead.
  destruct (activities (addActivity act db)) as [|first rest]; [done|].
  injection Hhead as ->.
  destruct (Z.ltb_spec (default 20%Z limit) 0); [lia|].
  cbn [length].
  destruct (Z.to_nat (Z.min (default 20%Z limit) (Z.of_nat (S (length rest))))) eqn:Hn;
    [lia | done].
Qed.

(** ** Initialisation and the seed *)

Lemma step_isDbInitialized db ev : isDbInitialized (step db ev) = isDbInitialized db.
Proof.
  destruct ev as [clock [playerId timerDuration | auctionId teamId amount | auctionId]];
    cbn [step].
  - unfold createAuction, updatePlayerStatus.
    repeat (match goal with
            | |- context [match ?x with _ => _ end] => destruct x eqn:?
            end; db_unfold; try done).
  - unfold placeBid.
    destruct (default false (bidLocks db !! auctionId)); [done|].
    destruct (placeBid_try _ _ _ _ _) as [db2 result] eqn:Htry. db_unfold.
    unfold placeBid_try in Htry. db_unfold.
    repeat match type of Htry with
           | match ?x with _ => _ end = _ => destruct x
           end; by injection Htry as <- _.
  - unfold completeAuction, updatePlayerStatus, updateTeamPurse, addPlayerToTeam;
      repeat (match goal with
              | |- context [match ?x with _ => _ end] => destruct x
              | |- context [if ?x then _ else _] => destruct x
              end; db_unfold; try done).
Qed.

(** X5.  Initialisation happens once: on an initialised store, and so on
    every reachable store, [initializeDatabase] changes nothing, whatever it
    would draw; the auctions and sales made so far survive a reload of the
    module. *)
Theorem initializeDatabase_once random db :
  reachable db → initializeDatabase random db = db.
Proof.
  intros (random0 & trace & ->).
  assert (isDbInitialized (run trace (seeded random0)) = true) as Hinit.
  { assert (isDbInitialized (seeded random0) = true) as Hseed by done.
    revert Hseed. generalize (seeded random0).
    induction trace as [|ev trace IH]; intros db Hdb; [done|].
    apply IH. by rewrite step_isDbInitialized. }
  unfold initializeDatabase. by rewrite Hinit.
Qed.

Lemma foldl_insert_lookup_key {A} (key : A → string) (l : list A) (m : gmap string A) k v :
  foldl (λ m x, <[key x := x]> m) m l !! k = Some v →
  (v ∈ l ∧ key v = k) ∨ m !! k = Some v.
Proof.
  revert m. induction l as [|x l IH]; intros m Hk; [by right|].
  cbn [foldl] in Hk. destruct (IH _ Hk) as [[Hin Hkey] | Hm].
  - left. split; [by apply list_elem_of_further | done].
  - destruct (decide (key x = k)) as [<-|Hne]; simplify_map_eq.
    + left. split; [apply list_elem_of_here | done].
    + by right.
Qed.

Lemma foldl_insert_lookup_NoDup {A} (key : A → string) (l : list A) (m : gmap string A) v :
  NoDup (key <$> l) → v ∈ l →
  foldl (λ m x, <[key x := x]> m) m l !! key v = Some v.
Proof.
  revert m. induction l as [|x l IH]; intros m Hnodup Hin; [by apply elem_of_nil in Hin|].
  cbn [fmap list_fmap] in Hnodup. apply NoDup_cons in Hnodup as [Hfresh Hnodup].
  cbn [foldl]. apply elem_of_cons in Hin as [-> | Hin]; [|by apply IH].
  clear IH. revert m. induction l as [|y l IH]; intros m.
  - apply lookup_insert_eq.
  - cbn [foldl]. cbn [fmap list_fmap] in Hfresh, Hnodup.
    apply not_elem_of_cons in Hfresh as [Hne Hfresh].
    apply NoDup_cons in Hnodup as [_ Hnodup].
    rewrite insert_insert_ne by done. by apply IH.
Qed.

Lemma seeded_players random playerId p :
  players (seeded random) !! playerId = Some p →
  ∃ index name, playerNames !! index = Some name
                ∧ p = generatePlayer random index name
                ∧ Player.id p = playerId.
Proof.
  unfold seeded, initializeDatabase. cbn [isDbInitialized emptyDb players].
  intros H. apply foldl_insert_lookup_key in H as [[Hin Hkey]|H].
  - unfold generatePlayers in Hin. apply elem_of_lookup_imap in Hin as (i & name & -> & Hi).
    by exists i, name.
  - by rewrite lookup_empty in H.
Qed.

Lemma Qfloor_lt_bound (x : Q) (z : Z) : x < inject_Z z → (Qfloor x < z)%Z.
Proof.
  intros Hx. rewrite Zlt_Qlt. eapply Qle_lt_trans; [apply Qfloor_le | done].
Qed.

Lemma Qfloor_nonneg (x : Q) : 0 <= x → (0 ≤ Qfloor x)%Z.
Proof. intros Hx. change 0%Z with (Qfloor 0). by apply Qfloor_resp_le. Qed.

(** X6.  Whatever [Math.random] returns, a seeded player is stored under its
    own id, is [Unsold] with no team and no sold price, and has a base price
    of at least 0.5; for draws in [0, 1) the base price is at most 15.5 and
    the age lies between 20 and 34. *)
Theorem seeded_player_ranges random playerId p :
  players (seeded random) !! playerId = Some p →
  Player.id p = playerId
  ∧ Player.status p = Unsold
  ∧ Player.teamId p = None
  ∧ Player.soldPrice p = None
  ∧ (1 # 2) <= Player.basePrice p
  ∧ ((∀ k, 0 <= random k < 1) →
     Player.basePrice p <= (31 # 2) ∧ (20 ≤ Player.age p ≤ 34)%Z).
Proof.
  intros (index & name & _ & -> & Hid)%seeded_players.
  split; [done|]. do 3 (split; [done|]).
  cbn [generatePlayer Player.basePrice Player.age].
  split; [apply Q.le_max_l|].
  intros Hrandom. split.
  - apply Q.max_lub; [done|].
    destruct (Hrandom (2 * index)%nat) as [Hlo Hhi].
    assert (math_round ((random (2 * index)%nat * 15 + (1 # 2)) * 10) < 156)%Z as Hround.
    { unfold math_round. apply Qfloor_lt_bound.
      change (inject_Z 156) with 156. lra. }
    assert (inject_Z (math_round ((random (2 * index)%nat * 15 + (1 # 2)) * 10)) <= 155)
      as Hle.
    { change 155 with (inject_Z 155). rewrite <- Zle_Qle. lia. }
    apply Qle_shift_div_r; [done|]. lra.
  - destruct (Hrandom (2 * index + 1)%nat) as [Hlo Hhi].
    assert (0 ≤ Qfloor (random (2 * index + 1)%nat * 15))%Z
      by (apply Qfloor_nonneg; lra).
    assert (Qfloor (random (2 * index + 1)%nat * 15) < 15)%Z.
    { apply Qfloor_lt_bound. change (inject_Z 15) with 15. lra. }
    lia.
Qed.

Lemma generated_ids_NoDup random : NoDup (Player.id <$> generatePlayers random).
Proof.
  assert (Player.id <$> generatePlayers random
          = imap (λ index (_ : string), "P" +:+ padStart 3 "0" (pretty (index + 1)%nat))
                 playerNames) as ->.
  { unfold generatePlayers. rewrite fmap_imap. done. }
  apply (bool_decide_unpack _). vm_compute. done.
Qed.

(** X7.  No two seeded players collide: each of the 100 names is stored, as
    generated, under the id built from its position ([P001] for the first
    name, [P100] for the last). *)
Theorem seeded_player_lookup random index name :
  playerNames !! index = Some name →
  players (seeded random) !! ("P" +:+ padStart 3 "0" (pretty (index + 1)%nat))
  = Some (generatePlayer random index name).
Proof.
  intros Hname. unfold seeded, initializeDatabase. cbn [isDbInitialized emptyDb players].
  apply (foldl_insert_lookup_NoDup Player.id (generatePlayers random) ∅
           (generatePlayer random index name)).
  - apply generated_ids_NoDup.
  - unfold generatePlayers. apply elem_of_lookup_imap. by exists index, name.
Qed.

(** ** Creation: guard, frame and ids *)

(** X8.  [createAuction] returns [null] exactly when the player is missing
    or is not [Unsold] (in a live auction, or sold), and then the store is
    left as it was. *)
Theorem createAuction_guard clock playerId timerDuration db :
  ((createAuction clock playerId timerDuration db).2 = None
   ↔ ¬ ∃ p, players db !! playerId = Some p ∧ Player.status p = Unsold)
  ∧ ((createAuction clock playerId timerDuration db).2 = None →
     (createAuction clock playerId timerDuration db).1 = db).
Proof.
  destruct (players db !! playerId) as [p|] eqn:Hp.
  - destruct (decide (Player.status p = Unsold)) as [Hunsold|Hnot].
    + pose proof (createAuction_unsold clock _ timerDuration _ _ Hp Hunsold) as Heq.
      cbv zeta in Heq. rewrite Heq. cbn [fst snd].
      split; [|done]. split; [done|]. intros Hno. destruct Hno. by exists p.
    + rewrite (createAuction_not_unsold _ _ _ _ _ Hp Hnot). cbn [fst snd].
      split; [|done]. split; [|done]. intros _ (p' & [= <-] & Hst). done.
  - rewrite (createAuction_rejects_missing _ _ _ _ Hp). cbn [fst snd].
    split; [|done]. split; [|done]. intros _ (p' & [=] & _).
Qed.

Lemma createAuction_stored clock playerId timerDuration db a :
  (createAuction clock playerId timerDuration db).2 = Some a →
  Auction.id a = "AUC-" +:+ pretty (now0 clock)
  ∧ auctions (createAuction clock playerId timerDuration db).1
    = <[Auction.id a := a]> (auctions db).
Proof.
  intros Hret. destruct (players db !! playerId) as [p|] eqn:Hp.
  2: { by rewrite (createAuction_rejects_missing _ _ _ _ Hp) in Hret. }
  destruct (decide (Player.status p = Unsold)) as [Hunsold|Hnot].
  2: { by rewrite (createAuction_not_unsold _ _ _ _ _ Hp Hnot) in Hret. }
  pose proof (createAuction_unsold clock _ timerDuration _ _ Hp Hunsold) as Heq.
  cbv zeta in Heq. rewrite Heq in Hret |- *. by injection Hret as <-.
Qed.

(** X9.  A successful [createAuction] stores the auction it returns under
    the id [AUC-<clock>], turns the player [Live] keeping its base price,
    logs one [auction_start] activity, and touches nothing else: the teams,
    every other player and every auction under another id stay as they
    were. *)
Theorem createAuction_frame clock playerId timerDuration db a :
  (createAuction clock playerId timerDuration db).2 = Some a →
  let db' := (createAuction clock playerId timerDuration db).1 in
  Auction.id a = "AUC-" +:+ pretty (now0 clock)
  ∧ Auction.timerDuration a = default 60 timerDuration
  ∧ Auction.startTime a = now1 clock
  ∧ auctions db' !! Auction.id a = Some a
  ∧ (∀ other, other ≠ Auction.id a → auctions db' !! other = auctions db !! other)
  ∧ teams db' = teams db
  ∧ (∃ p p', players db !! playerId = Some p ∧ players db' !! playerId = Some p'
             ∧ Player.status p' = Live ∧ Player.basePrice p' = Player.basePrice p
             ∧ Player.name p' = Player.name p)
  ∧ (∀ other, other ≠ playerId → players db' !! other = players db !! other)
  ∧ ∃ act, Activity.type act = ActivityType.auction_start
           ∧ Activity.playerId act = Some playerId
           ∧ activities db' = activities (addActivity act db).
Proof.
  intros Hret. destruct (players db !! playerId) as [p|] eqn:Hp.
  2: { by rewrite (createAuction_rejects_missing _ _ _ _ Hp) in Hret. }
  destruct (decide (Player.status p = Unsold)) as [Hunsold|Hnot].
  2: { by rewrite (createAuction_not_unsold _ _ _ _ _ Hp Hnot) in Hret. }
  pose proof (createAuction_unsold clock _ timerDuration _ _ Hp Hunsold) as Heq.
  cbv zeta in Heq. rewrite Heq in Hret |- *. injection Hret as <-.
  cbn [fst snd teams players auctions activities Auction.id Auction.timerDuration
       Auction.startTime].
  split_and!; try done.
  - apply lookup_insert_eq.
  - intros other Hne. by rewrite lookup_insert_ne.
  - eexists p, _. rewrite lookup_insert_eq. done.
  - intros other Hne. by rewrite lookup_insert_ne.
  - eexists. split; [|split]; [ | | reflexivity]; reflexivity.
Qed.

(** X10.  Auction ids come from the clock alone.  When two players are put
    up for auction at the same clock reading, the second auction takes the
    id of the first and replaces it in the store; the first player stays
    [Live], so it cannot be auctioned again. *)
Theorem createAuction_same_clock clock1 clock2 player1 player2 d1 d2 db a1 :
  now0 clock1 = now0 clock2 →
  player1 ≠ player2 →
  (createAuction clock1 player1 d1 db).2 = Some a1 →
  (∃ p, players db !! player2 = Some p ∧ Player.status p = Unsold) →
  let db1 := (createAuction clock1 player1 d1 db).1 in
  let db2 := (createAuction clock2 player2 d2 db1).1 in
  ∃ a2, (createAuction clock2 player2 d2 db1).2 = Some a2
        ∧ Auction.id a2 = Auction.id a1
        ∧ auctions db2 !! Auction.id a1 = Some a2
        ∧ Auction.playerId a2 = player2
        ∧ a2 ≠ a1
        ∧ (∃ p1, players db2 !! player1 = Some p1 ∧ Player.status p1 = Live)
        ∧ ∀ clock d, (createAuction clock player1 d db2).2 = None.
Proof.
  intros Hclock Hne Hret (p2 & Hp2 & Hunsold2).
  destruct (players db !! player1) as [p1|] eqn:Hp1.
  2: { by rewrite (createAuction_rejects_missing _ _ _ _ Hp1) in Hret. }
  destruct (decide (Player.status p1 = Unsold)) as [Hunsold1|Hnot].
  2: { by rewrite (createAuction_not_unsold _ _ _ _ _ Hp1 Hnot) in Hret. }
  pose proof (createAuction_unsold clock1 _ d1 _ _ Hp1 Hunsold1) as Heq1.
  cbv zeta in Heq1. rewrite Heq1 in Hret |- *. injection Hret as <-. cbn [fst].
  match goal with |- context [createAuction clock2 player2 d2 ?d] => set (db1 := d) end.
  assert (players db1 !! player2 = Some p2) as Hp2'.
  { unfold db1. cbn [players]. by rewrite lookup_insert_ne. }
  pose proof (createAuction_unsold clock2 _ d2 _ _ Hp2' Hunsold2) as Heq2.
  cbv zeta in Heq2. rewrite Heq2. cbn [fst snd auctions players Auction.id].
  eexists. split; [done|]. rewrite Hclock.
  split; [done|]. split; [apply lookup_insert_eq|]. split; [done|].
  split; [intros [= ? ?]; done|].
  assert (<[player2:=setStatus Live None None p2]> (players db1) !! player1
          = Some (setStatus Live None None p1)) as Hlive.
  { rewrite lookup_insert_ne by done. unfold db1. cbn [players]. apply lookup_insert_eq. }
  split; [by eexists|].
  intros clock d. erewrite createAuction_not_unsold; [done | exact Hlive | done].
Qed.

(** X11.  With different clock readings the ids differ: a second
    [createAuction] leaves the first auction in the store. *)
Theorem createAuction_distinct_clock clock1 clock2 player1 player2 d1 d2 db a1 a2 :
  now0 clock1 ≠ now0 clock2 →
  (createAuction clock1 player1 d1 db).2 = Some a1 →
  (createAuction clock2 player2 d2 (createAuction clock1 player1 d1 db).1).2 = Some a2 →
  let db2 := (createAuction clock2 player2 d2 (createAuction clock1 player1 d1 db).1).1 in
  Auction.id a1 ≠ Auction.id a2
  ∧ auctions db2 !! Auction.id a1 = Some a1
  ∧ auctions db2 !! Auction.id a2 = Some a2.
Proof.
  intros Hclock Hret1 Hret2 db2.
  destruct (createAuction_stored _ _ _ _ _ Hret1) as (Hid1 & Hauc1).
  destruct (createAuction_stored _ _ _ _ _ Hret2) as (Hid2 & Hauc2).
  assert (Auction.id a1 ≠ Auction.id a2) as Hids.
  { rewrite Hid1, Hid2. intros Heq. apply Hclock.
    apply (inj pretty). by simplify_eq. }
  split; [done|]. unfold db2. rewrite Hauc2, Hauc1. split.
  - rewrite lookup_insert_ne by done. apply lookup_insert_eq.
  - apply lookup_insert_eq.
Qed.

(** ** Settlement: the other branches *)

(** X12.  Settling a live auction nobody has bid in (no current bidder)
    completes it and stamps its end time, puts the player back to [Unsold]
    with no team and no sold price, leaves every team as it was, and logs
    exactly one activity of type [auction_end]. *)
Theorem completeAuction_without_leader clock auctionId db a p :
  auctions db !! auctionId = Some a →
  Auction.status a = live →
  truthy (Auction.currentBidder a) = None →
  players db !! Auction.playerId a = Some p →
  let db' := (completeAuction clock auctionId db).1 in
  ∃ a' p' act,
    (completeAuction clock auctionId db).2 = Some a'
    ∧ auctions db' !! auctionId = Some a'
    ∧ Auction.status a' = completed
    ∧ Auction.endTime a' = Some (now0 clock)
    ∧ Auction.bids a' = Auction.bids a
    ∧ Auction.currentBid a' = Auction.currentBid a
    ∧ players db' !! Auction.playerId a = Some p'
    ∧ Player.status p' = Unsold
    ∧ Player.teamId p' = None
    ∧ Player.soldPrice p' = None
    ∧ Player.basePrice p' = Player.basePrice p
    ∧ teams db' = teams db
    ∧ Activity.type act = ActivityType.auction_end
    ∧ Activity.playerId act = Some (Auction.playerId a)
    ∧ activities db' = activities (addActivity act db).
Proof.
  intros Ha Hlive Hlead Hp.
  pose proof (completeAuction_unsold clock _ _ _ Ha Hlive Hlead) as Heq.
  cbv zeta in Heq. rewrite Heq, Hp. cbn [fst snd teams players auctions activities].
  exists (complete (now0 clock) a), (setStatus Unsold None None p).
  eexists. split_and!;
    [done | by rewrite lookup_insert_eq | done | done | done | done
    | by rewrite lookup_insert_eq | done | done | done | done | done | | | reflexivity];
    reflexivity.
Qed.

(** X13.  [completeAuction] returns [null] exactly when the auction is
    missing or is not live, and then the store is left as it was. *)
Theorem completeAuction_guard clock auctionId db :
  ((completeAuction clock auctionId db).2 = None
   ↔ ¬ ∃ a, auctions db !! auctionId = Some a ∧ Auction.status a = live)
  ∧ ((completeAuction clock auctionId db).2 = None →
     (completeAuction clock auctionId db).1 = db).
Proof.
  destruct (auctions db !! auctionId) as [a|] eqn:Ha.
  - destruct (decide (Auction.status a = live)) as [Hlive|Hnot].
    + destruct (completeAuction_live clock _ _ _ Ha Hlive) as [Hret _]. rewrite Hret.
      split; [|done]. split; [done|]. intros Hno. destruct Hno. by exists a.
    + rewrite (completeAuction_rejects_not_live _ _ _ _ Ha Hnot). cbn [fst snd].
      split; [|done]. split; [|done]. intros _ (a' & [= <-] & Hst). done.
  - rewrite (completeAuction_rejects_missing _ _ _ Ha). cbn [fst snd].
    split; [|done]. split; [|done]. intros _ (a' & [=] & _).
Qed.

(** X14.  An auction that is not live is closed to bids and settlements:
    no [placeBid] and no [completeAuction], whatever auction they name,
    changes it. *)
Theorem closed_auction_frozen clock auctionId teamId amount db id a :
  auctions db !! id = Some a →
  Auction.status a ≠ live →
  auctions (placeBid clock auctionId teamId amount db).1 !! id = Some a
  ∧ auctions (completeAuction clock auctionId db).1 !! id = Some a.
Proof.
  intros Ha Hclosed. split.
  - destruct (success (placeBid clock auctionId teamId amount db).2) eqn:Hok.
    + destruct (placeBid_accepted _ _ _ _ _ Hok)
        as (a0 & team & Ha0 & Hlive & _ & _ & _ & Heq).
      cbv zeta in Heq. rewrite Heq. cbn [fst auctions].
      rewrite lookup_insert_ne; [done|]. intros ->. congruence.
    + destruct (placeBid_rejected _ _ _ _ _ Hok) as (_ & _ & -> & _). done.
  - destruct (auctions db !! auctionId) as [a0|] eqn:Ha0.
    2: { by rewrite (completeAuction_rejects_missing _ _ _ Ha0). }
    destruct (decide (Auction.status a0 = live)) as [Hlive|Hnot].
    2: { by rewrite (completeAuction_rejects_not_live _ _ _ _ Ha0 Hnot). }
    destruct (completeAuction_live clock _ _ _ Ha0 Hlive) as [_ ->].
    rewrite lookup_insert_ne; [done|]. intros ->. congruence.
Qed.

(** ** More invariants of reachable stores *)

Lemma reachable_step db ev : reachable db → reachable (step db ev).
Proof.
  intros (random & trace & ->). exists random, (trace ++ [ev]).
  unfold run. by rewrite foldl_app.
Qed.

Lemma reachable_run db trace : reachable db → reachable (run trace db).
Proof.
  revert db. induction trace as [|ev trace IH]; intros db Hdb; [done|].
  apply IH. by apply reachable_step.
Qed.

Lemma transition_sold_final clock db db' playerId p :
  Consistent db → Transition clock db db' →
  players db !! playerId = Some p → Player.status p = Sold →
  players db' !! playerId = Some p.
Proof.
  intros Hdb [HT HP HA
             | pid timerDuration P HP0 Hunsold HT HP HA
             | auctionId teamId amount a team Ha Hlive Ht Hhigh Hrich HT HP HA
             | auctionId a status teamId soldPrice Ha Hlive HT HP HA
             | auctionId a bidder team Ha Hlive Hlead Ht HT HP HA] Hp Hsold;
    rewrite HP; try done.
  - rewrite lookup_insert_ne; [done|]. intros ->. congruence.
  - destruct (auction_player db Hdb _ _ Ha) as (_ & p0 & Hp0 & Hst). rewrite Hp0.
    rewrite lookup_insert_ne; [done|]. intros Heq. rewrite Heq in Hp0.
    specialize (Hst Hlive). congruence.
  - destruct (auction_player db Hdb _ _ Ha) as (_ & p0 & Hp0 & Hst). rewrite Hp0.
    rewrite lookup_insert_ne; [done|]. intros Heq. rewrite Heq in Hp0.
    specialize (Hst Hlive). congruence.
Qed.

(** X15.  A sale is final: once a player of a reachable store is [Sold], no
    sequence of calls changes its record (status, team, sold price). *)
Theorem sold_player_final db trace playerId p :
  reachable db →
  players db !! playerId = Some p →
  Player.status p = Sold →
  players (run trace db) !! playerId = Some p.
Proof.
  revert db. induction trace as [|[clock call] trace IH]; intros db Hdb Hp Hsold; [done|].
  apply IH; [by apply reachable_step | | done].
  apply (transition_sold_final clock db); [by apply reachable_consistent | | done | done].
  apply step_transition.
Qed.

(** X16.  In a reachable store a player is in at most one live auction, and
    the player of a live auction has status [Live]. *)
Theorem live_auctions_exclusive db id1 id2 a1 a2 :
  reachable db →
  auctions db !! id1 = Some a1 →
  auctions db !! id2 = Some a2 →
  Auction.status a1 = live →
  Auction.status a2 = live →
  (Auction.playerId a1 = Auction.playerId a2 → id1 = id2)
  ∧ ∃ p, players db !! Auction.playerId a1 = Some p ∧ Player.status p = Live.
Proof.
  intros Hdb%reachable_consistent H1 H2 L1 L2. split.
  - by apply (live_unique db Hdb id1 id2 a1 a2).
  - destruct (auction_player db Hdb _ _ H1) as (_ & p & Hp & Hst). eauto.
Qed.

(** *** Prices *)

Lemma priced_update db db' :
  Priced db →
  (players db' = players db
   ∨ ∃ pid p status teamId soldPrice,
       players db !! pid = Some p
       ∧ players db' = <[pid := setStatus status teamId soldPrice p]> (players db)
       ∧ ∀ price, soldPrice = Some price → (1 # 2) <= price) →
  (auctions db' = auctions db
   ∨ ∃ k a, auctions db' = <[k := a]> (auctions db) ∧ (1 # 2) <= Auction.currentBid a) →
  Priced db'.
Proof.
  intros [Hbase Hsold Hbid] HP HA. split.
  - intros k p Hk. destruct HP as [HP | (pid & p0 & st & tid & sp & Hp0 & HP & _)];
      rewrite HP in Hk; [by apply (Hbase k)|].
    destruct (decide (k = pid)) as [->|Hne]; simplify_map_eq; by eauto.
  - intros k p price Hk Hprice.
    destruct HP as [HP | (pid & p0 & st & tid & sp & Hp0 & HP & Hsp)];
      rewrite HP in Hk; [by apply (Hsold k p)|].
    destruct (decide (k = pid)) as [->|Hne]; simplify_map_eq; by eauto.
  - intros k a Hk. destruct HA as [HA | (k0 & a0 & HA & Ha0)];
      rewrite HA in Hk; [by apply (Hbid k)|].
    destruct (decide (k = k0)) as [->|Hne]; simplify_map_eq; by eauto.
Qed.

Lemma step_priced db ev : Priced db → Priced (step db ev).
Proof.
  intros Hdb. pose proof Hdb as [Hbase Hsold Hbid].
  destruct ev as [clock [playerId timerDuration | auctionId teamId amount | auctionId]];
    cbn [step].
  - destruct (players db !! playerId) as [P|] eqn:HP.
    + destruct (decide (Player.status P = Unsold)) as [Hunsold|Hnot].
      * pose proof (createAuction_unsold clock _ timerDuration _ _ HP Hunsold) as Heq.
        cbv zeta in Heq. rewrite Heq. apply (priced_update db); [done | |].
        -- right. exists playerId, P, Live, None, None. by split_and!.
        -- right. eexists _, _. split; [done|]. by apply (Hbase playerId).
      * by rewrite (createAuction_not_unsold _ _ _ _ _ HP Hnot).
    + by rewrite (createAuction_rejects_missing _ _ _ _ HP).
  - destruct (success (placeBid clock auctionId teamId amount db).2) eqn:Hok.
    + destruct (placeBid_accepted _ _ _ _ _ Hok)
        as (a & team & Ha & _ & _ & Hhigh & _ & Heq).
      cbv zeta in Heq. rewrite Heq. apply (priced_update db); [done | by left |].
      right. eexists _, _. split; [done|]. cbn [recordBid Auction.currentBid Bid.amount].
      specialize (Hbid _ _ Ha). lra.
    + destruct (placeBid_rejected _ _ _ _ _ Hok) as (_ & HP & HA & _).
      apply (priced_update db); [done | by left | by left].
  - destruct (auctions db !! auctionId) as [a|] eqn:Ha.
    2: { by rewrite (completeAuction_rejects_missing _ _ _ Ha). }
    destruct (decide (Auction.status a = live)) as [Hlive|Hnot].
    2: { by rewrite (completeAuction_rejects_not_live _ _ _ _ Ha Hnot). }
    destruct (completeAuction_live clock _ _ _ Ha Hlive) as [_ HA].
    apply (priced_update db); [done | |].
    2: { right. eexists _, _. split; [exact HA|]. exact (Hbid auctionId a Ha). }
    destruct (truthy (Auction.currentBidder a)) as [bidder|] eqn:Hlead.
    + assert (players (completeAuction clock auctionId db).1
              = match players db !! Auction.playerId a with
                | Some p => <[Auction.playerId a :=
                                setStatus Sold (Some bidder) (Some (Auction.currentBid a)) p]>
                              (players db)
                | None => players db
                end) as ->.
      { destruct (teams db !! bidder) as [team|] eqn:Ht.
        - pose proof (completeAuction_sold clock _ _ _ _ _ Ha Hlive Hlead Ht) as Heq.
          cbv zeta in Heq. by rewrite Heq.
        - rewrite (completeAuction_sold_no_team clock _ _ _ _ Ha Hlive Hlead Ht).
          cbn [fst]. unfold updatePlayerStatus. db_unfold.
          by destruct (players db !! Auction.playerId a). }
      destruct (players db !! Auction.playerId a) as [p|] eqn:Hp; [|by left].
      right. eexists _, p, _, _, _. split_and!; [done | done |].
      intros price [= <-]. by apply (Hbid auctionId).
    + pose proof (completeAuction_unsold clock _ _ _ Ha Hlive Hlead) as Heq.
      cbv zeta in Heq. rewrite Heq. cbn [fst players].
      destruct (players db !! Auction.playerId a) as [p|] eqn:Hp; [|by left].
      right. eexists _, p, _, _, _. by split_and!.
Qed.

Lemma seeded_priced random : Priced (seeded random).
Proof.
  split.
  - intros k p (index & name & _ & -> & _)%seeded_players. apply Q.le_max_l.
  - intros k p price (index & name & _ & -> & _)%seeded_players. done.
  - intros k a. by rewrite seeded_auctions, lookup_empty.
Qed.

Lemma reachable_priced db : reachable db → Priced db.
Proof.
  intros (random & trace & ->). generalize (seeded_priced random).
  generalize (seeded random).
  induction trace as [|ev trace IH]; intros db Hdb; [done|].
  apply IH. by apply step_priced.
Qed.

Lemma rosterSpend_nonneg (P : gmap string Player.t) roster spent :
  (∀ k p price, P !! k = Some p → Player.soldPrice p = Some price → (1 # 2) <= price) →
  rosterSpend P roster = Some spent → 0 <= spent.
Proof.
  intros Hfloor. revert spent. induction roster as [|q rest IH]; intros spent Hspent.
  - injection Hspent as <-. lra.
  - cbn [rosterSpend] in Hspent. unfold soldPriceOf in Hspent.
    destruct (P !! q) as [p|] eqn:Hq; [|done]. cbn in Hspent.
    destruct (Player.soldPrice p) as [price|] eqn:Hprice; [|done].
    destruct (rosterSpend P rest) as [total|]; [|done].
    injection Hspent as <-.
    specialize (IH total eq_refl). specialize (Hfloor _ _ _ Hq Hprice). lra.
Qed.

(** X17.  In every reachable store no team has more purse left than its
    total purse, and every current bid and sold price is at least 0.5. *)
Theorem purse_upper_bound db :
  reachable db →
  (∀ teamId team, teams db !! teamId = Some team →
     Team.remainingPurse team <= Team.totalPurse team)
  ∧ (∀ auctionId a, auctions db !! auctionId = Some a → (1 # 2) <= Auction.currentBid a)
  ∧ (∀ playerId p price, players db !! playerId = Some p →
       Player.soldPrice p = Some price → (1 # 2) <= price).
Proof.
  intros Hdb. pose proof (reachable_priced db Hdb) as [Hbase Hsold Hbid].
  split; [|by split].
  intros teamId team Ht.
  destruct (purse_conserved db (reachable_consistent db Hdb) _ _ Ht)
    as (spent & Hspent & Hpurse).
  pose proof (rosterSpend_nonneg _ _ _ Hsold Hspent). lra.
Qed.

(** *** Leaders *)

Lemma transition_led clock db db' : Led db → Transition clock db db' → Led db'.
Proof.
  intros [Hempty Hled] [HT HP HA
             | pid timerDuration P HP0 Hunsold HT HP HA
             | auctionId teamId amount a team Ha Hlive Ht Hhigh Hrich HT HP HA
             | auctionId a status teamId soldPrice Ha Hlive HT HP HA
             | auctionId a bidder team Ha Hlive Hlead Ht HT HP HA];
    (split; [rewrite HT | intros k a' tid; rewrite HT, HA; intros Hk Hb]).
  - done.
  - by apply (Hled k a').
  - done.
  - destruct (decide (k = "AUC-" +:+ pretty (now0 clock))) as [->|Hne];
      simplify_map_eq; by eauto.
  - done.
  - destruct (decide (k = auctionId)) as [->|Hne]; simplify_map_eq; by eauto.
  - done.
  - destruct (decide (k = auctionId)) as [->|Hne]; simplify_map_eq; by eauto.
  - apply truthy_Some in Hlead as [_ Hne]. by rewrite lookup_insert_ne.
  - assert (is_Some (teams db !! tid)) as Hold.
    { destruct (decide (k = auctionId)) as [->|Hne]; simplify_map_eq; by eauto. }
    destruct (decide (tid = bidder)) as [->|Hne]; simplify_map_eq; by eauto.
Qed.

Lemma seeded_led random : Led (seeded random).
Proof.
  split; [by vm_compute|].
  intros k a tid. by rewrite seeded_auctions, lookup_empty.
Qed.

Lemma reachable_led db : reachable db → Led db.
Proof.
  intros (random & trace & ->). generalize (seeded_led random).
  generalize (seeded random).
  induction trace as [|[clock call] trace IH]; intros db Hdb; [done|].
  apply IH. eapply transition_led; [exact Hdb | apply step_transition].
Qed.

(** X18.  In a reachable store the current bidder of an auction is always
    the non-empty id of an existing team, and the auction's player is the
    stored player of that id: when an auction with a bid is settled, the
    branch that marks the player sold without crediting any team is never
    taken. *)
Theorem leader_is_a_team db auctionId a teamId :
  reachable db →
  auctions db !! auctionId = Some a →
  Auction.currentBidder a = Some teamId →
  truthy (Auction.currentBidder a) = Some teamId
  ∧ is_Some (teams db !! teamId)
  ∧ is_Some (players db !! Auction.playerId a)
  ∧ Auction.player a = Auction.playerId a.
Proof.
  intros Hdb Ha Hb. destruct (reachable_led db Hdb) as [Hempty Hled].
  pose proof (Hled _ _ _ Ha Hb) as Hteam.
  destruct (auction_player db (reachable_consistent db Hdb) _ _ Ha) as (Hsame & p & Hp & _).
  split_and!; [|done | by exists p | done].
  apply truthy_Some. split; [done|]. intros ->. rewrite Hempty in Hteam.
  by destruct Hteam.
Qed.

(** ** Collections and dashboard metrics *)

Lemma transition_doms clock db db' :
  Transition clock db db' →
  dom (teams db') = dom (teams db) ∧ dom (players db') = dom (players db).
Proof.
  intros [HT HP HA
         | pid timerDuration P HP0 Hunsold HT HP HA
         | auctionId teamId amount a team Ha Hlive Ht Hhigh Hrich HT HP HA
         | auctionId a status teamId soldPrice Ha Hlive HT HP HA
         | auctionId a bidder team Ha Hlive Hlead Ht HT HP HA];
    rewrite HT, HP; split; try done.
  - by apply dom_insert_lookup_L.
  - destruct (players db !! Auction.playerId a) eqn:Hp; [|done].
    by apply dom_insert_lookup_L.
  - by apply dom_insert_lookup_L.
  - destruct (players db !! Auction.playerId a) eqn:Hp; [|done].
    by apply dom_insert_lookup_L.
Qed.

Lemma run_doms trace db :
  dom (teams (run trace db)) = dom (teams db)
  ∧ dom (players (run trace db)) = dom (players db).
Proof.
  revert db. induction trace as [|[clock call] trace IH]; intros db; [done|].
  destruct (IH (step db (clock, call))) as [HT HP].
  destruct (transition_doms clock db _ (step_transition clock call db)) as [HT' HP'].
  split; [by rewrite <- HT' | by rewrite <- HP'].
Qed.

Lemma length_values {A} (m : gmap string A) : length (values m) = size m.
Proof. unfold values. by rewrite length_fmap, length_map_to_list. Qed.

Lemma elem_of_values {A} (m : gmap string A) (x : A) :
  x ∈ values m ↔ ∃ k, m !! k = Some x.
Proof.
  unfold values. rewrite list_elem_of_fmap. split.
  - intros ([k y] & -> & Hin). exists k. by apply elem_of_map_to_list.
  - intros (k & Hk). exists (k, x). split; [done|]. by apply elem_of_map_to_list.
Qed.

(** X19.  No call adds or removes a team or a player: along every run the
    key sets of the two collections, and with them the team and player
    totals of the dashboard, stay what they were. *)
Theorem collections_fixed trace db :
  dom (teams (run trace db)) = dom (teams db)
  ∧ dom (players (run trace db)) = dom (players db)
  ∧ totalTeams (getDashboardMetrics (run trace db)) = totalTeams (getDashboardMetrics db)
  ∧ totalPlayers (getDashboardMetrics (run trace db))
    = totalPlayers (getDashboardMetrics db).
Proof.
  destruct (run_doms trace db) as [HT HP]. split; [done|]. split; [done|].
  cbn [getDashboardMetrics totalTeams totalPlayers]. unfold getAllPlayers.
  rewrite !length_values.
  rewrite <- (size_dom (teams (run trace db))), <- (size_dom (teams db)), HT.
  rewrite <- (size_dom (players (run trace db))), <- (size_dom (players db)), HP. done.
Qed.

Lemma dom_foldl_insert {A} (key : A → string) (l : list A) (m : gmap string A) :
  dom (foldl (λ m x, <[key x := x]> m) m l) = list_to_set (key <$> l) ∪ dom m.
Proof.
  revert m. induction l as [|x l IH]; intros m; cbn [foldl fmap list_fmap list_to_set].
  - by rewrite (left_id_L ∅ (∪)).
  - rewrite IH, dom_insert_L, (assoc_L (∪)).
    by rewrite (comm_L (∪) (list_to_set (key <$> l)) {[key x]}).
Qed.

Lemma collections_doms_seeded random :
  size (dom (teams (seeded random))) = 10%nat
  ∧ size (dom (players (seeded random))) = 100%nat.
Proof.
  split.
  - unfold seeded, initializeDatabase. cbn [isDbInitialized emptyDb teams].
    rewrite dom_foldl_insert, dom_empty_L, (right_id_L ∅ (∪)).
    rewrite size_list_to_set; [reflexivity|].
    apply (bool_decide_unpack _). vm_compute. done.
  - unfold seeded, initializeDatabase. cbn [isDbInitialized emptyDb players].
    rewrite dom_foldl_insert, dom_empty_L, (right_id_L ∅ (∪)).
    rewrite size_list_to_set by apply generated_ids_NoDup.
    rewrite length_fmap. unfold generatePlayers. rewrite length_imap. reflexivity.
Qed.

(** X20.  The dashboard of a reachable store always counts 10 teams and 100
    players. *)
Theorem dashboard_totals db :
  reachable db →
  totalTeams (getDashboardMetrics db) = 10%nat
  ∧ totalPlayers (getDashboardMetrics db) = 100%nat.
Proof.
  intros (random & trace & ->).
  destruct (collections_doms_seeded random) as [HT HP].
  destruct (run_doms trace (seeded random)) as [HT' HP'].
  cbn [getDashboardMetrics totalTeams totalPlayers]. unfold getAllPlayers.
  rewrite length_values.
  rewrite <- (size_dom (teams (run trace (seeded random)))), HT', HT.
  rewrite <- (size_dom (players (run trace (seeded random)))), HP', HP.
  split; reflexivity.
Qed.

Lemma status_partition (l : list Player.t) :
  (length (filter (λ p, Player.status p = Sold) l)
   + length (filter (λ p, Player.status p = Live) l)
   + length (filter (λ p, Player.status p = Unsold) l))%nat
  = length l.
Proof.
  induction l as [|p l IH]; [done|].
  rewrite !filter_cons.
  destruct (Player.status p); repeat case_decide; try done; cbn [length]; lia.
Qed.

(** X21.  Every player is counted once: the players listed as [Sold], as
    [Live] and as [Unsold] add up to the player total of the dashboard, whose
    sold and unsold counts are the lengths of the first and the last list. *)
Theorem dashboard_player_counts db :
  (length (getPlayersByStatus Sold db) + length (getPlayersByStatus Live db)
   + length (getPlayersByStatus Unsold db))%nat
  = totalPlayers (getDashboardMetrics db)
  ∧ soldPlayersCount (getDashboardMetrics db) = length (getPlayersByStatus Sold db)
  ∧ unsoldPlayersCount (getDashboardMetrics db) = length (getPlayersByStatus Unsold db)
  ∧ liveAuctionsCount (getDashboardMetrics db) = length (getLiveAuctions db).
Proof.
  split; [|done]. unfold getPlayersByStatus.
  cbn [getDashboardMetrics totalPlayers]. apply status_partition.
Qed.

Lemma highestBid_from (start : Q) (l : list Auction.t) :
  let result :=
    foldl (λ highest a,
             if num_gt (Auction.currentBid a) highest then Auction.currentBid a
             else highest) start l in
  start <= result
  ∧ (∀ a, a ∈ l → Auction.currentBid a <= result)
  ∧ (result = start ∨ ∃ a, a ∈ l ∧ result = Auction.currentBid a).
Proof.
  revert start. induction l as [|a l IH]; intros start; cbn [foldl].
  - split; [apply Qle_refl|]. split; [|by left].
    intros a Ha. by apply elem_of_nil in Ha.
  - destruct (num_gt (Auction.currentBid a) start) eqn:Hgt.
    + apply num_gt_true in Hgt.
      destruct (IH (Auction.currentBid a)) as (Hstart & Hall & Hwhich).
      split; [lra|]. split.
      * intros b [-> | Hb]%elem_of_cons; [done | by apply Hall].
      * right. destruct Hwhich as [-> | (b & Hb & ->)].
        -- exists a. split; [apply list_elem_of_here | done].
        -- exists b. split; [by apply list_elem_of_further | done].
    + apply num_gt_false in Hgt.
      destruct (IH start) as (Hstart & Hall & Hwhich).
      split; [done|]. split.
      * intros b [-> | Hb]%elem_of_cons; [lra | by apply Hall].
      * destruct Hwhich as [-> | (b & Hb & ->)]; [by left|].
        right. exists b. split; [by apply list_elem_of_further | done].
Qed.

(** X22.  The highest bid of the dashboard is never negative and never
    below the current bid of an auction, completed ones included; it is 0
    (as when there is no auction) or the current bid of one of the
    auctions. *)
Theorem dashboard_highest_bid db :
  0 <= highestBidToday (getDashboardMetrics db)
  ∧ (∀ auctionId a, auctions db !! auctionId = Some a →
       Auction.currentBid a <= highestBidToday (getDashboardMetrics db))
  ∧ (highestBidToday (getDashboardMetrics db) = 0
     ∨ ∃ auctionId a, auctions db !! auctionId = Some a
                      ∧ highestBidToday (getDashboardMetrics db) = Auction.currentBid a)
  ∧ (auctions db = ∅ → highestBidToday (getDashboardMetrics db) = 0).
Proof.
  cbn [getDashboardMetrics highestBidToday]. unfold highestBid.
  destruct (highestBid_from 0 (values (auctions db))) as (Hstart & Hall & Hwhich).
  cbv zeta in Hstart, Hall, Hwhich.
  split; [done|]. split; [|split].
  - intros auctionId a Ha. apply Hall. apply elem_of_values. by exists auctionId.
  - destruct Hwhich as [-> | (a & (k & Hk)%elem_of_values & ->)]; [by left|].
    right. by exists k, a.
  - intros ->. unfold values. by rewrite map_to_list_empty.
Qed.

(** ** Server actions and the creation route *)

(** X23.  [placeBidAction] validates before it touches the store: an amount
    that is not positive is answered with the validation error, the store
    (locks included) is unchanged and no path is revalidated. *)
Theorem placeBidAction_invalid_amount zodMessage clock auctionId teamId amount db :
  amount <= 0 →
  placeBidAction zodMessage clock auctionId teamId amount db
  = (db, [], ActionResponse.mk false None None (Some (zodMessage amount))).
Proof.
  intros Hamount%num_gt_false. unfold placeBidAction. by rewrite Hamount.
Qed.

(** X24.  [placeBidAction] succeeds exactly when the amount is positive and
    [placeBid] accepts the bid.  It then leaves the store [placeBid] leaves,
    hands back the updated auction and revalidates the dashboard, the
    auction page and the teams page.  When it fails no team, player, auction
    or activity has changed, nothing is revalidated, no data is returned and
    an error message that is not empty is. *)
Theorem placeBidAction_outcome zodMessage clock auctionId teamId amount db :
  (∀ q, zodMessage q ≠ "") →
  let out := placeBidAction zodMessage clock auctionId teamId amount db in
  (ActionResponse.success out.2 = true
   ↔ 0 < amount ∧ success (placeBid clock auctionId teamId amount db).2 = true)
  ∧ (ActionResponse.success out.2 = true →
     out.1.1 = (placeBid clock auctionId teamId amount db).1
     ∧ out.1.2 = ["/dashboard"; "/auction/" +:+ auctionId; "/teams"]
     ∧ ActionResponse.data out.2 = auction (placeBid clock auctionId teamId amount db).2
     ∧ ActionResponse.error out.2 = None)
  ∧ (ActionResponse.success out.2 = false →
     same_entities db out.1.1
     ∧ out.1.2 = []
     ∧ ActionResponse.data out.2 = None
     ∧ ∃ msg, ActionResponse.error out.2 = Some msg ∧ msg ≠ "").
Proof.
  intros Hzod. cbv zeta. unfold placeBidAction.
  destruct (num_gt amount 0) eqn:Hpos.
  - apply num_gt_true in Hpos.
    destruct (placeBid clock auctionId teamId amount db) as [db' result] eqn:Hbid.
    destruct (success result) eqn:Hok; cbn [negb fst snd ActionResponse.success
      ActionResponse.data ActionResponse.error].
    + split; [done|]. split; [done|]. intros [=].
    + split; [split; [done | intros [_ ?]; congruence]|]. split; [intros [=]|]. intros _.
      pose proof (placeBid_rejected clock auctionId teamId amount db) as Hsame.
      rewrite Hbid in Hsame. specialize (Hsame Hok).
      split; [done|]. split; [done|]. split; [done|].
      eexists. split; [done|]. unfold or_else.
      destruct (truthy (error result)) as [msg|] eqn:Hmsg; [|done].
      by apply truthy_Some in Hmsg as [_ ?].
  - apply num_gt_false in Hpos.
    cbn [fst snd ActionResponse.success ActionResponse.data ActionResponse.error].
    split; [split; [done | intros [? _]; lra]|]. split; [intros [=]|]. intros _.
    split; [done|]. split; [done|]. split; [done|]. eexists. split; [done | apply Hzod].
Qed.

(** X25.  [completeAuctionAction] fails exactly when the auction is missing
    or not live, and then leaves the store untouched and revalidates
    nothing.  When it succeeds it leaves the store [completeAuction] leaves,
    and its message is "Player sold successfully" exactly when the auction
    has a current bidder. *)
Theorem completeAuctionAction_outcome clock auctionId db :
  let out := completeAuctionAction clock auctionId db in
  (ActionResponse.success out.2 = false
   ↔ ¬ ∃ a, auctions db !! auctionId = Some a ∧ Auction.status a = live)
  ∧ (ActionResponse.success out.2 = false →
     out.1.1 = db ∧ out.1.2 = []
     ∧ ActionResponse.error out.2 = Some "Auction not found or already completed")
  ∧ (∀ a, auctions db !! auctionId = Some a → Auction.status a = live →
     out.1.1 = (completeAuction clock auctionId db).1
     ∧ out.1.2 = ["/dashboard"; "/auction/" +:+ auctionId; "/teams"; "/players"]
     ∧ ActionResponse.data out.2 = Some (complete (now0 clock) a)
     ∧ (ActionResponse.message out.2 = Some "Player sold successfully"
        ↔ is_Some (truthy (Auction.currentBidder a)))
     ∧ (ActionResponse.message out.2 = Some "Player marked as unsold"
        ↔ truthy (Auction.currentBidder a) = None)).
Proof.
  cbv zeta. unfold completeAuctionAction.
  destruct (auctions db !! auctionId) as [a|] eqn:Ha.
  - destruct (decide (Auction.status a = live)) as [Hlive|Hnot].
    + destruct (completeAuction_live clock _ _ _ Ha Hlive) as [Hret _].
      destruct (completeAuction clock auctionId db) as [db' ret]. cbn [snd] in Hret.
      subst ret. cbn [fst snd ActionResponse.success ActionResponse.data
                      ActionResponse.error ActionResponse.message].
      split; [split; [done | intros Hno; destruct Hno; by exists a]|].
      split; [intros [=]|]. intros a' [= <-] _.
      split; [done|]. split; [done|]. split; [done|].
      cbn [complete Auction.currentBidder].
      destruct (truthy (Auction.currentBidder a)) as [bidder|].
      * split; [split; [by eexists | done]|]. split; intros [=].
      * split; [|done]. split; [intros [=] | by intros [? [=]]].
    + rewrite (completeAuction_rejects_not_live _ _ _ _ Ha Hnot).
      cbn [fst snd ActionResponse.success ActionResponse.error].
      split; [split; [|done]; intros _ (a' & [= <-] & ?); done|].
      split; [done|]. intros a' [= <-] ?. done.
  - rewrite (completeAuction_rejects_missing _ _ _ Ha).
    cbn [fst snd ActionResponse.success ActionResponse.error].
    split; [split; [|done]; intros _ (a' & [=] & _)|].
    split; [done|]. intros a' [=].
Qed.

(** X26.  The creation route answers 200 exactly when the body names a
    player that exists and is [Unsold]; it then opens the auction with a
    timer of 60 seconds and returns its id.  Every other answer (400 for a
    missing or empty [playerId] and for a player that cannot be auctioned,
    500 for an unreadable body) leaves the store untouched. *)
Theorem POST_outcome clock body db :
  let out := POST clock body db in
  (CreateResponse.status out.2 = 200%Z
   ↔ ∃ playerId p, body = Some (Some playerId) ∧ playerId ≠ ""
                   ∧ players db !! playerId = Some p ∧ Player.status p = Unsold)
  ∧ (CreateResponse.status out.2 ≠ 200%Z →
     out.1 = db ∧ CreateResponse.success out.2 = false
     ∧ (CreateResponse.status out.2 = 400%Z ∨ CreateResponse.status out.2 = 500%Z)
     ∧ (CreateResponse.status out.2 = 500%Z ↔ body = None))
  ∧ (CreateResponse.status out.2 = 200%Z →
     ∃ a, CreateResponse.auctionId out.2 = Some (Auction.id a)
          ∧ auctions out.1 !! Auction.id a = Some a
          ∧ Auction.status a = live
          ∧ Auction.timerDuration a = 60).
Proof.
  cbv zeta. unfold POST. destruct body as [field|].
  2: { cbn. split; [split; [done | by intros (? & ? & [=] & _)]|].
       split; [|done]. intros _. split_and!; [done | done | by right | done]. }
  destruct (truthy field) as [playerId|] eqn:Hfield.
  2: { cbn. split.
       - split; [done|]. intros (pid & p & [= ->] & Hne & _).
         cbn in Hfield. by destruct (decide (pid = "")).
       - split; [|done]. intros _. split_and!; [done | done | by left | done]. }
  apply truthy_Some in Hfield as [-> Hne].
  destruct (players db !! playerId) as [p|] eqn:Hp.
  - destruct (decide (Player.status p = Unsold)) as [Hunsold|Hnot].
    + pose proof (createAuction_unsold clock _ (Some 60) _ _ Hp Hunsold) as Heq.
      cbv zeta in Heq. rewrite Heq.
      cbn [fst snd CreateResponse.status CreateResponse.auctionId auctions Auction.id].
      split; [split; [intros _; by exists playerId, p | done]|].
      split; [by intros Hne200|]. intros _.
      exists (Auction.mk ("AUC-" +:+ pretty (now0 clock)) playerId playerId
                         (Player.basePrice p) None [] live (now1 clock) None 60).
      split; [done|]. split; [apply lookup_insert_eq | done].
    + rewrite (createAuction_not_unsold _ _ _ _ _ Hp Hnot). cbn.
      split; [split; [done|]; intros (pid & p' & [= <-] & _ & Hp' & ?); congruence|].
      split; [|done]. intros _. split_and!; [done | done | by left | done].
  - rewrite (createAuction_rejects_missing _ _ _ _ Hp). cbn.
    split; [split; [done|]; intros (pid & p' & [= <-] & _ & Hp' & ?); congruence|].
    split; [|done]. intros _. split_and!; [done | done | by left | done].
Qed.

(** ** Utilities *)

(** X27.  [formatRelativeTime] by the age of the timestamp in milliseconds:
    under a minute, a timestamp in the future included, it says "just now";
    then whole minutes from 1 to 59, whole hours from 1 to 23, and whole
    days from 1 on. *)
Theorem formatRelativeTime_buckets now timestamp :
  let age := (now - timestamp)%Z in
  ((age < 60000)%Z → formatRelativeTime now timestamp = "just now")
  ∧ ((60000 ≤ age < 3600000)%Z →
     formatRelativeTime now timestamp = pretty (age / 60000)%Z +:+ "m ago"
     ∧ (1 ≤ age / 60000 ≤ 59)%Z)
  ∧ ((3600000 ≤ age < 86400000)%Z →
     formatRelativeTime now timestamp = pretty (age / 3600000)%Z +:+ "h ago"
     ∧ (1 ≤ age / 3600000 ≤ 23)%Z)
  ∧ ((86400000 ≤ age)%Z →
     formatRelativeTime now timestamp = pretty (age / 86400000)%Z +:+ "d ago"
     ∧ (1 ≤ age / 86400000)%Z).
Proof.
  cbv zeta. unfold formatRelativeTime.
  set (age := (now - timestamp)%Z).
  assert ((age / 1000 / 60 = age / 60000)%Z) as Hmin by (rewrite Z.div_div by lia; reflexivity).
  assert ((age / 1000 / 3600 = age / 3600000)%Z) as Hhour by (rewrite Z.div_div by lia; reflexivity).
  assert ((age / 1000 / 86400 = age / 86400000)%Z) as Hday by (rewrite Z.div_div by lia; reflexivity).
  rewrite Hmin, Hhour, Hday.
  split_and!; intros Hage;
    repeat match goal with
           | |- context [(?x <? ?y)%Z] => destruct (Z.ltb_spec x y)
           end;
    try (split; [reflexivity|]);
    try reflexivity;
    Z.div_mod_to_equations; lia.
Qed.

(** X28.  For a draw in [0, 1) and bounds [min ≤ max] (100 and 500 when not
    given), the delay of [randomDelay] lies between the bounds, both
    included. *)
Theorem randomDelay_bounds random min max :
  0 <= random < 1 →
  (default 100 min ≤ default 500 max)%Z →
  (default 100 min ≤ randomDelay random min max ≤ default 500 max)%Z.
Proof.
  intros [Hlo Hhi] Horder. unfold randomDelay.
  set (lo := default 100%Z min) in *. set (hi := default 500%Z max) in *.
  assert (0 < inject_Z (hi - lo + 1)) as Hspan.
  { change 0 with (inject_Z 0). rewrite <- Zlt_Qlt. lia. }
  assert (0 ≤ Qfloor (random * inject_Z (hi - lo + 1)))%Z.
  { apply Qfloor_nonneg. apply Qmult_le_0_compat; [done | by apply Qlt_le_weak]. }
  assert (Qfloor (random * inject_Z (hi - lo + 1)) < hi - lo + 1)%Z.
  { apply Qfloor_lt_bound.
    rewrite <- (Qmult_1_l (inject_Z (hi - lo + 1))) at 2.
    by apply Qmult_lt_compat_r. }
  lia.
Qed.

(** ** Worked instances of the further properties *)

Lemma activities_bounded_witness :
  reachable biddingDb ∧ (length (activities biddingDb) ≤ 100)%nat.
Proof.
  assert (reachable biddingDb) as Hdb by (exists lowDraws; eexists; reflexivity).
  split; [exact Hdb | exact (activities_bounded biddingDb Hdb)].
Defined.

Lemma addActivity_ring_witness :
  (length (activities biddingDb) ≤ 100)%nat
  ∧ activities (addActivity sampleActivity biddingDb)
    = sampleActivity
      :: (if decide (length (activities biddingDb) = 100)%nat
          then removelast (activities biddingDb) else activities biddingDb).
Proof.
  assert (length (activities biddingDb) ≤ 100)%nat as Hlen by (vm_compute; lia).
  split; [exact Hlen | exact (addActivity_ring sampleActivity biddingDb Hlen)].
Defined.

Lemma getRecentActivities_prefix_witness :
  (0 ≤ default 20 (Some 1))%Z
  ∧ length (getRecentActivities (Some 1%Z) biddingDb)
    = Nat.min (Z.to_nat (default 20%Z (Some 1%Z))) (length (activities biddingDb))
  ∧ (default 20 (Some (-1)) < 0)%Z
  ∧ length (getRecentActivities (Some (-1)%Z) biddingDb)
    = (length (activities biddingDb) - Z.to_nat (- default 20%Z (Some (-1)%Z)))%nat.
Proof.
  assert (0 ≤ default 20 (Some 1))%Z as Hpos by (cbn; lia).
  assert (default 20 (Some (-1)) < 0)%Z as Hneg by (cbn; lia).
  split; [exact Hpos|].
  split; [exact (proj1 (proj2 (getRecentActivities_prefix (Some 1%Z) biddingDb)) Hpos)|].
  split; [exact Hneg|].
  exact (proj2 (proj2 (getRecentActivities_prefix (Some (-1)%Z) biddingDb)) Hneg).
Defined.

Lemma getRecentActivities_latest_witness :
  (0 < default 20 None)%Z
  ∧ head (getRecentActivities None (addActivity sampleActivity biddingDb))
    = Some sampleActivity.
Proof.
  assert (0 < default 20 None)%Z as Hpos by (cbn; lia).
  split; [exact Hpos|].
  exact (getRecentActivities_latest sampleActivity None biddingDb Hpos).
Defined.

Lemma initializeDatabase_once_witness :
  reachable soldDb ∧ initializeDatabase lowDraws soldDb = soldDb.
Proof.
  assert (reachable soldDb) as Hdb by (exists lowDraws, doubleLeader; reflexivity).
  split; [exact Hdb | exact (initializeDatabase_once lowDraws soldDb Hdb)].
Defined.

Lemma seeded_player_ranges_witness :
  players (seeded lowDraws) !! "P001" = Some (playerP001 Unsold)
  ∧ (∀ k, 0 <= lowDraws k < 1)
  ∧ Player.basePrice (playerP001 Unsold) <= (31 # 2)
  ∧ (20 ≤ Player.age (playerP001 Unsold) ≤ 34)%Z.
Proof.
  assert (players (seeded lowDraws) !! "P001" = Some (playerP001 Unsold))
    as Hp by (vm_compute; reflexivity).
  assert (∀ k, 0 <= lowDraws k < 1) as Hdraws.
  { intros k. unfold lowDraws. split; [apply Qle_refl | reflexivity]. }
  destruct (seeded_player_ranges lowDraws "P001" (playerP001 Unsold) Hp)
    as (_ & _ & _ & _ & _ & Hrange).
  split; [exact Hp|]. split; [exact Hdraws | exact (Hrange Hdraws)].
Defined.

Lemma seeded_player_lookup_witness :
  playerNames !! 99%nat = Some "Anmolpreet Singh"
  ∧ players (seeded lowDraws) !! ("P" +:+ padStart 3 "0" (pretty (99 + 1)%nat))
    = Some (generatePlayer lowDraws 99 "Anmolpreet Singh").
Proof.
  assert (playerNames !! 99%nat = Some "Anmolpreet Singh") as Hname by reflexivity.
  split; [exact Hname | exact (seeded_player_lookup lowDraws 99 _ Hname)].
Defined.

Lemma createAuction_guard_witness :
  (createAuction (at_time 3000) "P001" None biddingDb).2 = None
  ∧ (createAuction (at_time 3000) "P001" None biddingDb).1 = biddingDb.
Proof.
  assert ((createAuction (at_time 3000) "P001" None biddingDb).2 = None)
    as Hret by (vm_compute; reflexivity).
  split; [exact Hret|].
  exact (proj2 (createAuction_guard (at_time 3000) "P001" None biddingDb) Hret).
Defined.

Lemma createAuction_frame_witness :
  (createAuction (at_time 1000) "P001" None (seeded lowDraws)).2 = Some auctionOpen
  ∧ Auction.id auctionOpen = "AUC-" +:+ pretty (now0 (at_time 1000))
  ∧ teams (createAuction (at_time 1000) "P001" None (seeded lowDraws)).1
    = teams (seeded lowDraws).
Proof.
  assert ((createAuction (at_time 1000) "P001" None (seeded lowDraws)).2
          = Some auctionOpen) as Hret by (vm_compute; reflexivity).
  destruct (createAuction_frame (at_time 1000) "P001" None (seeded lowDraws)
              auctionOpen Hret) as (Hid & _ & _ & _ & _ & Hteams & _).
  split; [exact Hret|]. split; [exact Hid | exact Hteams].
Defined.

Lemma createAuction_same_clock_witness :
  now0 (at_time 1000) = now0 (at_time 1000)
  ∧ "P001" ≠ "P002"
  ∧ (createAuction (at_time 1000) "P001" None (seeded lowDraws)).2 = Some auctionOpen
  ∧ (∃ p, players (seeded lowDraws) !! "P002" = Some p ∧ Player.status p = Unsold)
  ∧ ∃ a2, auctions
            (createAuction (at_time 1000) "P002" None
               (createAuction (at_time 1000) "P001" None (seeded lowDraws)).1).1
          !! Auction.id auctionOpen = Some a2
          ∧ Auction.playerId a2 = "P002".
Proof.
  assert ("P001" ≠ "P002") as Hne by discriminate.
  assert ((createAuction (at_time 1000) "P001" None (seeded lowDraws)).2
          = Some auctionOpen) as Hret by (vm_compute; reflexivity).
  assert (∃ p, players (seeded lowDraws) !! "P002" = Some p ∧ Player.status p = Unsold)
    as Hp2.
  { eexists. split; [vm_compute; reflexivity | reflexivity]. }
  destruct (createAuction_same_clock (at_time 1000) (at_time 1000) "P001" "P002"
              None None (seeded lowDraws) auctionOpen eq_refl Hne Hret Hp2)
    as (a2 & _ & _ & Hstored & Hpid & _).
  split; [reflexivity|]. split; [exact Hne|]. split; [exact Hret|].
  split; [exact Hp2|]. exists a2. split; [exact Hstored | exact Hpid].
Defined.

Lemma createAuction_distinct_clock_witness :
  now0 (at_time 1000) ≠ now0 (at_time 2000)
  ∧ (createAuction (at_time 1000) "P001" None (seeded lowDraws)).2 = Some auctionOpen
  ∧ ∃ a2, (createAuction (at_time 2000) "P002" None
             (createAuction (at_time 1000) "P001" None (seeded lowDraws)).1).2 = Some a2
          ∧ auctions
              (createAuction (at_time 2000) "P002" None
                 (createAuction (at_time 1000) "P001" None (seeded lowDraws)).1).1
            !! Auction.id auctionOpen = Some auctionOpen.
Proof.
  assert (now0 (at_time 1000) ≠ now0 (at_time 2000)) as Hclock by (cbn; lia).
  assert ((createAuction (at_time 1000) "P001" None (seeded lowDraws)).2
          = Some auctionOpen) as Hret1 by (vm_compute; reflexivity).
  assert ((createAuction (at_time 2000) "P002" None
             (createAuction (at_time 1000) "P001" None (seeded lowDraws)).1).2
          = Some (Auction.mk "AUC-2000" "P002" "P002" (1 # 2) None [] live 2000 None 60))
    as Hret2 by (vm_compute; reflexivity).
  destruct (createAuction_distinct_clock (at_time 1000) (at_time 2000) "P001" "P002"
              None None (seeded lowDraws) auctionOpen _ Hclock Hret1 Hret2)
    as (_ & Hfirst & _).
  split; [exact Hclock|]. split; [exact Hret1|].
  eexists. split; [exact Hret2 | exact Hfirst].
Defined.

Lemma completeAuction_without_leader_witness :
  auctions openDb !! "AUC-1000" = Some auctionOpen
  ∧ Auction.status auctionOpen = live
  ∧ truthy (Auction.currentBidder auctionOpen) = None
  ∧ players openDb !! Auction.playerId auctionOpen = Some (playerP001 Live)
  ∧ (∃ p', players (completeAuction (at_time 2000) "AUC-1000" openDb).1
             !! Auction.playerId auctionOpen = Some p'
           ∧ Player.status p' = Unsold)
  ∧ teams (completeAuction (at_time 2000) "AUC-1000" openDb).1 = teams openDb.
Proof.
  assert (auctions openDb !! "AUC-1000" = Some auctionOpen)
    as Ha by (vm_compute; reflexivity).
  assert (players openDb !! Auction.playerId auctionOpen = Some (playerP001 Live))
    as Hp by (vm_compute; reflexivity).
  destruct (completeAuction_without_leader (at_time 2000) "AUC-1000" openDb auctionOpen
              (playerP001 Live) Ha eq_refl eq_refl Hp)
    as (a' & p' & act & _ & _ & _ & _ & _ & _ & Hp' & Hunsold & _ & _ & _ & Hteams & _).
  split; [exact Ha|]. do 2 (split; [reflexivity|]). split; [exact Hp|].
  split; [|exact Hteams]. exists p'. split; [exact Hp' | exact Hunsold].
Defined.

Lemma completeAuction_guard_witness :
  (completeAuction (at_time 5000) "AUC-1000" soldDb).2 = None
  ∧ (completeAuction (at_time 5000) "AUC-1000" soldDb).1 = soldDb.
Proof.
  assert ((completeAuction (at_time 5000) "AUC-1000" soldDb).2 = None)
    as Hret by (vm_compute; reflexivity).
  split; [exact Hret|].
  exact (proj2 (completeAuction_guard (at_time 5000) "AUC-1000" soldDb) Hret).
Defined.

Lemma closed_auction_frozen_witness :
  auctions soldDb !! "AUC-1000" = Some auctionSold
  ∧ Auction.status auctionSold ≠ live
  ∧ auctions (placeBid (at_time 5000) "AUC-1000" "CSK" 70 soldDb).1 !! "AUC-1000"
    = Some auctionSold
  ∧ auctions (completeAuction (at_time 5000) "AUC-1000" soldDb).1 !! "AUC-1000"
    = Some auctionSold.
Proof.
  assert (auctions soldDb !! "AUC-1000" = Some auctionSold)
    as Ha by (vm_compute; reflexivity).
  assert (Auction.status auctionSold ≠ live) as Hclosed by discriminate.
  split; [exact Ha|]. split; [exact Hclosed|].
  exact (closed_auction_frozen (at_time 5000) "AUC-1000" "CSK" 70 soldDb "AUC-1000"
           auctionSold Ha Hclosed).
Defined.

Lemma sold_player_final_witness :
  reachable soldDb
  ∧ players soldDb !! "P001" = Some soldP001
  ∧ Player.status soldP001 = Sold
  ∧ players (run [(at_time 6000, CreateAuction "P001" None);
                  (at_time 7000, SettleAuction "AUC-1000")] soldDb) !! "P001"
    = Some soldP001.
Proof.
  assert (reachable soldDb) as Hdb by (exists lowDraws, doubleLeader; reflexivity).
  assert (players soldDb !! "P001" = Some soldP001) as Hp by (vm_compute; reflexivity).
  split; [exact Hdb|]. split; [exact Hp|]. split; [reflexivity|].
  exact (sold_player_final soldDb _ "P001" soldP001 Hdb Hp eq_refl).
Defined.

Lemma live_auctions_exclusive_witness :
  reachable biddingDb
  ∧ auctions biddingDb !! "AUC-1000" = Some auctionMI
  ∧ Auction.status auctionMI = live
  ∧ ∃ p, players biddingDb !! Auction.playerId auctionMI = Some p
         ∧ Player.status p = Live.
Proof.
  assert (reachable biddingDb) as Hdb by (exists lowDraws; eexists; reflexivity).
  assert (auctions biddingDb !! "AUC-1000" = Some auctionMI)
    as Ha by (vm_compute; reflexivity).
  split; [exact Hdb|]. split; [exact Ha|]. split; [reflexivity|].
  exact (proj2 (live_auctions_exclusive biddingDb "AUC-1000" "AUC-1000" auctionMI
                  auctionMI Hdb Ha Ha eq_refl eq_refl)).
Defined.

Lemma purse_upper_bound_witness :
  reachable soldDb
  ∧ teams soldDb !! "MI" = Some teamMI_overdrawn
  ∧ Team.remainingPurse teamMI_overdrawn <= Team.totalPurse teamMI_overdrawn.
Proof.
  assert (reachable soldDb) as Hdb by (exists lowDraws, doubleLeader; reflexivity).
  assert (teams soldDb !! "MI" = Some teamMI_overdrawn) as Ht by (vm_compute; reflexivity).
  split; [exact Hdb|]. split; [exact Ht|].
  exact (proj1 (purse_upper_bound soldDb Hdb) "MI" teamMI_overdrawn Ht).
Defined.

Lemma leader_is_a_team_witness :
  reachable biddingDb
  ∧ auctions biddingDb !! "AUC-1000" = Some auctionMI
  ∧ Auction.currentBidder auctionMI = Some "MI"
  ∧ is_Some (teams biddingDb !! "MI").
Proof.
  assert (reachable biddingDb) as Hdb by (exists lowDraws; eexists; reflexivity).
  assert (auctions biddingDb !! "AUC-1000" = Some auctionMI)
    as Ha by (vm_compute; reflexivity).
  split; [exact Hdb|]. split; [exact Ha|]. split; [reflexivity|].
  exact (proj1 (proj2 (leader_is_a_team biddingDb "AUC-1000" auctionMI "MI" Hdb Ha
                         eq_refl))).
Defined.

Lemma dashboard_totals_witness :
  reachable soldDb
  ∧ totalTeams (getDashboardMetrics soldDb) = 10%nat
  ∧ totalPlayers (getDashboardMetrics soldDb) = 100%nat.
Proof.
  assert (reachable soldDb) as Hdb by (exists lowDraws, doubleLeader; reflexivity).
  split; [exact Hdb | exact (dashboard_totals soldDb Hdb)].
Defined.

Lemma dashboard_highest_bid_witness :
  auctions biddingDb !! "AUC-1000" = Some auctionMI
  ∧ Auction.currentBid auctionMI <= highestBidToday (getDashboardMetrics biddingDb)
  ∧ auctions emptyDb = ∅
  ∧ highestBidToday (getDashboardMetrics emptyDb) = 0.
Proof.
  assert (auctions biddingDb !! "AUC-1000" = Some auctionMI)
    as Ha by (vm_compute; reflexivity).
  split; [exact Ha|].
  split; [exact (proj1 (proj2 (dashboard_highest_bid biddingDb)) "AUC-1000" auctionMI Ha)|].
  split; [reflexivity|].
  exact (proj2 (proj2 (proj2 (dashboard_highest_bid emptyDb))) eq_refl).
Defined.

Lemma placeBidAction_invalid_amount_witness :
  0 <= 0
  ∧ placeBidAction sampleZodMessage (at_time 3000) "AUC-1000" "CSK" 0 biddingDb
    = (biddingDb, [], ActionResponse.mk false None None (Some (sampleZodMessage 0))).
Proof.
  assert (0 <= 0) as Hzero by apply Qle_refl.
  split; [exact Hzero|].
  exact (placeBidAction_invalid_amount sampleZodMessage (at_time 3000) "AUC-1000" "CSK"
           0 biddingDb Hzero).
Defined.

Lemma placeBidAction_outcome_witness :
  (∀ q, sampleZodMessage q ≠ "")
  ∧ ActionResponse.success
      (placeBidAction sampleZodMessage (at_time 3000) "AUC-1000" "CSK" 8 biddingDb).2
    = false
  ∧ same_entities biddingDb
      (placeBidAction sampleZodMessage (at_time 3000) "AUC-1000" "CSK" 8 biddingDb).1.1
  ∧ (placeBidAction sampleZodMessage (at_time 3000) "AUC-1000" "CSK" 8 biddingDb).1.2
    = [].
Proof.
  assert (∀ q, sampleZodMessage q ≠ "") as Hzod by (intros q; discriminate).
  assert (ActionResponse.success
            (placeBidAction sampleZodMessage (at_time 3000) "AUC-1000" "CSK" 8
               biddingDb).2 = false) as Hfail by (vm_compute; reflexivity).
  destruct (placeBidAction_outcome sampleZodMessage (at_time 3000) "AUC-1000" "CSK" 8
              biddingDb Hzod) as (_ & _ & Hfailure).
  destruct (Hfailure Hfail) as (Hsame & Hpaths & _).
  split; [exact Hzod|]. split; [exact Hfail|]. split; [exact Hsame | exact Hpaths].
Defined.

Lemma completeAuctionAction_outcome_witness :
  auctions biddingDb !! "AUC-1000" = Some auctionMI
  ∧ Auction.status auctionMI = live
  ∧ (completeAuctionAction (at_time 3000) "AUC-1000" biddingDb).1.2
    = ["/dashboard"; "/auction/" +:+ "AUC-1000"; "/teams"; "/players"]
  ∧ ActionResponse.data (completeAuctionAction (at_time 3000) "AUC-1000" biddingDb).2
    = Some (complete (now0 (at_time 3000)) auctionMI).
Proof.
  assert (auctions biddingDb !! "AUC-1000" = Some auctionMI)
    as Ha by (vm_compute; reflexivity).
  destruct (proj2 (proj2 (completeAuctionAction_outcome (at_time 3000) "AUC-1000"
                            biddingDb)) auctionMI Ha eq_refl)
    as (_ & Hpaths & Hdata & _).
  split; [exact Ha|]. split; [reflexivity|]. split; [exact Hpaths | exact Hdata].
Defined.

Lemma POST_outcome_witness :
  CreateResponse.status (POST (at_time 3000) (Some (Some "P001")) biddingDb).2 ≠ 200%Z
  ∧ (POST (at_time 3000) (Some (Some "P001")) biddingDb).1 = biddingDb
  ∧ CreateResponse.status (POST (at_time 3000) (Some (Some "P002")) biddingDb).2 = 200%Z
  ∧ ∃ a, CreateResponse.auctionId (POST (at_time 3000) (Some (Some "P002")) biddingDb).2
         = Some (Auction.id a)
         ∧ Auction.timerDuration a = 60.
Proof.
  assert (CreateResponse.status (POST (at_time 3000) (Some (Some "P001")) biddingDb).2
          ≠ 200%Z) as Hbusy by (vm_compute; discriminate).
  assert (CreateResponse.status (POST (at_time 3000) (Some (Some "P002")) biddingDb).2
          = 200%Z) as Hok by (vm_compute; reflexivity).
  destruct (POST_outcome (at_time 3000) (Some (Some "P001")) biddingDb) as (_ & Hrej & _).
  destruct (Hrej Hbusy) as (Hsame & _).
  destruct (POST_outcome (at_time 3000) (Some (Some "P002")) biddingDb) as (_ & _ & Hacc).
  destruct (Hacc Hok) as (a & Hid & _ & _ & Htimer).
  split; [exact Hbusy|]. split; [exact Hsame|]. split; [exact Hok|].
  exists a. split; [exact Hid | exact Htimer].
Defined.

Lemma formatRelativeTime_buckets_witness :
  (5000 - 6000 < 60000)%Z
  ∧ formatRelativeTime 5000 6000 = "just now"
  ∧ (60000 ≤ 125000 - 5000 < 3600000)%Z
  ∧ formatRelativeTime 125000 5000 = pretty ((125000 - 5000) / 60000)%Z +:+ "m ago".
Proof.
  assert (5000 - 6000 < 60000)%Z as Hsoon by lia.
  assert (60000 ≤ 125000 - 5000 < 3600000)%Z as Hmin by lia.
  split; [exact Hsoon|].
  split; [exact (proj1 (formatRelativeTime_buckets 5000 6000) Hsoon)|].
  split; [exact Hmin|].
  exact (proj1 (proj1 (proj2 (formatRelativeTime_buckets 125000 5000)) Hmin)).
Defined.

Lemma randomDelay_bounds_witness :
  0 <= (1 # 2) < 1
  ∧ (default 100 None ≤ default 500 None)%Z
  ∧ (default 100 None ≤ randomDelay (1 # 2) None None ≤ default 500 None)%Z.
Proof.
  assert (0 <= (1 # 2) < 1) as Hdraw by (split; [discriminate | reflexivity]).
  assert (default 100 None ≤ default 500 None)%Z as Horder by (cbn; lia).
  split; [exact Hdraw|]. split; [exact Horder|].
  exact (randomDelay_bounds (1 # 2) None None Hdraw Horder).
Defined.

(** ** The store in double arithmetic: the ledger invariant *)

Module DoublesFacts.
Import Floats Doubles.
Local Open Scope float_scope.

Ltac dbl_unfold :=
  unfold addActivity, with_teams, with_players, with_auctions, with_activities,
    with_bidLocks in *;
  cbn [teams players auctions activities isDbInitialized bidLocks fst snd] in *.

Lemma placeBid_try_rejected_same_dbl clock auctionId teamId amount db :
  success (placeBid_try clock auctionId teamId amount db).2 = false →
  (placeBid_try clock auctionId teamId amount db).1 = db.
Proof.
  unfold placeBid_try.
  destruct (auctions db !! auctionId) as [a|]; [|done].
  destruct (decide (Auction.status a ≠ live)); [done|].
  destruct (teams db !! teamId) as [team|]; [|done].
  destruct (amount <=? Auction.currentBid a); [done|].
  destruct (Team.remainingPurse team <? amount); [done|].
  simpl. discriminate.
Qed.

Lemma placeBid_unlocked_dbl clock auctionId teamId amount db :
  default false (bidLocks db !! auctionId) = false →
  placeBid clock auctionId teamId amount db
  = let out := placeBid_try clock auctionId teamId amount
                 (with_bidLocks <[auctionId := true]> db) in
    (with_bidLocks (delete auctionId) out.1, out.2).
Proof.
  intros Hfree. unfold placeBid. rewrite Hfree.
  by destruct (placeBid_try _ _ _ _ _).
Qed.

Lemma placeBid_rejected_dbl clock auctionId teamId amount db :
  success (placeBid clock auctionId teamId amount db).2 = false →
  let db' := (placeBid clock auctionId teamId amount db).1 in
  teams db' = teams db ∧ players db' = players db ∧ auctions db' = auctions db
  ∧ activities db' = activities db.
Proof.
  destruct (default false (bidLocks db !! auctionId)) eqn:Hlock.
  - unfold placeBid. rewrite Hlock. by intros _.
  - rewrite placeBid_unlocked_dbl by done. simpl. intros Hfail.
    apply placeBid_try_rejected_same_dbl in Hfail. by rewrite Hfail.
Qed.

Lemma createAuction_rejects_missing_dbl clock playerId timerDuration db :
  players db !! playerId = None →
  createAuction clock playerId timerDuration db = (db, None).
Proof. intros Hnone. unfold createAuction. by rewrite Hnone. Qed.

Lemma createAuction_not_unsold_dbl clock playerId timerDuration db player :
  players db !! playerId = Some player →
  Player.status player ≠ Unsold →
  createAuction clock playerId timerDuration db = (db, None).
Proof.
  intros Hp Hst. unfold createAuction. rewrite Hp.
  by destruct (decide (Player.status player ≠ Unsold)).
Qed.

Lemma createAuction_unsold_dbl clock playerId timerDuration db player :
  players db !! playerId = Some player →
  Player.status player = Unsold →
  let a := Auction.mk ("AUC-" +:+ pretty (now0 clock)) playerId playerId
                      (Player.basePrice player) None [] live (now1 clock) None
                      (default 60 timerDuration) in
  let act := Activity.mk ("ACT-" +:+ pretty (now2 clock)) ActivityType.auction_start
                         [Lit "Auction started for "; Lit (Player.name player)]
                         (now3 clock) None (Some playerId) None in
  createAuction clock playerId timerDuration db
  = (mkDb (teams db)
          (<[playerId := setStatus Live None None player]> (players db))
          (<[Auction.id a := a]> (auctions db))
          (activities (addActivity act db))
          (isDbInitialized db) (bidLocks db),
     Some a).
Proof.
  intros Hp Hst. simpl. unfold createAuction. rewrite Hp.
  destruct (decide (Player.status player ≠ Unsold)); [done|].
  unfold updatePlayerStatus, nameOf. simpl. rewrite Hp. simpl.
  by rewrite lookup_insert_eq.
Qed.

Lemma completeAuction_rejects_missing_dbl clock auctionId db :
  auctions db !! auctionId = None →
  completeAuction clock auctionId db = (db, None).
Proof. intros Hnone. unfold completeAuction. by rewrite Hnone. Qed.

Lemma completeAuction_rejects_not_live_dbl clock auctionId db a :
  auctions db !! auctionId = Some a →
  Auction.status a ≠ live →
  completeAuction clock auctionId db = (db, None).
Proof.
  intros Ha Hst. unfold completeAuction. rewrite Ha.
  by destruct (decide (Auction.status a ≠ live)).
Qed.

(** Settlement of a live auction nobody leads. *)
Lemma completeAuction_unsold_dbl clock auctionId db a :
  auctions db !! auctionId = Some a →
  Auction.status a = live →
  truthy (Auction.currentBidder a) = None →
  let a' := complete (now0 clock) a in
  let players' :=
    match players db !! Auction.playerId a with
    | Some p => <[Auction.playerId a := setStatus Unsold None None p]> (players db)
    | None => players db
    end in
  let act := Activity.mk ("ACT-" +:+ pretty (now1 clock)) ActivityType.auction_end
                         [Lit (from_option Player.name "" (players' !! Auction.player a));
                          Lit " went unsold"]
                         (now2 clock) None (Some (Auction.playerId a)) None in
  completeAuction clock auctionId db
  = (mkDb (teams db) players' (<[auctionId := a']> (auctions db))
          (activities (addActivity act db)) (isDbInitialized db) (bidLocks db),
     Some a').
Proof.
  intros Ha Hst Hno. simpl. unfold completeAuction. rewrite Ha.
  destruct (decide (Auction.status a ≠ live)); [done|].
  simpl. rewrite Hno. unfold updatePlayerStatus, nameOf. simpl.
  by destruct (players db !! Auction.playerId a).
Qed.

(** Settlement of a live auction led by an existing team. *)
Lemma completeAuction_sold_dbl clock auctionId db a bidder team :
  auctions db !! auctionId = Some a →
  Auction.status a = live →
  truthy (Auction.currentBidder a) = Some bidder →
  teams db !! bidder = Some team →
  let a' := complete (now0 clock) a in
  let players' :=
    match players db !! Auction.playerId a with
    | Some p =>
        <[Auction.playerId a :=
            setStatus Sold (Some bidder) (Some (Auction.currentBid a)) p]> (players db)
    | None => players db
    end in
  let team' :=
    pushPlayer (Auction.player a)
      (setRemainingPurse (Team.remainingPurse team - Auction.currentBid a) team) in
  let act := Activity.mk ("ACT-" +:+ pretty (now1 clock)) ActivityType.win
                         [Lit (Team.shortName team); Lit " won ";
                          Lit (from_option Player.name "" (players' !! Auction.player a));
                          Lit " for ₹"; Num (Auction.currentBid a); Lit "Cr"]
                         (now2 clock) (Some bidder) (Some (Auction.playerId a))
                         (Some (Auction.currentBid a)) in
  completeAuction clock auctionId db
  = (mkDb (<[bidder := team']> (teams db)) players' (<[auctionId := a']> (auctions db))
          (activities (addActivity act db)) (isDbInitialized db) (bidLocks db),
     Some a').
Proof.
  intros Ha Hst Hlead Ht. simpl. unfold completeAuction. rewrite Ha.
  destruct (decide (Auction.status a ≠ live)); [done|].
  simpl. rewrite Hlead.
  unfold updatePlayerStatus, updateTeamPurse, addPlayerToTeam, nameOf. simpl.
  destruct (players db !! Auction.playerId a); simpl; rewrite Ht; simpl;
    rewrite lookup_insert_eq; dbl_unfold; by rewrite insert_insert_eq.
Qed.

(** Settlement of a live auction whose leader is not a team of the store:
    the player is marked sold, no team changes, nothing is logged. *)
Lemma completeAuction_sold_no_team_dbl clock auctionId db a bidder :
  auctions db !! auctionId = Some a →
  Auction.status a = live →
  truthy (Auction.currentBidder a) = Some bidder →
  teams db !! bidder = None →
  completeAuction clock auctionId db
  = (updatePlayerStatus (Auction.playerId a) Sold (Some bidder)
       (Some (Auction.currentBid a))
       (with_auctions <[auctionId := complete (now0 clock) a]> db),
     Some (complete (now0 clock) a)).
Proof.
  intros Ha Hst Hlead Ht. unfold completeAuction. rewrite Ha.
  destruct (decide (Auction.status a ≠ live)); [done|].
  simpl. rewrite Hlead.
  replace (teams (updatePlayerStatus _ _ _ _ _) !! bidder) with (@None Team.t); [done|].
  unfold updatePlayerStatus. simpl.
  by destruct (players db !! Auction.playerId a).
Qed.

(** The bid record and the log entry an accepted bid produces. *)
Lemma placeBid_accepted_dbl clock auctionId teamId amount db :
  success (placeBid clock auctionId teamId amount db).2 = true →
  ∃ a team,
    auctions db !! auctionId = Some a
    ∧ Auction.status a = live
    ∧ teams db !! teamId = Some team
    ∧ (amount <=? Auction.currentBid a) = false
    ∧ (Team.remainingPurse team <? amount) = false
    ∧ let b := Bid.mk ("BID-" +:+ pretty (now0 clock)) auctionId (Auction.playerId a)
                      teamId (Team.name team) amount (now1 clock) in
      let act := Activity.mk ("ACT-" +:+ pretty (now2 clock)) ActivityType.bid
                   [Lit (Team.shortName team); Lit " bid ₹"; Num amount; Lit "Cr for ";
                    Lit (nameOf db (Auction.player a))]
                   (now3 clock) (Some teamId) (Some (Auction.playerId a)) (Some amount) in
      placeBid clock auctionId teamId amount db
      = (mkDb (teams db) (players db) (<[auctionId := recordBid b a]> (auctions db))
              (activities (addActivity act db)) (isDbInitialized db)
              (delete auctionId (<[auctionId := true]> (bidLocks db))),
         mkBidResult true None (Some (recordBid b a))).
Proof.
  unfold placeBid.
  destruct (default false (bidLocks db !! auctionId)); [done|].
  unfold placeBid_try. dbl_unfold.
  destruct (auctions db !! auctionId) as [a|]; [|done].
  destruct (decide (Auction.status a ≠ live)) as [|Hlive]; [done|].
  destruct (teams db !! teamId) as [team|]; [|done].
  destruct (amount <=? Auction.currentBid a) eqn:Hhigh; [done|].
  destruct (Team.remainingPurse team <? amount) eqn:Hrich; [done|].
  intros _. exists a, team.
  repeat split; try done.
  by destruct (decide (Auction.status a = live)).
Qed.

Lemma step_transition_dbl clock call db : Transition clock db (step db (clock, call)).
Proof.
  destruct call as [playerId timerDuration | auctionId teamId amount | auctionId];
    cbn [step].
  - destruct (players db !! playerId) as [P|] eqn:HP.
    + destruct (decide (Player.status P = Unsold)) as [Hunsold|Hnot].
      * pose proof (createAuction_unsold_dbl clock _ timerDuration _ _ HP Hunsold) as Heq.
        cbv zeta in Heq. rewrite Heq.
        by eapply (T_created _ _ _ playerId timerDuration P).
      * rewrite (createAuction_not_unsold_dbl _ _ _ _ _ HP Hnot). by apply T_same.
    + rewrite (createAuction_rejects_missing_dbl _ _ _ _ HP). by apply T_same.
  - destruct (success (placeBid clock auctionId teamId amount db).2) eqn:Hok.
    + destruct (placeBid_accepted_dbl _ _ _ _ _ Hok)
        as (a & team & Ha & Hlive & Ht & Hhigh & Hrich & Heq).
      cbv zeta in Heq. rewrite Heq.
      by eapply (T_bid _ _ _ auctionId teamId amount a team).
    + destruct (placeBid_rejected_dbl _ _ _ _ _ Hok) as (? & ? & ? & ?). by apply T_same.
  - destruct (auctions db !! auctionId) as [a|] eqn:Ha.
    2: { rewrite (completeAuction_rejects_missing_dbl _ _ _ Ha). by apply T_same. }
    destruct (decide (Auction.status a = live)) as [Hlive|Hnot].
    2: { rewrite (completeAuction_rejects_not_live_dbl _ _ _ _ Ha Hnot). by apply T_same. }
    destruct (truthy (Auction.currentBidder a)) as [bidder|] eqn:Hlead.
    + destruct (teams db !! bidder) as [team|] eqn:Ht.
      * pose proof (completeAuction_sold_dbl clock _ _ _ _ _ Ha Hlive Hlead Ht) as Heq.
        cbv zeta in Heq. rewrite Heq.
        by eapply (T_sold _ _ _ auctionId a bidder team).
      * rewrite (completeAuction_sold_no_team_dbl clock _ _ _ _ Ha Hlive Hlead Ht).
        eapply (T_settled _ _ _ auctionId a Sold (Some bidder)
                  (Some (Auction.currentBid a))); try done;
          cbn [fst]; unfold updatePlayerStatus; dbl_unfold;
          by destruct (players db !! Auction.playerId a).
    + pose proof (completeAuction_unsold_dbl clock _ _ _ Ha Hlive Hlead) as Heq.
      cbv zeta in Heq. rewrite Heq.
      by eapply (T_settled _ _ _ auctionId a Unsold None None).
Qed.

Lemma rosterPrices_ext (P P' : gmap string Player.t) (roster : list PlayerRef) :
  (∀ player, player ∈ roster → P' !! player = P !! player) →
  rosterPrices P' roster = rosterPrices P roster.
Proof.
  induction roster as [|player rest IH]; intros Hsame; [done|].
  cbn [rosterPrices]. unfold soldPriceOf.
  rewrite (Hsame player) by apply list_elem_of_here.
  rewrite IH; [done|]. intros q Hq. apply Hsame. by apply list_elem_of_further.
Qed.

Lemma rosterPrices_snoc (P : gmap string Player.t) (roster : list PlayerRef) player prices price :
  rosterPrices P roster = Some prices →
  soldPriceOf P player = Some price →
  rosterPrices P (roster ++ [player]) = Some (prices ++ [price]).
Proof.
  revert prices. induction roster as [|q rest IH]; intros prices Hprices Hprice.
  - injection Hprices as <-. cbn [app rosterPrices]. by rewrite Hprice.
  - cbn [rosterPrices] in Hprices. cbn [app rosterPrices].
    destruct (soldPriceOf P q) as [c|]; [|done].
    destruct (rosterPrices P rest) as [rest'|]; [|done].
    injection Hprices as <-.
    by rewrite (IH rest' eq_refl Hprice).
Qed.

(** One more sale is one more subtraction, made last. *)
Lemma ledger_snoc purse prices price :
  ledger purse (prices ++ [price]) = ledger purse prices - price.
Proof. unfold ledger. by rewrite foldl_app. Qed.

(** A ledger without rounding is the purse less the sum of the prices. *)
Lemma unrounded_exact purse prices :
  unrounded purse prices = true →
  ∃ p spent left,
    exact purse = Some p ∧ exactTotal prices = Some spent
    ∧ exact (ledger purse prices) = Some left
    ∧ (left == p - spent)%Q.
Proof.
  revert purse. induction prices as [|price rest IH]; intros purse Hexact.
  - cbn [unrounded] in Hexact. apply bool_decide_eq_true in Hexact as [p Hp].
    exists p, 0%Q, p. repeat split; try done. unfold Qminus. ring.
  - cbn [unrounded] in Hexact.
    destruct (exact purse) as [p|] eqn:Hp; [|done].
    destruct (exact price) as [c|] eqn:Hc; [|done].
    destruct (exact (purse - price)) as [d|] eqn:Hd; [|done].
    apply andb_true_iff in Hexact as [Hdiff%Qeq_bool_iff Hrest].
    destruct (IH _ Hrest) as (p' & spent & left & Hp' & Hspent & Hleft & Heq).
    rewrite Hd in Hp'. injection Hp' as <-.
    exists p, (c + spent)%Q, left. split; [done|]. split.
    + cbn [exactTotal foldr]. rewrite Hc. fold (exactTotal rest). by rewrite Hspent.
    + split; [exact Hleft|]. rewrite Heq, Hdiff. unfold Qminus. ring.
Qed.

(** Replacing a stored auction by one for the same player that is live only
    if the old one was keeps live auctions on distinct players. *)
Lemma live_unique_update_dbl (A : gmap string Auction.t) k a a' :
  A !! k = Some a →
  Auction.playerId a' = Auction.playerId a →
  (Auction.status a' = live → Auction.status a = live) →
  (∀ id1 id2 a1 a2, A !! id1 = Some a1 → A !! id2 = Some a2 →
     Auction.status a1 = live → Auction.status a2 = live →
     Auction.playerId a1 = Auction.playerId a2 → id1 = id2) →
  ∀ id1 id2 a1 a2, <[k := a']> A !! id1 = Some a1 → <[k := a']> A !! id2 = Some a2 →
     Auction.status a1 = live → Auction.status a2 = live →
     Auction.playerId a1 = Auction.playerId a2 → id1 = id2.
Proof.
  intros Hk Hpid Hst IH id1 id2 a1 a2 H1 H2 L1 L2 Heq.
  destruct (decide (id1 = k)) as [->|N1]; destruct (decide (id2 = k)) as [->|N2];
    simplify_map_eq; try done.
  - apply (IH k id2 a a2); auto. congruence.
  - apply (IH id1 k a1 a); auto. congruence.
  - by apply (IH id1 id2 a1 a2).
Qed.

Lemma consistent_same_dbl db db' :
  Consistent db →
  teams db' = teams db → players db' = players db → auctions db' = auctions db →
  Consistent db'.
Proof.
  intros [Hap Hlu Hrs Hpc] HT HP HA.
  split; rewrite ?HT, ?HP, ?HA; done.
Qed.

Lemma consistent_created_dbl clock db db' playerId timerDuration P :
  Consistent db →
  players db !! playerId = Some P →
  Player.status P = Unsold →
  teams db' = teams db →
  players db' = <[playerId := setStatus Live None None P]> (players db) →
  auctions db'
  = <["AUC-" +:+ pretty (now0 clock) :=
        Auction.mk ("AUC-" +:+ pretty (now0 clock)) playerId playerId
                   (Player.basePrice P) None [] live (now1 clock) None
                   (default 60 timerDuration)]> (auctions db) →
  Consistent db'.
Proof.
  intros [Hap Hlu Hrs Hpc] HP Hunsold HT HP' HA.
  set (k := "AUC-" +:+ pretty (now0 clock)) in *.
  assert (Hroster : ∀ teamId team player,
             teams db !! teamId = Some team → player ∈ Team.players team →
             player ≠ playerId).
  { intros teamId team player Ht Hin ->.
    destruct (Hrs _ _ _ Ht Hin) as (p & price & Hp & Hsold & _). congruence. }
  split; rewrite ?HT, ?HP', ?HA.
  - intros x a Hx. destruct (decide (x = k)) as [->|Hne]; simplify_map_eq.
    + eauto.
    + destruct (Hap _ _ Hx) as (Hsame & p & Hp & Hlive). split; [done|].
      destruct (decide (Auction.playerId a = playerId)) as [Heq|Hother].
      * rewrite Heq. simplify_map_eq. eauto.
      * exists p. by rewrite lookup_insert_ne.
  - intros id1 id2 a1 a2 H1 H2 L1 L2 Heq.
    assert (Hfresh : ∀ x a, auctions db !! x = Some a → Auction.status a = live →
                            Auction.playerId a ≠ playerId).
    { intros x a Hx Hl Hpid. destruct (Hap _ _ Hx) as (_ & p & Hp & Hlive).
      specialize (Hlive Hl). congruence. }
    destruct (decide (id1 = k)) as [->|N1]; destruct (decide (id2 = k)) as [->|N2];
      simplify_map_eq; try done.
    + by destruct (Hfresh _ _ H2 L2).
    + by destruct (Hfresh _ _ H1 L1).
    + by apply (Hlu id1 id2 a1 a2).
  - intros teamId team player Ht Hin.
    destruct (Hrs _ _ _ Ht Hin) as (p & price & Hp & Hsold & Hprice).
    exists p, price. rewrite lookup_insert_ne; [done|].
    intros <-. by apply (Hroster _ _ _ Ht Hin).
  - intros teamId team Ht. destruct (Hpc _ _ Ht) as (prices & Hprices & Hpurse).
    exists prices. split; [|done]. rewrite <- Hprices. apply rosterPrices_ext.
    intros player Hin. rewrite lookup_insert_ne; [done|].
    intros <-. by apply (Hroster _ _ _ Ht Hin).
Qed.

Lemma consistent_bid_dbl clock db db' auctionId teamId amount a team :
  Consistent db →
  auctions db !! auctionId = Some a →
  teams db' = teams db →
  players db' = players db →
  auctions db'
  = <[auctionId :=
        recordBid (Bid.mk ("BID-" +:+ pretty (now0 clock)) auctionId
                          (Auction.playerId a) teamId (Team.name team) amount
                          (now1 clock)) a]> (auctions db) →
  Consistent db'.
Proof.
  intros [Hap Hlu Hrs Hpc] Ha HT HP HA.
  split; rewrite ?HT, ?HP, ?HA; try done.
  - intros x a' Hx. destruct (decide (x = auctionId)) as [->|Hne]; simplify_map_eq.
    + by apply (Hap auctionId).
    + by apply (Hap x).
  - by apply (live_unique_update_dbl _ _ a).
Qed.

Lemma consistent_settled_dbl clock db db' auctionId a status teamId soldPrice :
  Consistent db →
  auctions db !! auctionId = Some a →
  Auction.status a = live →
  teams db' = teams db →
  players db'
  = match players db !! Auction.playerId a with
    | Some p => <[Auction.playerId a := setStatus status teamId soldPrice p]> (players db)
    | None => players db
    end →
  auctions db' = <[auctionId := complete (now0 clock) a]> (auctions db) →
  Consistent db'.
Proof.
  intros [Hap Hlu Hrs Hpc] Ha Hlive HT HP HA.
  destruct (Hap _ _ Ha) as (Hsame & p0 & Hp0 & Hst0). specialize (Hst0 Hlive).
  rewrite Hp0 in HP.
  assert (Hroster : ∀ teamId team player,
             teams db !! teamId = Some team → player ∈ Team.players team →
             player ≠ Auction.playerId a).
  { intros tid team player Ht Hin ->.
    destruct (Hrs _ _ _ Ht Hin) as (p & price & Hp & Hsold & _). congruence. }
  split; rewrite ?HT, ?HP, ?HA.
  - intros x a' Hx. destruct (decide (x = auctionId)) as [->|Hne]; simplify_map_eq.
    + cbn [complete Auction.player Auction.playerId Auction.status].
      split; [done|]. simplify_map_eq. eexists. split; [done|]. done.
    + destruct (Hap _ _ Hx) as (Hsame' & p & Hp & Hst). split; [done|].
      destruct (decide (Auction.playerId a' = Auction.playerId a)) as [Heq|Hother].
      * rewrite Heq. simplify_map_eq. eexists. split; [done|].
        intros Hl. destruct Hne. by apply (Hlu x auctionId a' a).
      * exists p. by rewrite lookup_insert_ne.
  - by apply (live_unique_update_dbl _ _ a).
  - intros tid team player Ht Hin.
    destruct (Hrs _ _ _ Ht Hin) as (p & price & Hp & Hsold & Hprice).
    exists p, price. rewrite lookup_insert_ne; [done|].
    intros Heq. by apply (Hroster _ _ _ Ht Hin).
  - intros tid team Ht. destruct (Hpc _ _ Ht) as (prices & Hprices & Hpurse).
    exists prices. split; [|done]. rewrite <- Hprices. apply rosterPrices_ext.
    intros player Hin. rewrite lookup_insert_ne; [done|].
    intros Heq. by apply (Hroster _ _ _ Ht Hin).
Qed.

Lemma consistent_team_gain_dbl db db' bidder team player p price :
  Consistent db →
  teams db !! bidder = Some team →
  players db !! player = Some p →
  Player.status p = Sold →
  Player.soldPrice p = Some price →
  teams db'
  = <[bidder := pushPlayer player
                  (setRemainingPurse (Team.remainingPurse team - price) team)]> (teams db) →
  players db' = players db →
  auctions db' = auctions db →
  Consistent db'.
Proof.
  intros [Hap Hlu Hrs Hpc] Ht Hp Hsold Hprice HT HP HA.
  split; rewrite ?HT, ?HP, ?HA; try done.
  - intros tid team' q Ht' Hin.
    destruct (decide (tid = bidder)) as [->|Hne]; simplify_map_eq.
    + cbn [pushPlayer Team.players] in Hin.
      apply elem_of_app in Hin as [Hin | ->%list_elem_of_singleton].
      * by apply (Hrs bidder team).
      * by exists p, price.
    + by apply (Hrs tid team').
  - intros tid team' Ht'.
    destruct (decide (tid = bidder)) as [->|Hne]; simplify_map_eq.
    + destruct (Hpc _ _ Ht) as (prices & Hprices & Hpurse).
      exists (prices ++ [price]). split.
      * apply rosterPrices_snoc; [done|]. unfold soldPriceOf. by rewrite Hp.
      * cbn [pushPlayer setRemainingPurse Team.remainingPurse Team.totalPurse].
        by rewrite ledger_snoc, Hpurse.
    + by apply (Hpc tid team').
Qed.

Lemma transition_consistent_dbl clock db db' :
  Consistent db → Transition clock db db' → Consistent db'.
Proof.
  intros Hdb [HT HP HA
             | playerId timerDuration P HP0 Hunsold HT HP HA
             | auctionId teamId amount a team Ha Hlive Ht Hhigh Hrich HT HP HA
             | auctionId a status teamId soldPrice Ha Hlive HT HP HA
             | auctionId a bidder team Ha Hlive Hlead Ht HT HP HA].
  - by apply (consistent_same_dbl db).
  - by apply (consistent_created_dbl clock db db' playerId timerDuration P).
  - by apply (consistent_bid_dbl clock db db' auctionId teamId amount a team).
  - by apply (consistent_settled_dbl clock db db' auctionId a status teamId soldPrice).
  - destruct (auction_player db Hdb _ _ Ha) as (Hsame & p0 & Hp0 & _).
    set (mid := mkDb (teams db) (players db') (auctions db') (activities db')
                     (isDbInitialized db') (bidLocks db')).
    assert (Consistent mid) as Hmid.
    { by apply (consistent_settled_dbl clock db mid auctionId a Sold (Some bidder)
                  (Some (Auction.currentBid a))). }
    apply (consistent_team_gain_dbl mid db' bidder team (Auction.player a)
             (setStatus Sold (Some bidder) (Some (Auction.currentBid a)) p0)
             (Auction.currentBid a)); try done.
    cbn [mid players]. rewrite HP, Hp0, Hsame. apply lookup_insert_eq.
Qed.

Lemma seedTeams_untouched_dbl team :
  team ∈ seedTeams →
  Team.players team = [] ∧ Team.remainingPurse team = Team.totalPurse team.
Proof.
  unfold seedTeams. rewrite !elem_of_cons, elem_of_nil.
  intros H. repeat (destruct H as [-> | H]; [done|]). done.
Qed.

Lemma seeded_teams_dbl random teamId team :
  teams (seeded random) !! teamId = Some team → team ∈ seedTeams.
Proof.
  unfold seeded, initializeDatabase. cbn [isDbInitialized emptyDb teams].
  intros H. apply foldl_insert_lookup in H as [H|H]; [done|].
  by rewrite lookup_empty in H.
Qed.

Lemma seeded_auctions_dbl random : auctions (seeded random) = ∅.
Proof. done. Qed.

Lemma seeded_consistent_dbl random : Consistent (seeded random).
Proof.
  split; try (intros ? ?; rewrite seeded_auctions_dbl, lookup_empty; done).
  - intros teamId team player Ht%seeded_teams_dbl%seedTeams_untouched_dbl Hin.
    destruct Ht as [Hempty _]. rewrite Hempty in Hin. by apply elem_of_nil in Hin.
  - intros teamId team Ht%seeded_teams_dbl%seedTeams_untouched_dbl.
    destruct Ht as [-> ->]. by exists [].
Qed.

Lemma run_consistent_dbl trace db : Consistent db → Consistent (run trace db).
Proof.
  revert db. induction trace as [|[clock call] trace IH]; intros db Hdb; [done|].
  apply IH. eapply transition_consistent_dbl; [exact Hdb | apply step_transition_dbl].
Qed.

Lemma reachable_consistent_dbl db : reachable db → Consistent db.
Proof.
  intros (random & trace & ->). apply run_consistent_dbl, seeded_consistent_dbl.
Qed.

End DoublesFacts.

(** ** Purse conservation in double arithmetic *)

(** C3 as stated fails on the store.  MI wins P001 for 0.7 and P002 for 0.9.
    The purse the store then holds for MI is 98.39999999999999, the result of
    [100 - 0.7 - 0.9] in doubles.  It is not the total purse less the sum of
    the two sold prices: not when the sum and the difference are computed in
    doubles (98.4), not when they are taken exactly on the values of the
    doubles, and not in decimals: the subtractions of the store round. *)
Lemma purse_conservation_decimal_fails :
  Doubles.reachable Doubles.decimalSalesDb
  ∧ Doubles.teams Doubles.decimalSalesDb !! "MI" = Some Doubles.teamMI_decimal
  ∧ Doubles.rosterPrices (Doubles.players Doubles.decimalSalesDb)
      (Doubles.Team.players Doubles.teamMI_decimal) = Some Doubles.decimalPrices
  ∧ Doubles.Team.remainingPurse Doubles.teamMI_decimal
    ≠ PrimFloat.sub (Doubles.Team.totalPurse Doubles.teamMI_decimal)
                    (Doubles.total Doubles.decimalPrices)
  ∧ Doubles.unrounded (Doubles.Team.totalPurse Doubles.teamMI_decimal)
      Doubles.decimalPrices = false
  ∧ ∃ purse total spent,
      Doubles.exact (Doubles.Team.remainingPurse Doubles.teamMI_decimal) = Some purse
      ∧ Doubles.exact (Doubles.Team.totalPurse Doubles.teamMI_decimal) = Some total
      ∧ Doubles.exactTotal Doubles.decimalPrices = Some spent
      ∧ ¬ purse == total - spent
      ∧ ¬ purse == 100 - ((7 # 10) + (9 # 10)).
Proof.
  split; [by exists Doubles.zeroDraws, Doubles.decimalSales|].
  split; [vm_compute; reflexivity|].
  split; [vm_compute; reflexivity|].
  split.
  { intros Heq%(f_equal FloatOps.Prim2SF). vm_compute in Heq. discriminate. }
  split; [vm_compute; reflexivity|].
  eexists _, _, _. do 3 (split; [vm_compute; reflexivity|]).
  split; intros Heq; vm_compute in Heq; discriminate.
Qed.

(** C3, as the store keeps it.  In every store reachable from the seeded one
    by [createAuction], [placeBid] and settlement, every roster entry of every
    team has a sold price, and the team's remaining purse is its total purse
    with those sold prices subtracted one after the other, in roster order,
    each subtraction being the subtraction of doubles.  Whenever none of
    these subtractions rounds, that is the total purse less the sum of the
    sold prices. *)
Theorem purse_conservation_doubles db teamId team :
  Doubles.reachable db →
  Doubles.teams db !! teamId = Some team →
  ∃ prices,
    Doubles.rosterPrices (Doubles.players db) (Doubles.Team.players team) = Some prices
    ∧ Doubles.Team.remainingPurse team
      = Doubles.ledger (Doubles.Team.totalPurse team) prices
    ∧ (Doubles.unrounded (Doubles.Team.totalPurse team) prices = true →
       ∃ total spent purse,
         Doubles.exact (Doubles.Team.totalPurse team) = Some total
         ∧ Doubles.exactTotal prices = Some spent
         ∧ Doubles.exact (Doubles.Team.remainingPurse team) = Some purse
         ∧ purse == total - spent).
Proof.
  intros Hdb%DoublesFacts.reachable_consistent_dbl Ht.
  destruct (Doubles.purse_ledger db Hdb _ _ Ht) as (prices & Hprices & Hpurse).
  exists prices. split; [done|]. split; [done|].
  rewrite Hpurse. apply DoublesFacts.unrounded_exact.
Qed.

(** The purse of MI after the two sales of [dyadicSales], where no
    subtraction rounds: 96 is 100 less 1.5 and 2.5. *)
Lemma purse_conservation_doubles_witness :
  Doubles.reachable Doubles.dyadicSalesDb
  ∧ Doubles.teams Doubles.dyadicSalesDb !! "MI" = Some Doubles.teamMI_dyadic
  ∧ Doubles.rosterPrices (Doubles.players Doubles.dyadicSalesDb)
      (Doubles.Team.players Doubles.teamMI_dyadic) = Some Doubles.dyadicPrices
  ∧ Doubles.Team.remainingPurse Doubles.teamMI_dyadic
    = Doubles.ledger (Doubles.Team.totalPurse Doubles.teamMI_dyadic) Doubles.dyadicPrices
  ∧ Doubles.unrounded (Doubles.Team.totalPurse Doubles.teamMI_dyadic)
      Doubles.dyadicPrices = true
  ∧ ∃ total spent purse,
      Doubles.exact (Doubles.Team.totalPurse Doubles.teamMI_dyadic) = Some total
      ∧ Doubles.exactTotal Doubles.dyadicPrices = Some spent
      ∧ Doubles.exact (Doubles.Team.remainingPurse Doubles.teamMI_dyadic) = Some purse
      ∧ purse == total - spent.
Proof.
  assert (Doubles.reachable Doubles.dyadicSalesDb) as Hdb.
  { exists Doubles.zeroDraws, Doubles.dyadicSales. reflexivity. }
  assert (Doubles.teams Doubles.dyadicSalesDb !! "MI" = Some Doubles.teamMI_dyadic)
    as Ht by (vm_compute; reflexivity).
  assert (Doubles.rosterPrices (Doubles.players Doubles.dyadicSalesDb)
            (Doubles.Team.players Doubles.teamMI_dyadic) = Some Doubles.dyadicPrices)
    as Hroster by (vm_compute; reflexivity).
  assert (Doubles.unrounded (Doubles.Team.totalPurse Doubles.teamMI_dyadic)
            Doubles.dyadicPrices = true)
    as Hunrounded by (vm_compute; reflexivity).
  destruct (purse_conservation_doubles _ "MI" Doubles.teamMI_dyadic Hdb Ht)
    as (prices & Hprices & Hpurse & Hexact).
  rewrite Hroster in Hprices. injection Hprices as <-.
  split; [exact Hdb|]. split; [exact Ht|]. split; [exact Hroster|].
  split; [exact Hpurse|]. split; [exact Hunrounded|].
  exact (Hexact Hunrounded).
Defined.
